(** * Marketing Campaign Analyzer: the data pipeline of [app.py]

    The script reads a CSV into a pandas frame, renames alias columns,
    synthesises a missing [Audience] column, checks the required columns,
    derives [Day] and [ROAS], computes three KPIs and builds three
    aggregate tables.  This development embeds that pipeline, statement by
    statement, over a small model of the pandas operations it calls.

    Conventions of the model.
    - A frame is an ordered list of labelled columns, as pandas keeps it;
      a cell is text, a number or the missing value.  The frame is the
      one [pd.read_csv] returned; reading the CSV is not modelled.  The
      pipeline after the column check is followed on frames without a
      missing value in the five required columns.
    - In the pipeline numbers are exact rationals; the results of a
      division are values of [fnum], which adds the three special values a
      float64 division can produce on a zero divisor.  Rounding and
      overflow are not part of the pipeline; [Binary64] gives lines 84-86
      in the arithmetic of the columns, int64 and float64.
    - The random source of [np.random.choice] is an explicit argument.
    - numpy's [argsort] with the default [kind='quicksort'] is an explicit
      argument of the leaderboard; its contract is [argsort_spec], and
      [quicksort_argsort] is numpy's scalar quicksort.
    - Dates are read in the form [d/m/yyyy] only, in the years 1678 to
      2261; other date text is outside the model.
    - Of plotly only the check of the marker sizes of the scatter plot is
      modelled, since it decides whether the run goes on; everything else
      of streamlit and plotly is outside the model: a run ends with the
      data the script hands to them. *)

From Stdlib Require Import String Ascii List Bool Arith ZArith QArith Lia.
From Stdlib Require Import Permutation Sorted.
From Stdlib Require Import Lqa.
From Stdlib Require OrderedTypeEx.
From Stdlib Require SpecFloat.
Import ListNotations.

Local Open Scope string_scope.
Local Open Scope list_scope.

(** ** Frames *)

Module Pandas.

(** A cell as [pd.read_csv] leaves it: text, a number, or the missing
    value that stands for an empty cell of the CSV. *)
Inductive cell : Type :=
| Text (s : string)
| Number (q : Q)
| Missing.

Definition Series : Type := list cell.

(** [nrows] is [len(df)], the length of the index; [cols] are the labelled
    columns in their order. *)
Record DataFrame : Type := mkDataFrame {
  nrows : nat;
  cols : list (string * Series)
}.

(** Every column has one cell per index entry. *)
Definition wf_frame (df : DataFrame) : Prop :=
  Forall (fun c => length (snd c) = nrows df) (cols df).

(** [df.columns] *)
Definition columns (df : DataFrame) : list string := map fst (cols df).

(** [c in df.columns] *)
Definition has_column (c : string) (df : DataFrame) : bool :=
  existsb (String.eqb c) (columns df).

(** A Python dict with string keys and values, looked up by exact key. *)
Fixpoint dict_get (m : list (string * string)) (k : string) : option string :=
  match m with
  | [] => None
  | (k', v) :: m' => if String.eqb k k' then Some v else dict_get m' k
  end.

(** The label a column gets under [df.rename(columns=m)]. *)
Definition rename_label (m : list (string * string)) (c : string) : string :=
  match dict_get m c with
  | Some c' => c'
  | None => c
  end.

(** [df.rename(columns=m)]: labels found in [m] are replaced, the cells of
    every column and the order of the columns stay. *)
Definition rename (m : list (string * string)) (df : DataFrame) : DataFrame :=
  {| nrows := nrows df;
     cols := map (fun c => (rename_label m (fst c), snd c)) (cols df) |}.

(** [df[c] = s] for a label [c] that is not yet a column: the new column
    is appended. *)
Definition add_column (c : string) (s : Series) (df : DataFrame) : DataFrame :=
  {| nrows := nrows df; cols := cols df ++ [(c, s)] |}.

(** [np.random.choice(xs, size=n)]: one draw per position.  [rng i] is the
    index drawn for position [i], reduced to the length of [xs]. *)
Definition random_choice (rng : nat -> nat) (xs : list string) (n : nat)
  : list string :=
  map (fun i => nth (rng i mod length xs) xs EmptyString) (seq 0 n).

End Pandas.

Import Pandas.

(** ** Schema normalisation (lines 56-75) *)

Definition rename_map : list (string * string) :=
  [ ("Day", "Date");
    ("Cost", "Spend");
    ("Total conv. value", "Revenue") ].

Definition audiences : list string :=
  ["Gen Z"; "Millennials"; "Gen X"; "Boomers"; "All"].

(** Lines 64-67: the [Audience] column is generated only when absent. *)
Definition autofix (rng : nat -> nat) (df : DataFrame) : DataFrame :=
  if negb (has_column "Audience" df)
  then add_column "Audience"
         (map Text (random_choice rng audiences (nrows df))) df
  else df.

Definition req_cols : list string :=
  ["Campaign"; "Date"; "Spend"; "Revenue"; "Audience"].

(** Line 72 *)
Definition missing_cols (df : DataFrame) : list string :=
  filter (fun c => negb (has_column c df)) req_cols.

(** [', '.join(xs)] *)
Definition join_comma (xs : list string) : string := String.concat ", " xs.

(** Line 75: the text handed to [st.error]. *)
Definition missing_message (missing : list string) : string :=
  String.append "❌ Error: Your CSV is missing these columns: "
                (join_comma missing).

(** The frame as it stands when the column check runs. *)
Definition normalize (rng : nat -> nat) (df : DataFrame) : DataFrame :=
  autofix rng (rename rename_map df).

(** ** Numbers *)

Module Float.

Local Open Scope Q_scope.

(** The values of a float64 column, rounding apart: a finite number, the
    two infinities, or NaN. *)
Inductive fnum : Type :=
| Fin (q : Q)
| PInf
| NInf
| NaN.

Definition isna (x : fnum) : bool :=
  match x with NaN => true | _ => false end.

Definition notna (x : fnum) : bool := negb (isna x).

Definition is_inf (x : fnum) : bool :=
  match x with PInf | NInf => true | _ => false end.

(** Equality of values: finite numbers are compared as rationals. *)
Definition feq (x y : fnum) : Prop :=
  match x, y with
  | Fin a, Fin b => a == b
  | PInf, PInf | NInf, NInf | NaN, NaN => True
  | _, _ => False
  end.

(** [a / b] on two numeric columns: a zero divisor raises nothing and
    yields an infinity, or NaN for 0/0.  Any other quotient is kept
    exact, where float64 rounds it and may overflow. *)
Definition fdiv (a b : Q) : fnum :=
  if Qeq_bool b 0 then
    match a ?= 0 with
    | Gt => PInf
    | Lt => NInf
    | Eq => NaN
    end
  else Fin (a / b).

Definition fadd (x y : fnum) : fnum :=
  match x, y with
  | NaN, _ | _, NaN => NaN
  | PInf, NInf | NInf, PInf => NaN
  | PInf, _ | _, PInf => PInf
  | NInf, _ | _, NInf => NInf
  | Fin a, Fin b => Fin (a + b)
  end.

(** Division of a sum by a positive count. *)
Definition fdiv_count (x : fnum) (n : nat) : fnum :=
  match x with
  | Fin a => Fin (a / inject_Z (Z.of_nat n))
  | other => other
  end.

(** [<=] on values; every comparison with NaN is false. *)
Definition fle (x y : fnum) : bool :=
  match x, y with
  | NaN, _ | _, NaN => false
  | NInf, _ | _, PInf => true
  | Fin a, Fin b => Qle_bool a b
  | _, _ => false
  end.

(** [a > b] on two numbers *)
Definition Qgt_bool (a b : Q) : bool := negb (Qle_bool a b).

(** [Series.sum()] of a numeric column *)
Definition Qsum (xs : list Q) : Q := fold_left Qplus xs 0.

(** [mean()] with the default [skipna=True]: NaN entries are left out of
    both the sum and the count; no entry left gives NaN. *)
Definition mean (xs : list fnum) : fnum :=
  let ys := filter notna xs in
  match ys with
  | [] => NaN
  | _ => fdiv_count (fold_left fadd ys (Fin 0)) (length ys)
  end.

End Float.

Import Float.

(** ** Dates *)

Module Calendar.

Local Open Scope Z_scope.

Record date : Type := mkDate { year : Z; month : Z; day : Z }.

Definition is_leap (y : Z) : bool :=
  ((y mod 4 =? 0) && negb (y mod 100 =? 0)) || (y mod 400 =? 0).

Definition days_in_month (y m : Z) : Z :=
  if m =? 2 then (if is_leap y then 29 else 28)
  else if (m =? 4) || (m =? 6) || (m =? 9) || (m =? 11) then 30
  else 31.

(** The dates this model follows: dates of the calendar in the years
    1678 to 2261, the whole years that a timestamp of nanoseconds in 64
    bits holds.  Dates of other years are outside the reader. *)
Definition valid_date (d : date) : bool :=
  (1678 <=? year d) && (year d <=? 2261) &&
  (1 <=? month d) && (month d <=? 12) &&
  (1 <=? day d) && (day d <=? days_in_month (year d) (month d)).

(** Days since 1970-01-01 in the proleptic Gregorian calendar. *)
Definition days_from_civil (d : date) : Z :=
  let y := if month d <=? 2 then year d - 1 else year d in
  let era := y / 400 in
  let yoe := y - era * 400 in
  let mp := (month d + 9) mod 12 in
  let doy := (153 * mp + 2) / 5 + day d - 1 in
  let doe := yoe * 365 + yoe / 4 - yoe / 100 + doy in
  era * 146097 + doe - 719468.

(** [dt.dayofweek]: Monday is 0; 1970-01-01 was a Thursday. *)
Definition dayofweek (d : date) : Z := (days_from_civil d + 3) mod 7.

Definition DAYS_FULL : list string :=
  ["Monday"; "Tuesday"; "Wednesday"; "Thursday"; "Friday"; "Saturday";
   "Sunday"]%string.

(** [dt.day_name()] *)
Definition day_name (d : date) : string :=
  nth (Z.to_nat (dayofweek d)) DAYS_FULL EmptyString.

(** The day after [d] in the calendar. *)
Definition next_day (d : date) : date :=
  if day d <? days_in_month (year d) (month d)
  then mkDate (year d) (month d) (day d + 1)
  else if month d <? 12 then mkDate (year d) (month d + 1) 1
  else mkDate (year d + 1) 1 1.

(** *** Reading a date *)

Definition digit_of (c : ascii) : option Z :=
  let n := Z.of_nat (nat_of_ascii c) in
  if (48 <=? n) && (n <=? 57) then Some (n - 48) else None.

Fixpoint number_of (acc : Z) (s : string) : option Z :=
  match s with
  | EmptyString => Some acc
  | String c s' =>
      match digit_of c with
      | Some k => number_of (10 * acc + k) s'
      | None => None
      end
  end.

(** The text before the first [sep], and the text after it if any. *)
Fixpoint split_at (sep : ascii) (s : string) : string * option string :=
  match s with
  | EmptyString => (EmptyString, None)
  | String c s' =>
      if Ascii.eqb c sep then (EmptyString, Some s')
      else let '(a, b) := split_at sep s' in (String c a, b)
  end.

Definition field (lo hi : nat) (s : string) : option Z :=
  if (Nat.leb lo (String.length s)) && (Nat.leb (String.length s) hi)
  then number_of 0 s else None.

(** [pd.to_datetime(s, dayfirst=True)] on one cell of the form
    [d/m/yyyy]: the first field is the day, the second the month.  Text
    of any other form is outside this reader ([None]). *)
Definition to_datetime_dayfirst (s : string) : option date :=
  let '(a, r1) := split_at "/"%char s in
  match r1 with
  | None => None
  | Some s1 =>
      let '(b, r2) := split_at "/"%char s1 in
      match r2 with
      | None => None
      | Some c =>
          match field 1 2 a, field 1 2 b, field 4 4 c with
          | Some d, Some m, Some y =>
              let dt := mkDate y m d in
              if valid_date dt then Some dt else None
          | _, _, _ => None
          end
      end
  end.

End Calendar.

Import Calendar.

(** ** Grouping *)

Section GroupBy.

Context {K A : Type}.
Variable cmp : K -> K -> comparison.
Variable key : A -> K.

(** One row enters the group of its key; the groups are kept in
    ascending key order and a group keeps its rows in frame order. *)
Fixpoint add_to_group (r : A) (gs : list (K * list A)) : list (K * list A) :=
  match gs with
  | [] => [(key r, [r])]
  | (k, g) :: gs' =>
      match cmp (key r) k with
      | Eq => (k, g ++ [r]) :: gs'
      | Lt => (key r, [r]) :: gs
      | Gt => (k, g) :: add_to_group r gs'
      end
  end.

(** [df.groupby(key)] with the default [sort=True]. *)
Definition groupby (rows : list A) : list (K * list A) :=
  fold_left (fun gs r => add_to_group r gs) rows [].

(** Strictly ascending order of group keys. *)
Definition key_lt (x y : K * list A) : Prop := cmp (fst x) (fst y) = Lt.

Definition same_key (k k' : K) : bool :=
  match cmp k k' with Eq => true | _ => false end.

(** The rows grouped under [k], none if [k] is not a group key. *)
Fixpoint group_of (k : K) (gs : list (K * list A)) : list A :=
  match gs with
  | [] => []
  | (k', g) :: gs' => if same_key k k' then g else group_of k gs'
  end.

End GroupBy.

(** Order of a two-level group key: first label, then second. *)
Definition pair_compare (a b : string * string) : comparison :=
  match String.compare (fst a) (fst b) with
  | Eq => String.compare (snd a) (snd b)
  | c => c
  end.

(** ** Sorting a frame by a float column *)

(** [xs[mask]] for a boolean mask *)
Definition select {A : Type} (mask : list bool) (xs : list A) : list A :=
  map snd (filter fst (combine mask xs)).

(** [xs[idx]] for an array of positions *)
Definition take {A : Type} (xs : list A) (idx : list nat) : list A :=
  flat_map (fun i => match nth_error xs i with
                     | Some x => [x]
                     | None => []
                     end) idx.

Section SortValues.

(** [ndarray.argsort(kind='quicksort')] on an array without NaN. *)
Variable argsort : list fnum -> list nat.

(** pandas' [nargsort(items, kind, ascending=False, na_position='last')]:
    the non-NaN items are reversed, argsorted in ascending order and the
    result reversed again; the positions of the NaN items follow. *)
Definition nargsort_desc (items : list fnum) : list nat :=
  let idx := seq 0 (length items) in
  let mask := map isna items in
  let non_nans := rev (select (map negb mask) items) in
  let non_nan_idx := rev (select (map negb mask) idx) in
  let nan_idx := select mask idx in
  let indexer := rev (take non_nan_idx (argsort non_nans)) in
  indexer ++ nan_idx.

(** [t.sort_values(by=col, ascending=False)] *)
Definition sort_values_desc {A : Type} (col : A -> fnum) (t : list A)
  : list A :=
  take t (nargsort_desc (map col t)).

End SortValues.

(** What numpy promises of [argsort] whatever the [kind]: on an array
    without NaN the result lists every position once, and reading the
    array in that order gives ascending values. *)
Definition argsort_spec (argsort : list fnum -> list nat) : Prop :=
  forall xs, forallb notna xs = true ->
    Permutation (argsort xs) (seq 0 (length xs)) /\
    Sorted (fun x y => fle x y = true) (take xs (argsort xs)).

(** ** The pipeline after the column check (lines 77-146) *)

(** One row of the five required columns, as read. *)
Record RawRow : Type := mkRawRow {
  raw_Campaign : string;
  raw_Date : string;
  raw_Spend : Q;
  raw_Revenue : Q;
  raw_Audience : string
}.

(** One row of the frame after lines 79-83. *)
Record Row : Type := mkRow {
  Campaign : string;
  Date : date;
  Spend : Q;
  Revenue : Q;
  Audience : string;
  Day : string;
  ROAS : fnum
}.

(** Lines 79, 80 and 83 on one row. *)
Definition engineer_row (r : RawRow) : option Row :=
  match to_datetime_dayfirst (raw_Date r) with
  | Some d =>
      Some {| Campaign := raw_Campaign r;
              Date := d;
              Spend := raw_Spend r;
              Revenue := raw_Revenue r;
              Audience := raw_Audience r;
              Day := day_name d;
              ROAS := fdiv (raw_Revenue r) (raw_Spend r) |}
  | None => None
  end.

(** A date that cannot be read fails the whole frame. *)
Fixpoint engineer (rs : list RawRow) : option (list Row) :=
  match rs with
  | [] => Some []
  | r :: rs' =>
      match engineer_row r, engineer rs' with
      | Some x, Some xs => Some (x :: xs)
      | _, _ => None
      end
  end.

(** Lines 84-86 in exact arithmetic; [Binary64.total_roas] is the same
    three lines in int64 and float64. *)
Definition total_spend_of (rows : list Row) : Q := Qsum (map Spend rows).
Definition total_rev_of (rows : list Row) : Q := Qsum (map Revenue rows).
Definition total_roas_of (rows : list Row) : fnum :=
  if Qgt_bool (total_spend_of rows) 0
  then fdiv (total_rev_of rows) (total_spend_of rows)
  else Fin 0.

(** Lines 115-116 *)
Record AudRow : Type := mkAudRow {
  a_Audience : string;
  a_Spend : Q;
  a_Revenue : Q;
  a_ROAS : fnum
}.

Definition aud_df_of (rows : list Row) : list AudRow :=
  map (fun g =>
         let spend := Qsum (map Spend (snd g)) in
         let revenue := Qsum (map Revenue (snd g)) in
         mkAudRow (fst g) spend revenue (fdiv revenue spend))
      (groupby String.compare Audience rows).

(** Line 129 *)
Record HeatRow : Type := mkHeatRow {
  h_Day : string;
  h_Campaign : string;
  h_Revenue : Q
}.

Definition heat_data_of (rows : list Row) : list HeatRow :=
  map (fun g => mkHeatRow (fst (fst g)) (snd (fst g))
                          (Qsum (map Revenue (snd g))))
      (groupby pair_compare (fun r => (Day r, Campaign r)) rows).

(** Line 132 *)
Definition days_order : list string :=
  ["Monday"; "Tuesday"; "Wednesday"; "Thursday"; "Friday"; "Saturday";
   "Sunday"].

(** Lines 145-146 *)
Record RankRow : Type := mkRankRow {
  r_Campaign : string;
  r_Spend : fnum;
  r_Revenue : fnum;
  r_ROAS : fnum
}.

Definition ranking_grouped (rows : list Row) : list RankRow :=
  map (fun g =>
         mkRankRow (fst g)
                   (mean (map (fun r => Fin (Spend r)) (snd g)))
                   (mean (map (fun r => Fin (Revenue r)) (snd g)))
                   (mean (map ROAS (snd g))))
      (groupby String.compare Campaign rows).

Definition ranking_of (argsort : list fnum -> list nat) (rows : list Row)
  : list RankRow :=
  sort_values_desc argsort r_ROAS (ranking_grouped rows).

(** Everything the script hands to its widgets: the frame itself (the
    scatter plot reads it), the three KPIs, the audience table, the
    heatmap table with the category order passed next to it, and the
    leaderboard.  What a widget does with its data is not modelled. *)
Record Dashboard : Type := mkDashboard {
  frame : list Row;
  total_spend : Q;
  total_rev : Q;
  total_roas : fnum;
  aud_df : list AudRow;
  heat_data : list HeatRow;
  category_orders_Day : list string;
  ranking : list RankRow
}.

Definition dashboard (argsort : list fnum -> list nat) (rows : list Row)
  : Dashboard :=
  {| frame := rows;
     total_spend := total_spend_of rows;
     total_rev := total_rev_of rows;
     total_roas := total_roas_of rows;
     aud_df := aud_df_of rows;
     heat_data := heat_data_of rows;
     category_orders_Day := days_order;
     ranking := ranking_of argsort rows |}.

(** ** From the checked frame to typed rows *)

(** [df[c]] as one column.  A label carried by several columns selects a
    frame, not a column; such frames are outside this model. *)
Definition column (c : string) (df : DataFrame) : option Series :=
  match filter (fun p => String.eqb c (fst p)) (cols df) with
  | [p] => Some (snd p)
  | _ => None
  end.

Fixpoint texts (s : Series) : option (list string) :=
  match s with
  | [] => Some []
  | Text t :: s' => option_map (cons t) (texts s')
  | _ :: _ => None
  end.

Fixpoint numbers (s : Series) : option (list Q) :=
  match s with
  | [] => Some []
  | Number q :: s' => option_map (cons q) (numbers s')
  | _ :: _ => None
  end.

Fixpoint zip_rows (cs ds : list string) (ss rs : list Q) (aus : list string)
  : list RawRow :=
  match cs, ds, ss, rs, aus with
  | c :: cs', d :: ds', s :: ss', r :: rs', a :: aus' =>
      mkRawRow c d s r a :: zip_rows cs' ds' ss' rs' aus'
  | _, _, _, _, _ => []
  end.

(** The five required columns read with the types of the data model:
    text for Campaign, Date and Audience, numbers for Spend and Revenue,
    one cell per index entry. *)
Definition records_of (df : DataFrame) : option (list RawRow) :=
  match column "Campaign" df, column "Date" df, column "Spend" df,
        column "Revenue" df, column "Audience" df with
  | Some c, Some d, Some s, Some r, Some a =>
      match texts c, texts d, numbers s, numbers r, texts a with
      | Some cs, Some ds, Some ss, Some rs, Some aus =>
          if forallb (Nat.eqb (nrows df))
               [length cs; length ds; length ss; length rs; length aus]
          then Some (zip_rows cs ds ss rs aus)
          else None
      | _, _, _, _, _ => None
      end
  | _, _, _, _, _ => None
  end.

(** ** The script *)

(** [px.scatter(df, ..., size='ROAS')] (lines 104-109) draws one marker
    per row of the frame.  plotly checks the sizes before it builds the
    figure: a size that is NaN or negative (minus infinity included)
    makes it raise; plus infinity passes. *)
Definition size_ok (x : fnum) : bool :=
  match x with
  | Fin q => Qle_bool 0 q
  | PInf => true
  | NInf | NaN => false
  end.

(** What one run shows.  [UnexpectedError] is the handler of line 158
    reached from line 104: the three KPIs of lines 90-92 are on the page
    already, no chart and no table follows.  [NotModelled] stands for
    the runs this model does not follow: a required column holding cells
    of another type or a missing value, a label carried twice, date text
    other than [d/m/yyyy].  Such a run may end in the handler of line 158 or may
    show a dashboard; nothing is stated about it. *)
Inductive outcome : Type :=
| MissingColumnsError (missing : list string)
| Views (v : Dashboard)
| UnexpectedError (spend rev : Q) (roas : fnum)
| NotModelled.

(** Lines 52-156 on the frame read from the upload. *)
Definition run (argsort : list fnum -> list nat) (rng : nat -> nat)
  (df_csv : DataFrame) : outcome :=
  let df := rename rename_map df_csv in
  let df := autofix rng df in
  match missing_cols df with
  | (_ :: _) as missing => MissingColumnsError missing
  | [] =>
      match records_of df with
      | Some raw =>
          match engineer raw with
          | Some rows =>
              if forallb (fun x => size_ok (ROAS x)) rows
              then Views (dashboard argsort rows)
              else UnexpectedError (total_spend_of rows) (total_rev_of rows)
                                   (total_roas_of rows)
          | None => NotModelled
          end
      | None => NotModelled
      end
  end.

(** The text of [st.error] at line 75, if that is what the run shows. *)
Definition error_shown (o : outcome) : option string :=
  match o with
  | MissingColumnsError missing => Some (missing_message missing)
  | _ => None
  end.

(** The dashboard of a run, if it shows one. *)
Definition views_shown (o : outcome) : option Dashboard :=
  match o with
  | Views v => Some v
  | _ => None
  end.

(** ** Two argsorts *)

(** Insertion of position [i] before the first position whose item is not
    smaller. *)
Fixpoint insert_index (xs : list fnum) (i : nat) (p : list nat) : list nat :=
  match p with
  | [] => [i]
  | j :: p' =>
      if fle (nth i xs NaN) (nth j xs NaN) then i :: p
      else j :: insert_index xs i p'
  end.

(** The positions are inserted one by one from the first to the last: a
    position ends up before the earlier positions of equal items. *)
Definition insertion_argsort (xs : list fnum) : list nat :=
  fold_left (fun p i => insert_index xs i p) (seq 0 (length xs)) [].

(** The positions are inserted from the last to the first: positions of
    equal items stay in their order, as with [kind='stable']. *)
Definition stable_argsort (xs : list fnum) : list nat :=
  fold_right (insert_index xs) [] (seq 0 (length xs)).

(** ** Orders of a table *)

(** The place of a weekday name in a list of names. *)
Fixpoint index_of (d : string) (ds : list string) : nat :=
  match ds with
  | [] => 0
  | d' :: ds' => if String.eqb d d' then 0 else S (index_of d ds')
  end.

Fixpoint nondecreasing (ns : list nat) : bool :=
  match ns with
  | a :: ((b :: _) as rest) => Nat.leb a b && nondecreasing rest
  | _ => true
  end.

(** The Day column of a table runs from Monday to Sunday. *)
Definition weekday_ordered (days : list string) : bool :=
  nondecreasing (map (fun d => index_of d days_order) days).

(** The order of the rows of [heat_data]: by Day label, then by
    Campaign label. *)
Definition heat_lt (h1 h2 : HeatRow) : Prop :=
  pair_compare (h_Day h1, h_Campaign h1) (h_Day h2, h_Campaign h2) = Lt.

(** Equality test of two values of a float column. *)
Definition feqb (x y : fnum) : bool :=
  match x, y with
  | Fin a, Fin b => Qeq_bool a b
  | PInf, PInf | NInf, NInf | NaN, NaN => true
  | _, _ => false
  end.

(** A sort of the leaderboard is stable when, for every row, the
    campaigns whose mean ROAS equals that of the row stand in the same
    order after the sort as before it. *)
Definition keeps_tie_order (before after : list RankRow) : bool :=
  forallb
    (fun r =>
       let tied := fun x => feqb (r_ROAS x) (r_ROAS r) in
       if list_eq_dec string_dec
            (map r_Campaign (filter tied before))
            (map r_Campaign (filter tied after))
       then true else false)
    before.

(** ** Stable sorting *)

(** Position [i] comes before position [j] in the stable ascending order
    of [xs]: its item is not larger, and of two equal items the earlier
    position comes first. *)
Definition stable_lt (xs : list fnum) (i j : nat) : Prop :=
  fle (nth i xs NaN) (nth j xs NaN) = true /\
  (fle (nth j xs NaN) (nth i xs NaN) = true -> (i < j)%nat).

(** What numpy promises of [argsort(kind='stable')]. *)
Definition stable_argsort_spec (argsort : list fnum -> list nat) : Prop :=
  forall xs, forallb notna xs = true ->
    Permutation (argsort xs) (seq 0 (length xs)) /\
    StronglySorted (stable_lt xs) (argsort xs).

(** Row [a] may stand before row [b] in a stable descending leaderboard:
    its mean ROAS is not smaller, and of two rows with equal mean ROAS the
    one that the grouped table lists first (the smaller campaign label)
    comes first. *)
Definition stable_desc (a b : RankRow) : Prop :=
  fle (r_ROAS b) (r_ROAS a) = true /\
  (fle (r_ROAS a) (r_ROAS b) = true ->
   String.compare (r_Campaign a) (r_Campaign b) = Lt).

(** ** Rows up to their Audience *)

(** A row with its Audience label blanked: what the KPIs, the heatmap and
    the leaderboard can see of it. *)
Definition without_audience (x : Row) : Row :=
  {| Campaign := Campaign x;
     Date := Date x;
     Spend := Spend x;
     Revenue := Revenue x;
     Audience := EmptyString;
     Day := Day x;
     ROAS := ROAS x |}.

Definition raw_without_audience (r : RawRow) : RawRow :=
  {| raw_Campaign := raw_Campaign r;
     raw_Date := raw_Date r;
     raw_Spend := raw_Spend r;
     raw_Revenue := raw_Revenue r;
     raw_Audience := EmptyString |}.

(** ** Sample uploads *)

(** The three rows of the leaderboard example of the specification. *)
Definition leaderboard_upload : DataFrame :=
  {| nrows := 3;
     cols :=
       [ ("Campaign", [Text "A"; Text "B"; Text "A"]);
         ("Date", [Text "06/01/2025"; Text "07/01/2025"; Text "08/01/2025"]);
         ("Spend", [Number 100; Number 200; Number 50]);
         ("Revenue", [Number 300; Number 200; Number 100]);
         ("Audience", [Text "Gen Z"; Text "Gen X"; Text "All"]) ] |}.

(** The frame of [leaderboard_upload] after lines 79-83. *)
Definition leaderboard_rows : list Row :=
  [ mkRow "A" (mkDate 2025 1 6) 100 300 "Gen Z" "Monday" (fdiv 300 100);
    mkRow "B" (mkDate 2025 1 7) 200 200 "Gen X" "Tuesday" (fdiv 200 200);
    mkRow "A" (mkDate 2025 1 8) 50 100 "All" "Wednesday" (fdiv 100 50) ].

(** The single row of the end-to-end example of the specification. *)
Definition single_upload : DataFrame :=
  {| nrows := 1;
     cols :=
       [ ("Campaign", [Text "X"]);
         ("Date", [Text "01/02/2025"]);
         ("Spend", [Number 100]);
         ("Revenue", [Number 200]);
         ("Audience", [Text "Gen Z"]) ] |}.

(** The frame of [single_upload] after lines 79-83. *)
Definition single_rows : list Row :=
  [ mkRow "X" (mkDate 2025 2 1) 100 200 "Gen Z" "Saturday" (fdiv 200 100) ].

(** Two rows whose weekdays occur as Monday, then Friday. *)
Definition heat_upload : DataFrame :=
  {| nrows := 2;
     cols :=
       [ ("Campaign", [Text "A"; Text "A"]);
         ("Date", [Text "06/01/2025"; Text "10/01/2025"]);
         ("Spend", [Number 100; Number 100]);
         ("Revenue", [Number 300; Number 200]);
         ("Audience", [Text "All"; Text "All"]) ] |}.

(** The frame of [heat_upload] after lines 79-83. *)
Definition heat_rows : list Row :=
  [ mkRow "A" (mkDate 2025 1 6) 100 300 "All" "Monday" (fdiv 300 100);
    mkRow "A" (mkDate 2025 1 10) 100 200 "All" "Friday" (fdiv 200 100) ].

(** Two campaigns with the same mean ROAS, 2. *)
Definition tie_upload : DataFrame :=
  {| nrows := 2;
     cols :=
       [ ("Campaign", [Text "A"; Text "B"]);
         ("Date", [Text "06/01/2025"; Text "07/01/2025"]);
         ("Spend", [Number 100; Number 50]);
         ("Revenue", [Number 200; Number 100]);
         ("Audience", [Text "All"; Text "All"]) ] |}.

(** An upload in the Google Ads format: alias labels, no Audience. *)
Definition ads_upload : DataFrame :=
  {| nrows := 3;
     cols :=
       [ ("Campaign", [Text "A"; Text "B"; Text "A"]);
         ("Day", [Text "06/01/2025"; Text "07/01/2025"; Text "08/01/2025"]);
         ("Cost", [Number 100; Number 200; Number 50]);
         ("Total conv. value", [Number 300; Number 200; Number 100]) ] |}.

(** Three rows, the first with no spend and some revenue. *)
Definition zero_spend_upload : DataFrame :=
  {| nrows := 3;
     cols :=
       [ ("Campaign", [Text "A"; Text "A"; Text "B"]);
         ("Date", [Text "06/01/2025"; Text "07/01/2025"; Text "08/01/2025"]);
         ("Spend", [Number 0; Number 100; Number 100]);
         ("Revenue", [Number 50; Number 200; Number 100]);
         ("Audience", [Text "All"; Text "All"; Text "All"]) ] |}.

(** The frame of [zero_spend_upload] after lines 79-83. *)
Definition zero_spend_rows : list Row :=
  [ mkRow "A" (mkDate 2025 1 6) 0 50 "All" "Monday" (fdiv 50 0);
    mkRow "A" (mkDate 2025 1 7) 100 200 "All" "Tuesday" (fdiv 200 100);
    mkRow "B" (mkDate 2025 1 8) 100 100 "All" "Wednesday" (fdiv 100 100) ].

(** An upload with a row that spent nothing and earned nothing. *)
Definition idle_upload : DataFrame :=
  {| nrows := 3;
     cols :=
       [ ("Campaign", [Text "A"; Text "A"; Text "B"]);
         ("Date", [Text "06/01/2025"; Text "07/01/2025"; Text "08/01/2025"]);
         ("Spend", [Number 0; Number 100; Number 100]);
         ("Revenue", [Number 0; Number 200; Number 100]);
         ("Audience", [Text "All"; Text "All"; Text "All"]) ] |}.

(** The frame of [idle_upload] after lines 79-83. *)
Definition idle_rows : list Row :=
  [ mkRow "A" (mkDate 2025 1 6) 0 0 "All" "Monday" (fdiv 0 0);
    mkRow "A" (mkDate 2025 1 7) 100 200 "All" "Tuesday" (fdiv 200 100);
    mkRow "B" (mkDate 2025 1 8) 100 100 "All" "Wednesday" (fdiv 100 100) ].

(** ** numpy's quicksort *)

(** [ndarray.argsort(kind='quicksort')] on a float64 array, as numpy's
    scalar introsort computes it (npysort, [aquicksort]): the array of
    positions [tosort] is sorted in place by the items [v] they point to.
    A range of more than 17 positions is partitioned around the median
    of its first, middle and last item, and the two parts are sorted in
    turn; a range of at most 17 positions is sorted by insertion.  The
    partition exchanges positions of equal items, the insertion does
    not. *)
Section Quicksort.

Local Open Scope nat_scope.

Variable v : list fnum.

(** numpy's [less] on floats: NaN sorts last. *)
Definition npy_less (a b : fnum) : bool :=
  (fle a b && negb (fle b a)) || (isna b && notna a).

(** [v[tosort[i]]] *)
Definition item_at (tosort : list nat) (i : nat) : fnum :=
  nth (nth i tosort 0) v NaN.

(** [tosort[i] = x] *)
Definition store (i x : nat) (tosort : list nat) : list nat :=
  if i <? length tosort
  then firstn i tosort ++ x :: skipn (S i) tosort
  else tosort.

(** [INTP_SWAP(tosort[i], tosort[j])] *)
Definition swap (i j : nat) (tosort : list nat) : list nat :=
  store j (nth i tosort 0) (store i (nth j tosort 0) tosort).

Definition swap_if_less (i j : nat) (tosort : list nat) : list nat :=
  if npy_less (item_at tosort i) (item_at tosort j)
  then swap i j tosort else tosort.

(** [do ++pi; while (less(v[*pi], vp))], entered with [pi] already
    advanced; the fuel is the length of the array. *)
Fixpoint scan_up (fuel : nat) (tosort : list nat) (vp : fnum) (pi : nat)
  : nat :=
  match fuel with
  | O => pi
  | S fuel' =>
      if npy_less (item_at tosort pi) vp
      then scan_up fuel' tosort vp (S pi) else pi
  end.

(** [do --pj; while (less(vp, v[*pj]))], entered with [pj] already
    lowered. *)
Fixpoint scan_down (fuel : nat) (tosort : list nat) (vp : fnum) (pj : nat)
  : nat :=
  match fuel with
  | O => pj
  | S fuel' =>
      if npy_less vp (item_at tosort pj)
      then scan_down fuel' tosort vp (pj - 1) else pj
  end.

(** The [for (;;)] of the partition. *)
Fixpoint partition_loop (fuel : nat) (tosort : list nat) (vp : fnum)
  (pi pj : nat) : list nat * nat :=
  match fuel with
  | O => (tosort, pi)
  | S fuel' =>
      let pi' := scan_up (length tosort) tosort vp (S pi) in
      let pj' := scan_down (length tosort) tosort vp (pj - 1) in
      if pj' <=? pi' then (tosort, pi')
      else partition_loop fuel' (swap pi' pj' tosort) vp pi' pj'
  end.

(** One partition of the range [pl..pr]: the new array and the place of
    the pivot. *)
Definition partition (tosort : list nat) (pl pr : nat) : list nat * nat :=
  let pm := pl + (pr - pl) / 2 in
  let t := swap_if_less pm pl tosort in
  let t := swap_if_less pr pm t in
  let t := swap_if_less pm pl t in
  let vp := item_at t pm in
  let t := swap pm (pr - 1) t in
  let '(t, pi) := partition_loop (length t) t vp pl (pr - 1) in
  (swap pi (pr - 1) t, pi).

(** The inner [while] of the insertion sort: the items larger than [vp]
    move up by one place, [vi] takes the place left. *)
Fixpoint shift_up (fuel : nat) (tosort : list nat) (pl pj vi : nat)
  : list nat :=
  match fuel with
  | O => store pj vi tosort
  | S fuel' =>
      if (pl <? pj) && npy_less (nth vi v NaN) (item_at tosort (pj - 1))
      then shift_up fuel' (store pj (nth (pj - 1) tosort 0) tosort)
                    pl (pj - 1) vi
      else store pj vi tosort
  end.

(** The insertion sort of the range [pl..pr]. *)
Definition insertion_range (tosort : list nat) (pl pr : nat) : list nat :=
  fold_left (fun t pi => shift_up pi t pl pi (nth pi t 0))
            (seq (S pl) (pr - pl)) tosort.

(** The range [pl..pr] sorted with [cdepth] partitions left before
    introsort hands over to heapsort.  The limit is tested when a range
    is taken from the stack ([popped]), not while the smaller part of a
    partition is carried on.  The heapsort is not followed: [None]. *)
Fixpoint sort_range (fuel : nat) (tosort : list nat) (pl pr : nat)
  (cdepth : Z) (popped : bool) : option (list nat) :=
  match fuel with
  | O => None
  | S fuel' =>
      if popped && (cdepth <? 0)%Z then None
      else if 16 <? pr - pl then
        let '(t, pi) := partition tosort pl pr in
        let cdepth' := (cdepth - 1)%Z in
        let '(small, large) :=
          if pi - pl <? pr - pi
          then ((pl, pi - 1), (S pi, pr))
          else ((S pi, pr), (pl, pi - 1)) in
        match sort_range fuel' t (fst small) (snd small) cdepth' false with
        | Some t' => sort_range fuel' t' (fst large) (snd large) cdepth' true
        | None => None
        end
      else Some (insertion_range tosort pl pr)
  end.

Definition aquicksort : option (list nat) :=
  let num := length v in
  sort_range (S num) (seq 0 num) 0 (num - 1)
             (2 * Z.log2 (Z.of_nat num))%Z true.

End Quicksort.

(** Where the heapsort would take over, the model sorts by insertion: the
    same values in the same order, possibly another order of equal
    items. *)
Definition quicksort_argsort (xs : list fnum) : list nat :=
  match aquicksort xs with
  | Some tosort => tosort
  | None => insertion_argsort xs
  end.

(** Eighteen campaigns of one row each, all with ROAS 2. *)
Definition campaigns18 : list string :=
  ["C01"; "C02"; "C03"; "C04"; "C05"; "C06"; "C07"; "C08"; "C09";
   "C10"; "C11"; "C12"; "C13"; "C14"; "C15"; "C16"; "C17"; "C18"].

Definition ties18_upload : DataFrame :=
  {| nrows := 18;
     cols :=
       [ ("Campaign", map Text campaigns18);
         ("Date", map (fun _ => Text "06/01/2025") campaigns18);
         ("Spend", map (fun _ => Number 100) campaigns18);
         ("Revenue", map (fun _ => Number 200) campaigns18);
         ("Audience", map (fun _ => Text "All") campaigns18) ] |}.

(** The frame of [ties18_upload] after lines 79-83. *)
Definition ties18_rows : list Row :=
  map (fun c => mkRow c (mkDate 2025 1 6) 100 200 "All" "Monday"
                      (fdiv 200 100))
      campaigns18.

(** ** Date texts *)

(** The text [dd/mm/yyyy] of a day, a month and a year, with leading
    zeros: the form of the Date cells of the sample uploads. *)
Definition digit_char (k : Z) : ascii :=
  nth (Z.to_nat k)
      ["0"; "1"; "2"; "3"; "4"; "5"; "6"; "7"; "8"; "9"]%char "0"%char.

Definition two_digits (n : Z) (rest : string) : string :=
  String (digit_char (n / 10)) (String (digit_char (n mod 10)) rest).

Definition four_digits (n : Z) (rest : string) : string :=
  two_digits (n / 100) (two_digits (n mod 100) rest).

Definition dmy_text (d m y : Z) : string :=
  two_digits d (String "/" (two_digits m (String "/" (four_digits y "")))).

(** The weekday names, each with the name of the day after it. *)
Definition day_after : list (string * string) :=
  [ ("Monday", "Tuesday"); ("Tuesday", "Wednesday");
    ("Wednesday", "Thursday"); ("Thursday", "Friday");
    ("Friday", "Saturday"); ("Saturday", "Sunday"); ("Sunday", "Monday") ].

(** ** The KPIs in the arithmetic of the columns (lines 84-86) *)

(** [pd.read_csv] gives a numeric column the dtype int64 when every cell
    is an integer literal and float64 otherwise.  The sums of lines 84
    and 85 and the division of line 86 are computed in that arithmetic:
    64-bit integers that wrap around, binary64 floats that round,
    overflow to an infinity and carry NaN.  The floats are those of
    IEEE 754, with 53 bits of precision and round to nearest even. *)
Module Binary64.

Local Open Scope Z_scope.

Definition float64 : Type := SpecFloat.spec_float.

Definition prec : Z := 53.
Definition emax : Z := 1024.

Definition zero : float64 := SpecFloat.S754_zero false.
Definition inf : float64 := SpecFloat.S754_infinity false.
Definition nan : float64 := SpecFloat.S754_nan.

Definition add : float64 -> float64 -> float64 := SpecFloat.SFadd prec emax.
Definition div : float64 -> float64 -> float64 := SpecFloat.SFdiv prec emax.
Definition ltb : float64 -> float64 -> bool := SpecFloat.SFltb.

(** The float of an integer, as numpy converts an int64 operand. *)
Definition of_Z (z : Z) : float64 :=
  SpecFloat.binary_normalize prec emax z 0 false.

Definition is_nan (x : float64) : bool :=
  match x with SpecFloat.S754_nan => true | _ => false end.

Definition is_inf (x : float64) : bool :=
  match x with SpecFloat.S754_infinity _ => true | _ => false end.

Definition is_zero (x : float64) : bool :=
  match x with SpecFloat.S754_zero _ => true | _ => false end.

(** A number other than zero, neither infinite nor NaN. *)
Definition is_number (x : float64) : bool :=
  match x with SpecFloat.S754_finite _ _ _ => true | _ => false end.

(** A numeric column and a numpy scalar, each with its dtype. *)
Inductive column : Type :=
| Int64 (cells : list Z)
| Float64 (cells : list float64).

Inductive scalar : Type :=
| I (z : Z)
| F (x : float64).

(** int64 arithmetic keeps the low 64 bits, read as a signed number. *)
Definition wrap64 (z : Z) : Z := (z + 2 ^ 63) mod 2 ^ 64 - 2 ^ 63.

(** *** numpy's sum of a float64 array *)

(** Fewer than 8 items: one accumulator, from left to right. *)
Definition sum_loop (res : float64) (a : list float64) : float64 :=
  fold_left add a res.

Fixpoint add_each (r a : list float64) : list float64 :=
  match r, a with
  | x :: r', y :: a' => add x y :: add_each r' a'
  | _, _ => r
  end.

(** Eight accumulators take the items in turns of eight. *)
Fixpoint accumulate (fuel : nat) (r a : list float64) : list float64 :=
  match fuel with
  | O => r
  | S fuel' =>
      match a with
      | [] => r
      | _ => accumulate fuel' (add_each r (firstn 8 a)) (skipn 8 a)
      end
  end.

(** From 8 to 128 items: the eight accumulators over the whole turns of
    eight, added in pairs, then the items left over one by one. *)
Definition sum_unrolled (a : list float64) : float64 :=
  let n := length a in
  let whole := (n - n mod 8)%nat in
  let r := accumulate n (firstn 8 a) (skipn 8 (firstn whole a)) in
  let r_ := fun k => nth k r zero in
  let res := add (add (add (r_ 0%nat) (r_ 1%nat)) (add (r_ 2%nat) (r_ 3%nat)))
                 (add (add (r_ 4%nat) (r_ 5%nat)) (add (r_ 6%nat) (r_ 7%nat))) in
  sum_loop res (skipn whole a).

(** More than 128 items: the array is cut near its middle, at a multiple
    of eight, and the sums of the two parts are added. *)
Fixpoint pairwise_sum (fuel : nat) (a : list float64) : float64 :=
  let n := length a in
  if (n <? 8)%nat then sum_loop zero a
  else if (n <=? 128)%nat then sum_unrolled a
  else
    match fuel with
    | O => sum_unrolled a
    | S fuel' =>
        let n2 := (n / 2 - (n / 2) mod 8)%nat in
        add (pairwise_sum fuel' (firstn n2 a))
            (pairwise_sum fuel' (skipn n2 a))
    end.

(** [Series.sum()]: int64 cells are added in int64; float64 cells are
    added pairwise after the NaN cells are replaced by zeros
    ([skipna=True]). *)
Definition sum (c : column) : scalar :=
  match c with
  | Int64 cells => I (fold_left (fun acc z => wrap64 (acc + z)) cells 0)
  | Float64 cells =>
      let filled := map (fun x => if is_nan x then zero else x) cells in
      F (add zero (pairwise_sum (length filled) filled))
  end.

(** [total_spend > 0] *)
Definition gt_zero (s : scalar) : bool :=
  match s with
  | I z => 0 <? z
  | F x => ltb zero x
  end.

Definition to_float (s : scalar) : float64 :=
  match s with
  | I z => of_Z z
  | F x => x
  end.

(** [a / b] on two numpy scalars: the division of float64, whatever the
    dtypes. *)
Definition true_divide (a b : scalar) : scalar :=
  F (div (to_float a) (to_float b)).

(** Lines 84-86. *)
Definition total_spend (spend : column) : scalar := sum spend.
Definition total_rev (revenue : column) : scalar := sum revenue.
Definition total_roas (spend revenue : column) : scalar :=
  if gt_zero (total_spend spend)
  then true_divide (total_rev revenue) (total_spend spend)
  else I 0.

End Binary64.

(** * Properties *)

(** ** Columns and labels *)

Lemma has_column_In (c : string) (df : DataFrame) :
  has_column c df = true <-> In c (columns df).
Proof.
  unfold has_column. rewrite existsb_exists. split.
  - intros [x [Hx Heq]]. apply String.eqb_eq in Heq. now subst.
  - intros H. exists c. split; [assumption | apply String.eqb_refl].
Qed.

Lemma has_column_false (c : string) (df : DataFrame) :
  has_column c df = false <-> ~ In c (columns df).
Proof.
  rewrite <- has_column_In. destruct (has_column c df); split; intros H;
    try discriminate; try reflexivity.
  - exfalso. now apply H.
Qed.

Lemma missing_cols_spec (df : DataFrame) (c : string) :
  In c (missing_cols df) <-> In c req_cols /\ ~ In c (columns df).
Proof.
  unfold missing_cols. rewrite filter_In, negb_true_iff, has_column_false.
  reflexivity.
Qed.

Lemma req_cols_NoDup : NoDup req_cols.
Proof.
  unfold req_cols.
  repeat (constructor; [simpl; intros H; repeat destruct H as [H | H];
                        try discriminate H; try contradiction|]).
  constructor.
Qed.

Lemma missing_cols_NoDup (df : DataFrame) : NoDup (missing_cols df).
Proof. apply NoDup_filter, req_cols_NoDup. Qed.

Lemma columns_add_column (c : string) (s : Series) (df : DataFrame) :
  columns (add_column c s df) = columns df ++ [c].
Proof. unfold columns, add_column. simpl. now rewrite map_app. Qed.

Lemma random_choice_length rng xs n : length (random_choice rng xs n) = n.
Proof. unfold random_choice. now rewrite length_map, length_seq. Qed.

Lemma random_choice_In rng xs n x :
  xs <> [] -> In x (random_choice rng xs n) -> In x xs.
Proof.
  intros Hne. unfold random_choice. rewrite in_map_iff.
  intros [i [Hi _]]. subst x. apply nth_In.
  apply Nat.mod_upper_bound. destruct xs; [congruence | discriminate].
Qed.

(** After the auto-fix there is always an [Audience] column. *)
Lemma autofix_has_Audience rng df : In "Audience" (columns (autofix rng df)).
Proof.
  unfold autofix. destruct (has_column "Audience" df) eqn:E; simpl.
  - now apply has_column_In.
  - rewrite columns_add_column. apply in_or_app. right. now left.
Qed.

(** The run shows the missing-columns error exactly when the list of
    line 72 is not empty, and then with that list. *)
Lemma run_missing argsort rng df m :
  run argsort rng df = MissingColumnsError m <->
  m = missing_cols (normalize rng df) /\ m <> [].
Proof.
  unfold run, normalize.
  destruct (missing_cols (autofix rng (rename rename_map df))) as [|c l] eqn:E.
  - split.
    + destruct (records_of _) as [raw|]; [destruct (engineer raw) as [rows|]|];
        try discriminate.
      destruct (forallb _ rows); discriminate.
    + intros [-> H]. congruence.
  - split.
    + intros H. injection H as <-. split; [reflexivity | discriminate].
    + intros [-> _]. reflexivity.
Qed.

(** ** Renaming *)

Lemma rename_label_spec (c : string) :
  (c = "Day" -> rename_label rename_map c = "Date") /\
  (c = "Cost" -> rename_label rename_map c = "Spend") /\
  (c = "Total conv. value" -> rename_label rename_map c = "Revenue") /\
  (c <> "Day" -> c <> "Cost" -> c <> "Total conv. value" ->
   rename_label rename_map c = c).
Proof.
  repeat split; try (intros ->; reflexivity).
  intros H1 H2 H3. unfold rename_label, rename_map, dict_get.
  apply String.eqb_neq in H1, H2, H3. now rewrite H1, H2, H3.
Qed.

(** C6. [df.rename(columns=rename_map)] keeps the number, the order and
    the cells of the columns; position by position, a column labelled
    exactly "Day", "Cost" or "Total conv. value" is relabelled "Date",
    "Spend" or "Revenue", and a column with any other label keeps it.  The
    match is case-sensitive: a column "day" stays "day". *)
Theorem rename_exact_match (df : DataFrame) :
  nrows (rename rename_map df) = nrows df /\
  Forall2
    (fun old new =>
       snd new = snd old /\
       (fst old = "Day" -> fst new = "Date") /\
       (fst old = "Cost" -> fst new = "Spend") /\
       (fst old = "Total conv. value" -> fst new = "Revenue") /\
       (fst old <> "Day" -> fst old <> "Cost" ->
        fst old <> "Total conv. value" -> fst new = fst old))
    (cols df) (cols (rename rename_map df)) /\
  (forall s, rename rename_map (mkDataFrame (length s) [("day", s)])
             = mkDataFrame (length s) [("day", s)]).
Proof.
  split; [reflexivity | split].
  - unfold rename. simpl. induction (cols df) as [|[c s] l IH]; simpl.
    + constructor.
    + constructor; [| exact IH]. simpl. split; [reflexivity |].
      apply rename_label_spec.
  - intros s. reflexivity.
Qed.

(** ** Audience synthesis *)

Lemma rename_wf m df : wf_frame df -> wf_frame (rename m df).
Proof.
  unfold wf_frame, rename. simpl. intros H.
  apply Forall_map. simpl. exact H.
Qed.

(** C7. When the frame has no [Audience] column, the auto-fix appends one
    that has a cell for every row, each cell one of the five labels, so
    that a frame with one cell per row in every column stays so; when the
    frame has an [Audience] column, the auto-fix leaves the frame as it
    is. *)
Theorem autofix_audience (rng : nat -> nat) (df : DataFrame) :
  (~ In "Audience" (columns df) ->
   exists labels,
     cols (autofix rng df) = cols df ++ [("Audience", map Text labels)] /\
     nrows (autofix rng df) = nrows df /\
     length labels = nrows df /\
     Forall (fun a => In a audiences) labels /\
     (wf_frame df -> wf_frame (autofix rng df))) /\
  (In "Audience" (columns df) -> autofix rng df = df).
Proof.
  split; intros H.
  - apply has_column_false in H. unfold autofix. rewrite H. simpl.
    exists (random_choice rng audiences (nrows df)).
    split; [reflexivity | split; [reflexivity | split; [| split]]].
    + apply random_choice_length.
    + apply Forall_forall. intros a Ha.
      apply (random_choice_In rng audiences (nrows df));
        [discriminate | exact Ha].
    + unfold wf_frame. simpl. intros Hwf. apply Forall_app.
      split; [exact Hwf |]. constructor; [| constructor]. simpl.
      now rewrite length_map, random_choice_length.
  - apply has_column_In in H. unfold autofix. now rewrite H.
Qed.

(** ** The column check *)

(** A required column of the upload is still there when the check runs:
    no required label is an alias, and the auto-fix only adds. *)
Lemma normalize_keeps_required rng df c :
  In c req_cols -> In c (columns df) -> In c (columns (normalize rng df)).
Proof.
  intros Hreq Hin.
  assert (Hren : In c (columns (rename rename_map df))).
  { unfold columns, rename. simpl. rewrite map_map. simpl.
    apply in_map_iff in Hin. destruct Hin as [[c' s] [E Hin]].
    simpl in E. subst c'. apply in_map_iff. exists (c, s).
    split; [| exact Hin]. simpl.
    apply rename_label_spec;
      intros ->; simpl in Hreq; intuition discriminate. }
  unfold normalize, autofix.
  destruct (has_column "Audience" (rename rename_map df)); cbn [negb].
  - exact Hren.
  - rewrite columns_add_column. apply in_or_app. now left.
Qed.

(** C1. The run shows the missing-columns error exactly when some
    required column is absent from the frame after renaming and
    synthesis.  The error then names exactly the absent required columns,
    each once, in the text of line 75, and no dashboard is shown.  A frame
    lacking only Revenue gets the text ending in "Revenue" alone; a frame
    with all five columns, after normalisation or already in the upload,
    gets no such error. *)
Theorem missing_columns_error
  (argsort : list fnum -> list nat) (rng : nat -> nat) (df : DataFrame) :
  let present := columns (normalize rng df) in
  ((exists m, run argsort rng df = MissingColumnsError m) <->
   (exists c, In c req_cols /\ ~ In c present)) /\
  (forall m, run argsort rng df = MissingColumnsError m ->
     (forall c, In c m <-> In c req_cols /\ ~ In c present) /\
     NoDup m /\
     error_shown (run argsort rng df) =
       Some (String.append "❌ Error: Your CSV is missing these columns: "
                           (String.concat ", " m)) /\
     views_shown (run argsort rng df) = None) /\
  (In "Campaign" present -> In "Date" present -> In "Spend" present ->
   ~ In "Revenue" present ->
   run argsort rng df = MissingColumnsError ["Revenue"] /\
   error_shown (run argsort rng df) =
     Some "❌ Error: Your CSV is missing these columns: Revenue") /\
  ((forall c, In c req_cols -> In c present) ->
   forall m, run argsort rng df <> MissingColumnsError m) /\
  ((forall c, In c req_cols -> In c (columns df)) ->
   forall m, run argsort rng df <> MissingColumnsError m).
Proof.
  intros present.
  pose proof (autofix_has_Audience rng (rename rename_map df)) as HA.
  fold (normalize rng df) in HA. fold present in HA.
  assert (Hrev : In "Campaign" present -> In "Date" present ->
                 In "Spend" present -> ~ In "Revenue" present ->
                 run argsort rng df = MissingColumnsError ["Revenue"]).
  { intros H H0 H1 H2. apply run_missing. split; [| discriminate].
    unfold missing_cols, req_cols. simpl.
    apply has_column_In in H, H0, H1, HA. apply has_column_false in H2.
    unfold present in *. now rewrite H, H0, H1, H2, HA. }
  assert (Hall : (forall c, In c req_cols -> In c present) ->
                 forall m, run argsort rng df <> MissingColumnsError m).
  { intros Hall m Hm. apply run_missing in Hm. destruct Hm as [-> Hne].
    destruct (missing_cols (normalize rng df)) as [|c l] eqn:E;
      [congruence |].
    assert (Hc : In c (missing_cols (normalize rng df)))
      by (rewrite E; now left).
    apply missing_cols_spec in Hc. destruct Hc as [Hr Hn].
    apply Hn, Hall, Hr. }
  split; [split | split; [| split; [| split]]].
  - intros [m Hm]. apply run_missing in Hm. destruct Hm as [-> Hne].
    destruct (missing_cols (normalize rng df)) as [|c l] eqn:E;
      [congruence |].
    exists c. apply missing_cols_spec. rewrite E. now left.
  - intros [c Hc]. apply missing_cols_spec in Hc.
    exists (missing_cols (normalize rng df)). apply run_missing.
    split; [reflexivity |]. intros E. rewrite E in Hc. contradiction.
  - intros m Hm. rewrite Hm. apply run_missing in Hm. destruct Hm as [-> _].
    split; [| split; [| split]].
    + intros c. apply missing_cols_spec.
    + apply missing_cols_NoDup.
    + reflexivity.
    + reflexivity.
  - intros H H0 H1 H2. rewrite (Hrev H H0 H1 H2). split; reflexivity.
  - exact Hall.
  - intros Hup. apply Hall. intros c Hc.
    apply normalize_keeps_required; [exact Hc | now apply Hup].
Qed.

(** C10. The list of missing columns never names Audience: the auto-fix
    runs before the check, so the column is there when the check runs,
    and the names reported are among Campaign, Date, Spend and Revenue. *)
Theorem missing_never_Audience
  (argsort : list fnum -> list nat) (rng : nat -> nat) (df : DataFrame) :
  In "Audience" (columns (normalize rng df)) /\
  ~ In "Audience" (missing_cols (normalize rng df)) /\
  incl (missing_cols (normalize rng df)) ["Campaign"; "Date"; "Spend"; "Revenue"] /\
  (forall m, run argsort rng df = MissingColumnsError m ->
     ~ In "Audience" m /\ incl m ["Campaign"; "Date"; "Spend"; "Revenue"]).
Proof.
  assert (HA : In "Audience" (columns (normalize rng df)))
    by apply autofix_has_Audience.
  assert (Hn : ~ In "Audience" (missing_cols (normalize rng df))).
  { intros H. apply missing_cols_spec in H. now destruct H. }
  assert (Hi : incl (missing_cols (normalize rng df))
                    ["Campaign"; "Date"; "Spend"; "Revenue"]).
  { intros c Hc. pose proof Hc as Hc'. apply missing_cols_spec in Hc.
    destruct Hc as [Hreq Habs]. unfold req_cols in Hreq. simpl in Hreq.
    simpl. intuition. subst c. contradiction. }
  repeat split; try assumption.
  - apply run_missing in H. destruct H as [-> _]. exact Hn.
  - apply run_missing in H. destruct H as [-> _]. exact Hi.
Qed.

(** ** Grouping *)

Section GroupByFacts.

Context {K A : Type}.
Variable cmp : K -> K -> comparison.
Variable key : A -> K.

Hypothesis cmp_eq : forall a b, cmp a b = Eq <-> a = b.
Hypothesis cmp_antisym : forall a b, cmp a b = CompOpp (cmp b a).
Hypothesis cmp_trans :
  forall a b c, cmp a b = Lt -> cmp b c = Lt -> cmp a c = Lt.

Abbreviation key_lt := (@key_lt K A cmp).
Abbreviation add := (add_to_group cmp key).

Lemma same_key_true k k' : same_key cmp k k' = true <-> k = k'.
Proof.
  unfold same_key. rewrite <- cmp_eq.
  destruct (cmp k k'); split; congruence.
Qed.

Lemma cmp_irrefl k : cmp k k <> Lt.
Proof.
  assert (E : cmp k k = Eq) by now apply cmp_eq. congruence.
Qed.

Lemma cmp_Gt_Lt a b : cmp a b = Gt -> cmp b a = Lt.
Proof.
  intros H. rewrite cmp_antisym, H. reflexivity.
Qed.

Lemma add_to_group_fst (Q : K -> Prop) r gs :
  Q (key r) -> Forall (fun x => Q (fst x)) gs ->
  Forall (fun x => Q (fst x)) (add r gs).
Proof.
  intros Hr. induction 1 as [|[k g] gs Hk Hgs IH]; simpl.
  - repeat constructor. exact Hr.
  - destruct (cmp (key r) k) eqn:E.
    + constructor; assumption.
    + constructor; [exact Hr | constructor; assumption].
    + constructor; assumption.
Qed.

(** The group table stays in strictly ascending key order. *)
Lemma add_to_group_sorted r gs :
  StronglySorted key_lt gs -> StronglySorted key_lt (add r gs).
Proof.
  induction 1 as [|[k g] gs Hs IH Hall]; simpl.
  - repeat constructor.
  - destruct (cmp (key r) k) eqn:E.
    + constructor; assumption.
    + constructor.
      * constructor; assumption.
      * constructor; [exact E |].
        eapply Forall_impl; [| exact Hall].
        intros x Hx. unfold key_lt in *. simpl in *.
        eapply cmp_trans; eassumption.
    + constructor; [exact IH |].
      apply (add_to_group_fst (fun k' => cmp k k' = Lt)).
      * now apply cmp_Gt_Lt.
      * exact Hall.
Qed.

Lemma groupby_sorted_from rows gs :
  StronglySorted key_lt gs ->
  StronglySorted key_lt (fold_left (fun gs r => add r gs) rows gs).
Proof.
  revert gs. induction rows as [|r rows IH]; intros gs H; simpl.
  - exact H.
  - apply IH, add_to_group_sorted, H.
Qed.

Lemma group_of_above k (gs : list (K * list A)) :
  Forall (fun x => cmp k (fst x) = Lt) gs -> group_of cmp k gs = [].
Proof.
  induction 1 as [|[k' g] gs Hk _ IH]; simpl; [reflexivity |].
  simpl in Hk. unfold same_key. now rewrite Hk.
Qed.

(** Adding a row extends the group of its key and no other. *)
Lemma group_of_add r gs k :
  StronglySorted key_lt gs ->
  group_of cmp k (add r gs) =
  if same_key cmp (key r) k then group_of cmp k gs ++ [r]
  else group_of cmp k gs.
Proof.
  induction 1 as [|[k' g] gs Hs IH Hall]; simpl.
  - destruct (same_key cmp (key r) k) eqn:E.
    + apply same_key_true in E. subst k.
      assert (E : same_key cmp (key r) (key r) = true) by now apply same_key_true.
      now rewrite E.
    + destruct (same_key cmp k (key r)) eqn:E'; [| reflexivity].
      apply same_key_true in E'. subst k.
      assert (E' : same_key cmp (key r) (key r) = true) by now apply same_key_true.
      congruence.
  - destruct (cmp (key r) k') eqn:E; simpl.
    + apply cmp_eq in E. subst k'.
      destruct (same_key cmp k (key r)) eqn:E1.
      * apply same_key_true in E1. subst k.
        assert (E : same_key cmp (key r) (key r) = true) by now apply same_key_true.
        now rewrite E.
      * destruct (same_key cmp (key r) k) eqn:E2; [| reflexivity].
        apply same_key_true in E2. subst k.
        assert (E2 : same_key cmp (key r) (key r) = true) by now apply same_key_true.
        congruence.
    + destruct (same_key cmp k (key r)) eqn:E1.
      * apply same_key_true in E1. subst k.
        assert (E1 : same_key cmp (key r) (key r) = true) by now apply same_key_true.
        rewrite E1. unfold same_key at 1. rewrite E.
        rewrite group_of_above; [reflexivity |].
        eapply Forall_impl; [| exact Hall].
        intros x Hx. unfold key_lt in Hx. simpl in Hx.
        eapply cmp_trans; eassumption.
      * destruct (same_key cmp (key r) k) eqn:E2; [| reflexivity].
        apply same_key_true in E2. subst k.
        assert (E2 : same_key cmp (key r) (key r) = true) by now apply same_key_true.
        congruence.
    + destruct (same_key cmp k k') eqn:E1.
      * apply same_key_true in E1. subst k'.
        unfold same_key. now rewrite E.
      * exact IH.
Qed.

Lemma group_of_fold rows gs k :
  StronglySorted key_lt gs ->
  group_of cmp k (fold_left (fun gs r => add r gs) rows gs) =
  group_of cmp k gs ++ filter (fun r => same_key cmp (key r) k) rows.
Proof.
  revert gs. induction rows as [|r rows IH]; intros gs H; simpl.
  - now rewrite app_nil_r.
  - rewrite IH by now apply add_to_group_sorted.
    rewrite group_of_add by exact H.
    destruct (same_key cmp (key r) k); [now rewrite <- app_assoc | reflexivity].
Qed.

(** The group of a key holds the rows with that key, in frame order. *)
Lemma group_of_groupby rows k :
  group_of cmp k (groupby cmp key rows) =
  filter (fun r => same_key cmp (key r) k) rows.
Proof.
  unfold groupby. rewrite group_of_fold by constructor. reflexivity.
Qed.

Lemma groupby_sorted rows : StronglySorted key_lt (groupby cmp key rows).
Proof. apply groupby_sorted_from. constructor. Qed.

Lemma In_group_of k g (gs : list (K * list A)) :
  StronglySorted key_lt gs -> In (k, g) gs -> group_of cmp k gs = g.
Proof.
  induction 1 as [|[k' g'] gs Hs IH Hall]; simpl; [contradiction |].
  intros [H | H].
  - injection H as -> ->.
    assert (E : same_key cmp k k = true) by now apply same_key_true.
    now rewrite E.
  - destruct (same_key cmp k k') eqn:E.
    + apply same_key_true in E. subst k'.
      rewrite Forall_forall in Hall. specialize (Hall _ H).
      unfold key_lt in Hall. simpl in Hall. now apply cmp_irrefl in Hall.
    + now apply IH.
Qed.

Lemma add_to_group_nonempty r gs :
  Forall (fun x => snd x <> []) gs -> Forall (fun x => snd x <> []) (add r gs).
Proof.
  induction 1 as [|[k g] gs Hk Hgs IH]; simpl.
  - repeat constructor. discriminate.
  - destruct (cmp (key r) k).
    + constructor; [| assumption]. simpl. now destruct g.
    + constructor; [discriminate | constructor; assumption].
    + constructor; assumption.
Qed.

Lemma groupby_nonempty rows :
  Forall (fun x => snd x <> []) (groupby cmp key rows).
Proof.
  unfold groupby.
  assert (H : Forall (fun x : K * list A => snd x <> []) []) by constructor.
  revert H. generalize (@nil (K * list A)).
  induction rows as [|r rows IH]; intros gs H; simpl; [exact H |].
  apply IH, add_to_group_nonempty, H.
Qed.

Lemma group_of_In k (gs : list (K * list A)) :
  group_of cmp k gs <> [] -> In (k, group_of cmp k gs) gs.
Proof.
  induction gs as [|[k' g] gs IH]; simpl; [congruence |].
  destruct (same_key cmp k k') eqn:E.
  - apply same_key_true in E. subst k'. now left.
  - intros H. right. now apply IH.
Qed.

(** [groupby] lists exactly the keys that occur, each with the rows that
    carry it. *)
Lemma groupby_spec rows k g :
  In (k, g) (groupby cmp key rows) <->
  g = filter (fun r => same_key cmp (key r) k) rows /\ g <> [].
Proof.
  split.
  - intros H. split.
    + rewrite <- group_of_groupby. symmetry.
      apply In_group_of; [apply groupby_sorted | exact H].
    + pose proof (groupby_nonempty rows) as Hne.
      rewrite Forall_forall in Hne. apply (Hne _ H).
  - intros [-> Hne]. rewrite <- group_of_groupby in *.
    now apply group_of_In.
Qed.

End GroupByFacts.

(** *** The order of labels *)

Lemma string_compare_eq a b : String.compare a b = Eq <-> a = b.
Proof. apply OrderedTypeEx.String_as_OT.cmp_eq. Qed.

Lemma string_compare_trans a b c :
  String.compare a b = Lt -> String.compare b c = Lt ->
  String.compare a c = Lt.
Proof.
  intros H1 H2.
  apply OrderedTypeEx.String_as_OT.cmp_lt in H1, H2.
  apply OrderedTypeEx.String_as_OT.cmp_lt.
  eapply OrderedTypeEx.String_as_OT.lt_trans; eassumption.
Qed.

Lemma same_key_string a b : same_key String.compare a b = String.eqb a b.
Proof.
  unfold same_key. destruct (String.eqb a b) eqn:E.
  - apply String.eqb_eq in E. apply string_compare_eq in E. now rewrite E.
  - apply String.eqb_neq in E.
    destruct (String.compare a b) eqn:C; try reflexivity.
    apply string_compare_eq in C. contradiction.
Qed.

Lemma pair_compare_eq a b : pair_compare a b = Eq <-> a = b.
Proof.
  unfold pair_compare. destruct a as [a1 a2], b as [b1 b2]. simpl.
  destruct (String.compare a1 b1) eqn:E1.
  - apply string_compare_eq in E1. subst b1. rewrite string_compare_eq.
    split; congruence.
  - split; [discriminate |]. intros H. injection H as -> ->.
    assert (String.compare b1 b1 = Eq) by now apply string_compare_eq.
    congruence.
  - split; [discriminate |]. intros H. injection H as -> ->.
    assert (String.compare b1 b1 = Eq) by now apply string_compare_eq.
    congruence.
Qed.

Lemma pair_compare_antisym a b : pair_compare a b = CompOpp (pair_compare b a).
Proof.
  unfold pair_compare. destruct a as [a1 a2], b as [b1 b2]. simpl.
  rewrite (String.compare_antisym a1 b1), (String.compare_antisym a2 b2).
  destruct (String.compare b1 a1); reflexivity.
Qed.

Lemma pair_compare_trans a b c :
  pair_compare a b = Lt -> pair_compare b c = Lt -> pair_compare a c = Lt.
Proof.
  unfold pair_compare.
  destruct a as [a1 a2], b as [b1 b2], c as [c1 c2]. simpl.
  destruct (String.compare a1 b1) eqn:E1; try discriminate;
    destruct (String.compare b1 c1) eqn:E2; try discriminate; intros H1 H2.
  - apply string_compare_eq in E1, E2. subst.
    assert (E : String.compare c1 c1 = Eq) by now apply string_compare_eq.
    rewrite E. eapply string_compare_trans; eassumption.
  - apply string_compare_eq in E1. subst. now rewrite E2.
  - apply string_compare_eq in E2. subst. now rewrite E1.
  - now rewrite (string_compare_trans _ _ _ E1 E2).
Qed.

(** ** Sums and means *)

Lemma Qsum_from xs a : fold_left Qplus xs a == a + Qsum xs.
Proof.
  unfold Qsum. revert a. induction xs as [|x xs IH]; intros a; simpl.
  - ring.
  - rewrite IH, (IH (0 + x)). ring.
Qed.

(** The sum of a column is the sum of its cells. *)
Lemma Qsum_cons x xs : Qsum (x :: xs) == x + Qsum xs.
Proof. unfold Qsum at 1. simpl. rewrite Qsum_from. ring. Qed.

Lemma fold_fadd_Fin xs a :
  fold_left fadd (map Fin xs) (Fin a) = Fin (fold_left Qplus xs a).
Proof.
  revert a. induction xs as [|x xs IH]; intros a; simpl; [reflexivity |].
  apply IH.
Qed.

Lemma filter_notna_Fin xs : filter notna (map Fin xs) = map Fin xs.
Proof.
  induction xs as [|x xs IH]; simpl; [reflexivity | now rewrite IH].
Qed.

(** The mean of finite numbers is their sum over their count. *)
Lemma mean_Fin xs :
  xs <> [] ->
  mean (map Fin xs) = Fin (Qsum xs / inject_Z (Z.of_nat (length xs))).
Proof.
  intros Hne. unfold mean. rewrite filter_notna_Fin.
  destruct xs as [|x xs]; [congruence |].
  change (map Fin (x :: xs)) with (Fin x :: map Fin xs).
  cbv iota. change (Fin x :: map Fin xs) with (map Fin (x :: xs)).
  rewrite fold_fadd_Fin, length_map. reflexivity.
Qed.

Lemma fdiv_nonzero a b : ~ b == 0 -> fdiv a b = Fin (a / b).
Proof.
  intros H. unfold fdiv. destruct (Qeq_bool b 0) eqn:E; [| reflexivity].
  apply Qeq_bool_eq in E. contradiction.
Qed.

(** ** Rows *)

Lemma engineer_row_spec r x :
  engineer_row r = Some x ->
  to_datetime_dayfirst (raw_Date r) = Some (Date x) /\
  Campaign x = raw_Campaign r /\ Spend x = raw_Spend r /\
  Revenue x = raw_Revenue r /\ Audience x = raw_Audience r /\
  Day x = day_name (Date x) /\ ROAS x = fdiv (Revenue x) (Spend x).
Proof.
  unfold engineer_row. destruct (to_datetime_dayfirst (raw_Date r)) as [d|];
    [| discriminate].
  intros H. injection H as <-. simpl. repeat split.
Qed.

Lemma engineer_Forall2 raw rows :
  engineer raw = Some rows ->
  Forall2 (fun r x => engineer_row r = Some x) raw rows.
Proof.
  revert rows. induction raw as [|r raw IH]; simpl; intros rows H.
  - injection H as <-. constructor.
  - destruct (engineer_row r) as [x|] eqn:E; [| discriminate].
    destruct (engineer raw) as [xs|]; [| discriminate].
    injection H as <-. constructor; [exact E | now apply IH].
Qed.

(** Every row of an engineered frame has its ROAS and Day derived from
    its own Revenue, Spend and Date. *)
Lemma engineer_derived raw rows :
  engineer raw = Some rows ->
  Forall (fun x => ROAS x = fdiv (Revenue x) (Spend x) /\
                   Day x = day_name (Date x)) rows.
Proof.
  intros H. apply engineer_Forall2 in H.
  induction H as [|r x raw rows Hx _ IH]; constructor; [| exact IH].
  apply engineer_row_spec in Hx. tauto.
Qed.

(** A run that shows a dashboard passed the column check, read typed rows
    and engineered them. *)
Lemma run_views argsort rng df v :
  run argsort rng df = Views v ->
  missing_cols (normalize rng df) = [] /\
  exists raw rows,
    records_of (normalize rng df) = Some raw /\
    engineer raw = Some rows /\
    v = dashboard argsort rows.
Proof.
  unfold run, normalize.
  destruct (missing_cols (autofix rng (rename rename_map df))) as [|c l];
    [| discriminate].
  destruct (records_of _) as [raw|]; [| discriminate].
  destruct (engineer raw) as [rows|] eqn:E; [| discriminate].
  destruct (forallb _ rows); [| discriminate].
  intros H. injection H as <-. split; [reflexivity |].
  exists raw, rows. repeat split. exact E.
Qed.

(** A dashboard is shown only when every marker size passed line 104. *)
Lemma run_views_sizes argsort rng df v :
  run argsort rng df = Views v ->
  Forall (fun x => size_ok (ROAS x) = true) (frame v).
Proof.
  unfold run.
  destruct (missing_cols _) as [|c l]; [| discriminate].
  destruct (records_of _) as [raw|]; [| discriminate].
  destruct (engineer raw) as [rows|]; [| discriminate].
  destruct (forallb _ rows) eqn:F; [| discriminate].
  intros H. injection H as <-. simpl.
  apply Forall_forall. intros x Hx.
  rewrite forallb_forall in F. now apply F.
Qed.

(** The handler of line 158 is reached from line 104 exactly when the
    typed frame has a row whose ROAS plotly refuses. *)
Lemma run_unexpected argsort rng df s r a :
  run argsort rng df = UnexpectedError s r a <->
  missing_cols (normalize rng df) = [] /\
  exists raw rows,
    records_of (normalize rng df) = Some raw /\
    engineer raw = Some rows /\
    forallb (fun x => size_ok (ROAS x)) rows = false /\
    s = total_spend_of rows /\ r = total_rev_of rows /\
    a = total_roas_of rows.
Proof.
  unfold run, normalize.
  destruct (missing_cols (autofix rng (rename rename_map df))) as [|c l].
  - destruct (records_of _) as [raw|].
    + destruct (engineer raw) as [rows|] eqn:E.
      * destruct (forallb _ rows) eqn:F.
        -- split; [discriminate |].
           intros [_ [raw' [rows' [H1 [H2 [H3 _]]]]]]. injection H1 as <-.
           rewrite E in H2. injection H2 as <-. congruence.
        -- split.
           ++ intros H. injection H as <- <- <-. split; [reflexivity |].
              exists raw, rows. repeat split; assumption.
           ++ intros [_ [raw' [rows' [H1 [H2 [_ [-> [-> ->]]]]]]]].
              injection H1 as <-. rewrite E in H2. now injection H2 as <-.
      * split; [discriminate |].
        intros [_ [raw' [rows' [H1 [H2 _]]]]]. injection H1 as <-. congruence.
    + split; [discriminate |].
      intros [_ [raw' [rows' [H1 _]]]]. discriminate.
  - split; [discriminate | intros [H _]; discriminate].
Qed.

(** ** The leaderboard before sorting (line 145) *)

Lemma sorted_keys_NoDup {K A : Type} (cmp : K -> K -> comparison)
  (gs : list (K * list A)) :
  (forall k, cmp k k <> Lt) ->
  StronglySorted (key_lt cmp) gs -> NoDup (map fst gs).
Proof.
  intros Hirr. induction 1 as [|[k g] gs Hs IH Hall]; simpl; constructor.
  - intros Hin. apply in_map_iff in Hin. destruct Hin as [[k' g'] [E Hin]].
    simpl in E. subst k'. rewrite Forall_forall in Hall.
    apply (Hirr k). apply (Hall _ Hin).
  - exact IH.
Qed.

Lemma string_compare_irrefl k : String.compare k k <> Lt.
Proof.
  assert (E : String.compare k k = Eq) by now apply string_compare_eq.
  congruence.
Qed.

(** The campaigns of the grouped table are those of the frame, each
    once, and each row of the table is computed from the rows of its
    campaign. *)
Lemma ranking_grouped_spec (rows : list Row) :
  (forall c, In c (map r_Campaign (ranking_grouped rows)) <->
             In c (map Campaign rows)) /\
  NoDup (map r_Campaign (ranking_grouped rows)) /\
  (forall r, In r (ranking_grouped rows) ->
     let g := filter (fun x => String.eqb (Campaign x) (r_Campaign r)) rows in
     g <> [] /\
     r_Spend r = mean (map (fun x => Fin (Spend x)) g) /\
     r_Revenue r = mean (map (fun x => Fin (Revenue x)) g) /\
     r_ROAS r = mean (map ROAS g)).
Proof.
  pose proof (groupby_spec String.compare Campaign string_compare_eq
                String.compare_antisym string_compare_trans rows) as Hspec.
  assert (Hfil : forall k,
             filter (fun x => same_key String.compare (Campaign x) k) rows =
             filter (fun x => String.eqb (Campaign x) k) rows).
  { intros k. apply filter_ext. intros x. apply same_key_string. }
  split; [| split].
  - intros c. unfold ranking_grouped. rewrite map_map. simpl.
    split.
    + intros H. apply in_map_iff in H. destruct H as [[k g] [E H]].
      simpl in E. subst k. apply Hspec in H. destruct H as [-> Hne].
      rewrite Hfil in Hne.
      destruct (filter (fun x => String.eqb (Campaign x) c) rows) as [|x l] eqn:F;
        [congruence |].
      assert (Hx : In x (filter (fun x => String.eqb (Campaign x) c) rows))
        by (rewrite F; now left).
      apply filter_In in Hx. destruct Hx as [Hx E]. apply String.eqb_eq in E.
      subst c. now apply in_map.
    + intros H. apply in_map_iff in H. destruct H as [x [E Hx]]. subst c.
      apply in_map_iff.
      exists (Campaign x,
              filter (fun y => same_key String.compare (Campaign y) (Campaign x)) rows).
      split; [reflexivity |]. apply Hspec. split; [reflexivity |].
      rewrite Hfil. intros F.
      assert (Hin : In x (filter (fun y => String.eqb (Campaign y) (Campaign x)) rows)).
      { apply filter_In. split; [exact Hx | apply String.eqb_refl]. }
      rewrite F in Hin. contradiction.
  - unfold ranking_grouped. rewrite map_map. simpl.
    apply (sorted_keys_NoDup String.compare).
    + apply string_compare_irrefl.
    + apply (groupby_sorted String.compare Campaign
               String.compare_antisym string_compare_trans).
  - intros r Hr. unfold ranking_grouped in Hr. apply in_map_iff in Hr.
    destruct Hr as [[k g] [E H]]. subst r. simpl.
    apply Hspec in H. destruct H as [-> Hne]. rewrite Hfil in *.
    repeat split. exact Hne.
Qed.

Lemma mean_ROAS_finite (g : list Row) :
  g <> [] ->
  Forall (fun x => ~ Spend x == 0) g ->
  mean (map (fun x => fdiv (Revenue x) (Spend x)) g) =
  Fin (Qsum (map (fun x => Revenue x / Spend x) g)
       / inject_Z (Z.of_nat (length g))).
Proof.
  intros Hne Hall.
  assert (E : map (fun x => fdiv (Revenue x) (Spend x)) g =
              map Fin (map (fun x => Revenue x / Spend x) g)).
  { rewrite map_map. apply map_ext_in. intros x Hx.
    rewrite Forall_forall in Hall. apply fdiv_nonzero, Hall, Hx. }
  rewrite E, mean_Fin.
  - now rewrite length_map.
  - destruct g; [congruence | discriminate].
Qed.

(** C2. In every run that shows a dashboard, the table of line 145 has
    one row per campaign of the frame; its Spend and Revenue are the
    arithmetic means of the Spend and Revenue of that campaign's rows, and
    its ROAS is the mean of those rows' own ROAS = Revenue / Spend (not a
    ratio of sums); the leaderboard is that table, sorted.  On the rows
    (A,100,300), (B,200,200), (A,50,100) the mean ROAS of A is 2.5 and
    that of B is 1; the ratio of the sums of A, 400/150, is another
    number. *)
Theorem leaderboard_means
  (argsort : list fnum -> list nat) (rng : nat -> nat) :
  (forall df v, run argsort rng df = Views v ->
     let table := ranking_grouped (frame v) in
     ranking v = sort_values_desc argsort r_ROAS table /\
     (forall c, In c (map r_Campaign table) <-> In c (map Campaign (frame v))) /\
     NoDup (map r_Campaign table) /\
     (forall r, In r table ->
        let g := filter (fun x => String.eqb (Campaign x) (r_Campaign r))
                        (frame v) in
        let n := inject_Z (Z.of_nat (length g)) in
        g <> [] /\
        r_Spend r = Fin (Qsum (map Spend g) / n) /\
        r_Revenue r = Fin (Qsum (map Revenue g) / n) /\
        r_ROAS r = mean (map (fun x => fdiv (Revenue x) (Spend x)) g) /\
        (Forall (fun x => ~ Spend x == 0) g ->
         r_ROAS r = Fin (Qsum (map (fun x => Revenue x / Spend x) g) / n)))) /\
  (exists v, run argsort rng leaderboard_upload = Views v /\
     Forall2 (fun r e => r_Campaign r = fst e /\ feq (r_ROAS r) (Fin (snd e)))
             (ranking_grouped (frame v)) [("A", 5 # 2); ("B", 1)] /\
     ~ feq (Fin (5 # 2)) (fdiv (300 + 100) (100 + 50))).
Proof.
  split.
  - intros df v Hrun table.
    apply run_views in Hrun. destruct Hrun as [_ [raw [rows [_ [Heng ->]]]]].
    simpl in table. subst table.
    destruct (ranking_grouped_spec rows) as [Hkeys [Hnd Hrows]].
    split; [reflexivity | split; [exact Hkeys | split; [exact Hnd |]]].
    intros r Hr. simpl.
    destruct (Hrows r Hr) as [Hne [Hs [Hv Hroas]]].
    set (g := filter (fun x => String.eqb (Campaign x) (r_Campaign r)) rows) in *.
    assert (Hg : Forall (fun x => ROAS x = fdiv (Revenue x) (Spend x)) g).
    { apply Forall_forall. intros x Hx. apply filter_In in Hx.
      pose proof (engineer_derived raw rows Heng) as Hd.
      rewrite Forall_forall in Hd. apply Hd, Hx. }
    assert (Hmap : map ROAS g = map (fun x => fdiv (Revenue x) (Spend x)) g).
    { apply map_ext_in. intros x Hx. rewrite Forall_forall in Hg. now apply Hg. }
    assert (Hlen : forall f : Row -> Q, map f g <> []).
    { intros f. destruct g; [congruence | discriminate]. }
    split; [exact Hne |]. split; [| split; [| split]].
    + rewrite Hs, <- (map_map Spend Fin), mean_Fin by apply Hlen.
      now rewrite length_map.
    + rewrite Hv, <- (map_map Revenue Fin), mean_Fin by apply Hlen.
      now rewrite length_map.
    + now rewrite Hroas, Hmap.
    + intros Hall. rewrite Hroas, Hmap. now apply mean_ROAS_finite.
  - eexists. split; [reflexivity |]. split.
    + repeat constructor.
    + intros H. vm_compute in H. discriminate H.
Qed.

(** ** Typed rows and the columns they come from *)

Lemma zip_rows_columns n : forall cs ds ss rs aus,
  length cs = n -> length ds = n -> length ss = n -> length rs = n ->
  length aus = n ->
  map raw_Campaign (zip_rows cs ds ss rs aus) = cs /\
  map raw_Date (zip_rows cs ds ss rs aus) = ds /\
  map raw_Spend (zip_rows cs ds ss rs aus) = ss /\
  map raw_Revenue (zip_rows cs ds ss rs aus) = rs /\
  map raw_Audience (zip_rows cs ds ss rs aus) = aus.
Proof.
  induction n as [|n IH]; intros cs ds ss rs aus H1 H2 H3 H4 H5.
  - destruct cs, ds, ss, rs, aus; try discriminate. repeat split.
  - destruct cs as [|c cs], ds as [|d ds], ss as [|s ss], rs as [|r rs],
      aus as [|a aus]; try discriminate.
    injection H1 as H1. injection H2 as H2. injection H3 as H3.
    injection H4 as H4. injection H5 as H5.
    destruct (IH cs ds ss rs aus H1 H2 H3 H4 H5) as [E1 [E2 [E3 [E4 E5]]]].
    simpl. now rewrite E1, E2, E3, E4, E5.
Qed.

(** The typed rows carry the cells of the five columns, row by row. *)
Lemma records_of_columns df raw :
  records_of df = Some raw ->
  exists c d s r a,
    column "Campaign" df = Some c /\ texts c = Some (map raw_Campaign raw) /\
    column "Date" df = Some d /\ texts d = Some (map raw_Date raw) /\
    column "Spend" df = Some s /\ numbers s = Some (map raw_Spend raw) /\
    column "Revenue" df = Some r /\ numbers r = Some (map raw_Revenue raw) /\
    column "Audience" df = Some a /\ texts a = Some (map raw_Audience raw).
Proof.
  unfold records_of.
  destruct (column "Campaign" df) as [c|]; [| discriminate].
  destruct (column "Date" df) as [d|]; [| discriminate].
  destruct (column "Spend" df) as [s|]; [| discriminate].
  destruct (column "Revenue" df) as [r|]; [| discriminate].
  destruct (column "Audience" df) as [a|]; [| discriminate].
  destruct (texts c) as [cs|] eqn:Tc; [| discriminate].
  destruct (texts d) as [ds|] eqn:Td; [| discriminate].
  destruct (numbers s) as [ss|] eqn:Ts; [| discriminate].
  destruct (numbers r) as [rs|] eqn:Tr; [| discriminate].
  destruct (texts a) as [aus|] eqn:Ta; [| discriminate].
  destruct (forallb _ _) eqn:L; [| discriminate].
  intros H. injection H as <-.
  simpl in L. repeat rewrite andb_true_iff in L.
  destruct L as [L1 [L2 [L3 [L4 [L5 _]]]]].
  apply Nat.eqb_eq in L1, L2, L3, L4, L5.
  destruct (zip_rows_columns (nrows df) cs ds ss rs aus)
    as [E1 [E2 [E3 [E4 E5]]]]; try congruence.
  exists c, d, s, r, a. rewrite E1, E2, E3, E4, E5. repeat split; assumption.
Qed.

Lemma engineer_columns raw rows :
  engineer raw = Some rows ->
  map Campaign rows = map raw_Campaign raw /\
  map Spend rows = map raw_Spend raw /\
  map Revenue rows = map raw_Revenue raw /\
  map Audience rows = map raw_Audience raw /\
  map (fun x => Some (Date x)) rows =
    map (fun r => to_datetime_dayfirst (raw_Date r)) raw.
Proof.
  intros H. apply engineer_Forall2 in H.
  induction H as [|r x raw rows Hx _ IH]; simpl; [repeat split |].
  apply engineer_row_spec in Hx.
  destruct Hx as [Hd [Hc [Hs [Hr [Ha _]]]]].
  destruct IH as [E1 [E2 [E3 [E4 E5]]]].
  now rewrite E1, E2, E3, E4, E5, Hd, Hc, Hs, Hr, Ha.
Qed.

(** ** KPIs (lines 84-86) *)

(** *** In exact arithmetic *)

Lemma total_roas_of_cases (rows : list Row) :
  (0 < total_spend_of rows ->
   total_roas_of rows = Fin (total_rev_of rows / total_spend_of rows)) /\
  (total_spend_of rows <= 0 -> total_roas_of rows = Fin 0).
Proof.
  unfold total_roas_of, Qgt_bool. split; intros H.
  - destruct (Qle_bool (total_spend_of rows) 0) eqn:E.
    + apply Qle_bool_iff in E. exfalso. apply (Qlt_not_le _ _ H E).
    + simpl. apply fdiv_nonzero. intros E0. rewrite E0 in H.
      now apply Qlt_irrefl in H.
  - apply Qle_bool_iff in H. now rewrite H.
Qed.

(** *** In int64 and float64 *)

Section Rounding.

Import SpecFloat Binary64.

Local Open Scope Z_scope.

Lemma iter_pos_invariant {A : Type} (f : A -> A) (P : A -> Prop) :
  (forall x, P x -> P (f x)) ->
  forall n x, P x -> P (iter_pos f n x).
Proof.
  intros Hf. induction n as [n IH | n IH |]; intros x Hx; simpl.
  - apply IH, IH, Hf, Hx.
  - apply IH, IH, Hx.
  - apply Hf, Hx.
Qed.

Lemma shr_1_nonneg mrs : 0 <= shr_m mrs -> 0 <= shr_m (shr_1 mrs).
Proof.
  destruct mrs as [m r s]. simpl.
  destruct m as [|[p|p|]|[p|p|]]; simpl; lia.
Qed.

Lemma shr_nonneg mrs e n :
  0 <= shr_m mrs -> 0 <= shr_m (fst (shr mrs e n)).
Proof.
  intros H. unfold shr. destruct n as [|p|p]; simpl; try exact H.
  now apply (iter_pos_invariant shr_1 (fun x => 0 <= shr_m x) shr_1_nonneg).
Qed.

Lemma shr_fexp_nonneg m e l :
  0 <= m -> 0 <= shr_m (fst (shr_fexp prec emax m e l)).
Proof.
  intros H. unfold shr_fexp. apply shr_nonneg.
  destruct l as [|[| |]]; exact H.
Qed.

Lemma round_nearest_even_nonneg m l :
  0 <= m -> 0 <= round_nearest_even m l.
Proof.
  intros H. unfold round_nearest_even.
  destruct l as [|[| |]]; try destruct (Z.even m); lia.
Qed.

(** Rounding a mantissa that is not negative gives a number, a zero or
    an infinity, never NaN. *)
Lemma binary_round_aux_not_nan s m e l :
  0 <= m -> is_nan (binary_round_aux prec emax s m e l) = false.
Proof.
  intros H. unfold binary_round_aux.
  pose proof (shr_fexp_nonneg m e l H) as H1.
  destruct (shr_fexp prec emax m e l) as [mrs' e'].
  simpl in H1.
  pose proof (shr_fexp_nonneg
                (round_nearest_even (shr_m mrs') (loc_of_shr_record mrs'))
                e' loc_Exact
                (round_nearest_even_nonneg _ _ H1)) as H2.
  destruct (shr_fexp prec emax _ e' loc_Exact) as [mrs'' e''].
  simpl in H2.
  destruct (shr_m mrs'') as [|p|p]; [reflexivity | | lia].
  now destruct (e'' <=? emax - prec).
Qed.

Lemma div_core_nonneg mx ex my ey :
  0 <= fst (fst (SFdiv_core_binary prec emax (Zpos mx) ex (Zpos my) ey)).
Proof.
  unfold SFdiv_core_binary.
  set (s := _ - _ - Z.min _ _).
  set (m' := match s with
             | 0 => Z.pos mx | Z.pos _ => Z.shiftl (Z.pos mx) s | Z.neg _ => 0
             end).
  assert (Hm : 0 <= m').
  { unfold m'. destruct s; try lia. apply Z.shiftl_nonneg. lia. }
  pose proof (Z_div_mod m' (Z.pos my) eq_refl) as Hd.
  destruct (Z.div_eucl m' (Z.pos my)) as [q r]. simpl. nia.
Qed.

(** The quotient of two numbers is never NaN. *)
Lemma div_numbers_not_nan sx mx ex sy my ey :
  is_nan (div (S754_finite sx mx ex) (S754_finite sy my ey)) = false.
Proof.
  unfold div, SFdiv.
  pose proof (div_core_nonneg mx ex my ey) as H.
  destruct (SFdiv_core_binary prec emax (Zpos mx) ex (Zpos my) ey)
    as [[mz ez] lz].
  simpl in H. now apply binary_round_aux_not_nan.
Qed.

(** What is greater than zero: a positive number or plus infinity. *)
Lemma ltb_zero x :
  ltb zero x = true <->
  x = inf \/ exists m e, x = S754_finite false m e.
Proof.
  unfold ltb, SFltb, zero, inf. destruct x as [s | s | | s m e]; simpl.
  - split; [discriminate | intros [E | [m [e E]]]; discriminate E].
  - destruct s; simpl.
    + split; [discriminate | intros [E | [m [e E]]]; discriminate E].
    + split; [intros _; now left | reflexivity].
  - split; [discriminate | intros [E | [m [e E]]]; discriminate E].
  - destruct s; simpl.
    + split; [discriminate | intros [E | [m' [e' E]]]; discriminate E].
    + split; [intros _; right; now exists m, e | reflexivity].
Qed.

Lemma wrap64_range z : - 2 ^ 63 <= wrap64 z <= 2 ^ 63 - 1.
Proof.
  unfold wrap64. pose proof (Z.mod_pos_bound (z + 2 ^ 63) (2 ^ 64) eq_refl).
  lia.
Qed.

Lemma wrap64_small z : - 2 ^ 63 <= z <= 2 ^ 63 - 1 -> wrap64 z = z.
Proof.
  intros H. unfold wrap64. rewrite Z.mod_small; lia.
Qed.

Lemma wrap64_add a z : wrap64 (wrap64 a + z) = wrap64 (a + z).
Proof.
  unfold wrap64.
  replace ((a + 2 ^ 63) mod 2 ^ 64 - 2 ^ 63 + z + 2 ^ 63)
    with ((a + 2 ^ 63) mod 2 ^ 64 + z) by ring.
  replace (a + z + 2 ^ 63) with ((a + 2 ^ 63) + z) by ring.
  now rewrite Z.add_mod_idemp_l by lia.
Qed.

(** The int64 sum is the sum of the cells reduced to 64 bits. *)
Lemma int64_sum_wraps cells acc :
  fold_left (fun a z => wrap64 (a + z)) cells (wrap64 acc) =
  wrap64 (fold_left Z.add cells acc).
Proof.
  revert acc. induction cells as [|z cells IH]; intros acc; simpl.
  - reflexivity.
  - rewrite wrap64_add. apply IH.
Qed.

End Rounding.


(** The single row of [single_upload], Spend 100 and Revenue 200 in two
    int64 columns: the aggregate ROAS is the float 2. *)
Example aggregate_roas_single_row :
  Binary64.total_spend (Binary64.Int64 [100]%Z) = Binary64.I 100 /\
  Binary64.total_rev (Binary64.Int64 [200]%Z) = Binary64.I 200 /\
  Binary64.total_roas (Binary64.Int64 [100]%Z) (Binary64.Int64 [200]%Z)
    = Binary64.F (Binary64.of_Z 2).
Proof. vm_compute. repeat split. Qed.


(** *** The two arithmetics side by side *)

Lemma fold_add_from (zs : list Z) (acc : Z) :
  fold_left Z.add zs acc = (acc + fold_left Z.add zs 0)%Z.
Proof.
  revert acc. induction zs as [|z zs IH]; intros acc; simpl; [lia |].
  rewrite IH, (IH z). lia.
Qed.

Lemma Qsum_inject_Z (zs : list Z) :
  Qsum (map inject_Z zs) == inject_Z (fold_left Z.add zs 0%Z).
Proof.
  induction zs as [|z zs IH]; [reflexivity |].
  cbn [map fold_left]. rewrite Qsum_cons, IH, (fold_add_from zs (0 + z)).
  rewrite !inject_Z_plus. change (inject_Z 0) with 0. ring.
Qed.

(** On a frame whose Spend and Revenue cells are integers, with sums
    inside int64, the totals of the exact pipeline are the int64 totals,
    the guard of line 86 decides alike, and the aggregate ROAS is the
    float64 quotient of the two totals where the pipeline keeps the exact
    one. *)
Lemma int64_totals_agree (rows : list Row) (spend revenue : list Z) :
  map Spend rows = map inject_Z spend ->
  map Revenue rows = map inject_Z revenue ->
  (- 2 ^ 63 <= fold_left Z.add spend 0 <= 2 ^ 63 - 1)%Z ->
  (- 2 ^ 63 <= fold_left Z.add revenue 0 <= 2 ^ 63 - 1)%Z ->
  let s := fold_left Z.add spend 0%Z in
  let r := fold_left Z.add revenue 0%Z in
  Binary64.total_spend (Binary64.Int64 spend) = Binary64.I s /\
  Binary64.total_rev (Binary64.Int64 revenue) = Binary64.I r /\
  total_spend_of rows == inject_Z s /\
  total_rev_of rows == inject_Z r /\
  ((0 < s)%Z ->
   total_roas_of rows = Fin (total_rev_of rows / total_spend_of rows) /\
   Binary64.total_roas (Binary64.Int64 spend) (Binary64.Int64 revenue) =
     Binary64.F (Binary64.div (Binary64.of_Z r) (Binary64.of_Z s))) /\
  ((s <= 0)%Z ->
   total_roas_of rows = Fin 0 /\
   Binary64.total_roas (Binary64.Int64 spend) (Binary64.Int64 revenue) =
     Binary64.I 0).
Proof.
  intros Es Er Hs Hr s r.
  assert (Ts : Binary64.total_spend (Binary64.Int64 spend) = Binary64.I s).
  { unfold Binary64.total_spend, Binary64.sum. f_equal.
    change 0%Z with (Binary64.wrap64 0) at 1.
    rewrite int64_sum_wraps. now apply wrap64_small. }
  assert (Tr : Binary64.total_rev (Binary64.Int64 revenue) = Binary64.I r).
  { unfold Binary64.total_rev, Binary64.sum. f_equal.
    change 0%Z with (Binary64.wrap64 0) at 1.
    rewrite int64_sum_wraps. now apply wrap64_small. }
  assert (Qs : total_spend_of rows == inject_Z s).
  { unfold total_spend_of. rewrite Es. apply Qsum_inject_Z. }
  assert (Qr : total_rev_of rows == inject_Z r).
  { unfold total_rev_of. rewrite Er. apply Qsum_inject_Z. }
  split; [exact Ts | split; [exact Tr | split; [exact Qs | split; [exact Qr |]]]].
  unfold Binary64.total_roas. rewrite Ts, Tr. simpl Binary64.gt_zero.
  split.
  - intros Hp. split.
    + apply (proj1 (total_roas_of_cases rows)). rewrite Qs.
      change 0 with (inject_Z 0). now rewrite <- Zlt_Qlt.
    + apply Z.ltb_lt in Hp. now rewrite Hp.
  - intros Hn. split.
    + apply (proj2 (total_roas_of_cases rows)). rewrite Qs.
      change 0 with (inject_Z 0). now rewrite <- Zle_Qle.
    + apply Z.ltb_ge in Hn. now rewrite Hn.
Qed.

(** ** Dates (lines 79-80) *)

(** *** The weekday follows the calendar *)

Section CalendarFacts.

Local Open Scope Z_scope.

Lemma is_leap_spec y :
  is_leap y = true <-> (y mod 4 = 0 /\ y mod 100 <> 0) \/ y mod 400 = 0.
Proof.
  unfold is_leap.
  rewrite orb_true_iff, andb_true_iff, negb_true_iff, !Z.eqb_eq, Z.eqb_neq.
  reflexivity.
Qed.

Ltac decide_test t :=
  let v := eval vm_compute in t in
  match v with
  | true => change t with true
  | false => change t with false
  end.

Ltac decide_tests :=
  repeat (match goal with
          | |- context [?a <=? ?b] => decide_test (a <=? b)
          | |- context [?a <? ?b] => decide_test (a <? b)
          | |- context [?a =? ?b] => decide_test (a =? b)
          end;
          cbn [orb andb negb year month day]).

Ltac fold_month_terms :=
  repeat match goal with
         | |- context [(?a + 9) mod 12] =>
             let v := eval vm_compute in ((a + 9) mod 12) in
             change ((a + 9) mod 12) with v
         | |- context [(153 * ?c + 2) / 5] =>
             let v := eval vm_compute in ((153 * c + 2) / 5) in
             change ((153 * c + 2) / 5) with v
         end.

(** From a date of the calendar to the next, the day count grows by
    one: through the ends of months, of years and of Februaries. *)
Lemma days_from_civil_next d :
  valid_date d = true ->
  days_from_civil (next_day d) = days_from_civil d + 1.
Proof.
  destruct d as [y m dd]. unfold valid_date. cbn [year month day].
  rewrite !andb_true_iff, !Z.leb_le.
  intros [[[[[Hy1 Hy2] Hm1] Hm2] Hd1] Hd2].
  unfold next_day. cbn [year month day].
  destruct (Z.ltb_spec dd (days_in_month y m)) as [E | E].
  - unfold days_from_civil. cbn [year month day]. ring.
  - assert (Hdd : dd = days_in_month y m) by lia. clear E Hd2. subst dd.
    pose proof (is_leap_spec y) as Hleap.
    unfold days_from_civil, days_in_month in *. cbn [year month day].
    assert (Hm : m = 1 \/ m = 2 \/ m = 3 \/ m = 4 \/ m = 5 \/ m = 6 \/
                 m = 7 \/ m = 8 \/ m = 9 \/ m = 10 \/ m = 11 \/ m = 12)
      by lia.
    destruct (is_leap y) eqn:L.
    + assert (L1 : (y mod 4 = 0 /\ y mod 100 <> 0) \/ y mod 400 = 0)
        by now apply Hleap.
      clear Hleap L Hd1.
      repeat (destruct Hm as [-> | Hm]); try subst m;
        decide_tests; fold_month_terms; try lia;
        Z.div_mod_to_equations; lia.
    + assert (L1 : ~ ((y mod 4 = 0 /\ y mod 100 <> 0) \/ y mod 400 = 0)).
      { intros H. apply Hleap in H. discriminate. }
      clear Hleap L Hd1.
      repeat (destruct Hm as [-> | Hm]); try subst m;
        decide_tests; fold_month_terms; try lia;
        Z.div_mod_to_equations; lia.
Qed.

(** The weekday of the next date is the next weekday. *)
Lemma dayofweek_next d :
  valid_date d = true ->
  dayofweek (next_day d) = (dayofweek d + 1) mod 7.
Proof.
  intros H. unfold dayofweek. rewrite (days_from_civil_next d H).
  rewrite Z.add_mod_idemp_l by lia. f_equal. ring.
Qed.

(** The count starts on Thursday 1 January 1970. *)
Lemma epoch_is_Thursday :
  days_from_civil (mkDate 1970 1 1) = 0 /\
  day_name (mkDate 1970 1 1) = "Thursday"%string.
Proof. split; reflexivity. Qed.

End CalendarFacts.

Lemma split_at_spec sep s a r :
  split_at sep s = (a, Some r) -> s = String.append a (String sep r).
Proof.
  revert a. induction s as [|c s IH]; intros a; simpl; [discriminate |].
  destruct (Ascii.eqb c sep) eqn:E.
  - apply Ascii.eqb_eq in E. subst c. intros H. now injection H as <- <-.
  - destruct (split_at sep s) as [a' r'] eqn:S. intros H.
    injection H as <- ->. simpl. f_equal. now apply IH.
Qed.

(** The reader is day-first: whatever it reads, the text is
    [day/month/year], and the date is a date of the calendar. *)
Lemma to_datetime_dayfirst_fields s dt :
  to_datetime_dayfirst s = Some dt ->
  exists a b c,
    s = String.append a (String "/" (String.append b (String "/" c))) /\
    number_of 0 a = Some (day dt) /\
    number_of 0 b = Some (month dt) /\
    number_of 0 c = Some (year dt) /\
    valid_date dt = true.
Proof.
  unfold to_datetime_dayfirst.
  destruct (split_at "/" s) as [a [s1|]] eqn:S1; [| discriminate].
  destruct (split_at "/" s1) as [b [c|]] eqn:S2; [| discriminate].
  destruct (field 1 2 a) as [d|] eqn:Fa; [| discriminate].
  destruct (field 1 2 b) as [m|] eqn:Fb; [| discriminate].
  destruct (field 4 4 c) as [y|] eqn:Fc; [| discriminate].
  destruct (valid_date _) eqn:V; [| discriminate].
  intros H. injection H as <-.
  apply split_at_spec in S1, S2. subst s s1.
  unfold field in Fa, Fb, Fc.
  destruct (_ && _) in Fa; [| discriminate].
  destruct (_ && _) in Fb; [| discriminate].
  destruct (_ && _) in Fc; [| discriminate].
  exists a, b, c. simpl. repeat split; assumption.
Qed.

Lemma day_name_English d : In (day_name d) DAYS_FULL.
Proof.
  unfold day_name. apply nth_In. unfold dayofweek.
  pose proof (Z.mod_pos_bound (days_from_civil d + 3) 7 eq_refl) as H.
  simpl. lia.
Qed.

Lemma texts_Some s xs : texts s = Some xs -> s = map Text xs.
Proof.
  revert xs. induction s as [|[t|q|] s IH]; simpl; intros xs H.
  - now injection H as <-.
  - destruct (texts s) as [ys|]; [| discriminate].
    injection H as <-. simpl. f_equal. now apply IH.
  - discriminate.
  - discriminate.
Qed.

Lemma In_engineer raw rows x :
  engineer raw = Some rows -> In x rows ->
  exists r, In r raw /\ engineer_row r = Some x.
Proof.
  intros H. apply engineer_Forall2 in H.
  induction H as [|r y raw rows Hy _ IH]; simpl; [tauto |].
  intros [<- | Hin].
  - exists r. split; [now left | exact Hy].
  - destruct (IH Hin) as [r' [Hr' E]]. exists r'. split; [now right | exact E].
Qed.
(** ** Reading [dd/mm/yyyy] *)

Section ReadingDates.

Local Open Scope Z_scope.

Lemma digit_char_spec k :
  0 <= k <= 9 ->
  digit_of (digit_char k) = Some k /\
  Ascii.eqb (digit_char k) "/" = false.
Proof.
  intros H.
  assert (E : k = 0 \/ k = 1 \/ k = 2 \/ k = 3 \/ k = 4 \/ k = 5 \/
              k = 6 \/ k = 7 \/ k = 8 \/ k = 9) by lia.
  repeat (destruct E as [-> | E]); try subst k; split; reflexivity.
Qed.

Lemma split_at_two_digits n rest :
  0 <= n < 100 ->
  split_at "/" (two_digits n (String "/" rest)) =
    (two_digits n EmptyString, Some rest).
Proof.
  intros H. unfold two_digits. simpl.
  destruct (digit_char_spec (n / 10)) as [_ ->];
    [Z.div_mod_to_equations; lia |].
  destruct (digit_char_spec (n mod 10)) as [_ ->];
    [Z.div_mod_to_equations; lia |].
  reflexivity.
Qed.

Lemma number_of_two_digits acc n rest :
  0 <= n < 100 ->
  number_of acc (two_digits n rest) = number_of (100 * acc + n) rest.
Proof.
  intros H. unfold two_digits. cbn [number_of].
  destruct (digit_char_spec (n / 10)) as [-> _];
    [Z.div_mod_to_equations; lia |].
  destruct (digit_char_spec (n mod 10)) as [-> _];
    [Z.div_mod_to_equations; lia |].
  f_equal. Z.div_mod_to_equations. lia.
Qed.

Lemma field_two_digits n :
  0 <= n < 100 -> field 1 2 (two_digits n EmptyString) = Some n.
Proof.
  intros H. unfold field.
  change (String.length (two_digits n EmptyString)) with 2%nat.
  cbn [Nat.leb andb]. rewrite number_of_two_digits by exact H.
  cbn [number_of]. apply (f_equal Some). lia.
Qed.

Lemma field_four_digits n :
  0 <= n < 10000 -> field 4 4 (four_digits n EmptyString) = Some n.
Proof.
  intros H. unfold field.
  change (String.length (four_digits n EmptyString)) with 4%nat.
  cbn [Nat.leb andb]. unfold four_digits.
  rewrite !number_of_two_digits by (Z.div_mod_to_equations; lia).
  cbn [number_of]. apply (f_equal Some). Z.div_mod_to_equations. lia.
Qed.

(** The reader is day-first on every date of the calendar: the first
    field of [dd/mm/yyyy] is the day, whether or not it could be a
    month. *)
Lemma to_datetime_dayfirst_dmy d m y :
  valid_date (mkDate y m d) = true ->
  to_datetime_dayfirst (dmy_text d m y) = Some (mkDate y m d).
Proof.
  intros Hv. pose proof Hv as Hb. unfold valid_date in Hb.
  cbn [year month day] in Hb.
  rewrite !andb_true_iff, !Z.leb_le in Hb.
  destruct Hb as [[[[[Hy1 Hy2] Hm1] Hm2] Hd1] Hd2].
  assert (Hd3 : days_in_month y m <= 31).
  { unfold days_in_month.
    destruct (m =? 2); [destruct (is_leap y); lia |].
    destruct ((m =? 4) || (m =? 6) || (m =? 9) || (m =? 11)); lia. }
  unfold to_datetime_dayfirst, dmy_text.
  rewrite split_at_two_digits by lia.
  rewrite split_at_two_digits by lia.
  rewrite !field_two_digits by lia.
  rewrite field_four_digits by lia.
  now rewrite Hv.
Qed.

(** The name of the day after a date is the name after the name of the
    date. *)
Lemma day_name_next d :
  valid_date d = true -> In (day_name d, day_name (next_day d)) day_after.
Proof.
  intros Hv. unfold day_name. rewrite (dayofweek_next d Hv).
  pose proof (Z.mod_pos_bound (days_from_civil d + 3) 7 eq_refl) as H.
  unfold dayofweek.
  remember ((days_from_civil d + 3) mod 7) as w eqn:Ew. clear Ew.
  assert (E : w = 0 \/ w = 1 \/ w = 2 \/ w = 3 \/ w = 4 \/ w = 5 \/ w = 6)
    by lia.
  repeat (destruct E as [-> | E]); try subst w; simpl; tauto.
Qed.

End ReadingDates.


(** ** The heatmap table (lines 129-139) *)

Lemma same_key_pair a b :
  same_key pair_compare a b =
  String.eqb (fst a) (fst b) && String.eqb (snd a) (snd b).
Proof.
  destruct (same_key pair_compare a b) eqn:E.
  - apply (same_key_true pair_compare pair_compare_eq) in E. subst b.
    now rewrite !String.eqb_refl.
  - destruct (String.eqb (fst a) (fst b)) eqn:E1; [| reflexivity].
    destruct (String.eqb (snd a) (snd b)) eqn:E2; [| reflexivity].
    apply String.eqb_eq in E1, E2.
    assert (Eab : a = b) by (destruct a, b; simpl in *; congruence).
    apply (same_key_true pair_compare pair_compare_eq) in Eab. congruence.
Qed.

Lemma StronglySorted_map {A B : Type} (f : A -> B) (R : B -> B -> Prop) l :
  StronglySorted (fun x y => R (f x) (f y)) l -> StronglySorted R (map f l).
Proof.
  induction 1 as [|a l Hs IH Hall]; simpl; constructor; [exact IH |].
  apply Forall_map. exact Hall.
Qed.

(** The heatmap table has one row per (Day, Campaign) pair of the frame,
    with the summed Revenue of the rows of that pair, in ascending order
    of the pair. *)
Lemma heat_data_spec (rows : list Row) :
  (forall d c,
     (exists h, In h (heat_data_of rows) /\ h_Day h = d /\ h_Campaign h = c) <->
     (exists x, In x rows /\ Day x = d /\ Campaign x = c)) /\
  (forall h, In h (heat_data_of rows) ->
     let g := filter (fun x => String.eqb (Day x) (h_Day h) &&
                               String.eqb (Campaign x) (h_Campaign h)) rows in
     g <> [] /\ h_Revenue h = Qsum (map Revenue g)) /\
  StronglySorted heat_lt (heat_data_of rows).
Proof.
  set (key := fun r : Row => (Day r, Campaign r)).
  pose proof (groupby_spec pair_compare key pair_compare_eq
                pair_compare_antisym pair_compare_trans rows) as Hspec.
  assert (Hfil : forall d c,
             filter (fun x => same_key pair_compare (key x) (d, c)) rows =
             filter (fun x => String.eqb (Day x) d &&
                              String.eqb (Campaign x) c) rows).
  { intros d c. apply filter_ext. intros x. apply same_key_pair. }
  split; [| split].
  - intros d c. split.
    + intros [h [Hh [<- <-]]]. unfold heat_data_of in Hh.
      apply in_map_iff in Hh. destruct Hh as [[[d c] g] [<- Hg]]. simpl.
      apply Hspec in Hg. destruct Hg as [-> Hne]. rewrite Hfil in Hne.
      destruct (filter _ rows) as [|x l] eqn:F; [congruence |].
      assert (Hx : In x (x :: l)) by now left.
      rewrite <- F in Hx. apply filter_In in Hx. destruct Hx as [Hx E].
      apply andb_true_iff in E. destruct E as [E1 E2].
      apply String.eqb_eq in E1, E2. now exists x.
    + intros [x [Hx [<- <-]]].
      set (g := filter (fun y => same_key pair_compare (key y) (key x)) rows).
      exists (mkHeatRow (Day x) (Campaign x) (Qsum (map Revenue g))).
      split; [| split; reflexivity].
      unfold heat_data_of. apply in_map_iff. exists (key x, g).
      split; [reflexivity |]. apply Hspec. split; [reflexivity |].
      intros F.
      assert (Hin : In x g).
      { apply filter_In. split; [exact Hx |].
        now apply (same_key_true pair_compare pair_compare_eq). }
      rewrite F in Hin. contradiction.
  - intros h Hh. unfold heat_data_of in Hh. apply in_map_iff in Hh.
    destruct Hh as [[[d c] g] [<- Hg]]. simpl.
    apply Hspec in Hg. destruct Hg as [-> Hne]. rewrite Hfil in *.
    split; [exact Hne | reflexivity].
  - unfold heat_data_of. apply StronglySorted_map.
    apply (groupby_sorted pair_compare key pair_compare_antisym
             pair_compare_trans).
Qed.

(** The table of line 129 is not in weekday order: on [heat_upload] its
    Day column reads Friday, Monday. *)
Lemma heat_data_not_weekday_ordered :
  exists v,
    run insertion_argsort (fun _ => 0%nat) heat_upload = Views v /\
    map Day (frame v) = ["Monday"; "Friday"] /\
    map h_Day (heat_data v) = ["Friday"; "Monday"] /\
    weekday_ordered (map h_Day (heat_data v)) = false.
Proof.
  eexists. split; [reflexivity |]. repeat split.
Qed.

(** C8 (amended). In every run that shows a dashboard, the heatmap table
    has one row per (Day, Campaign) pair of the frame with the summed
    Revenue of that pair; its rows are in ascending order of the Day label
    and then the Campaign label, as text; the weekday order Monday to
    Sunday is handed to the chart next to the table, as the same list of
    seven names for every input, and every Day of the table is one of
    them. *)
Theorem heatmap_table
  (argsort : list fnum -> list nat) (rng : nat -> nat) (df : DataFrame)
  (v : Dashboard) (Hrun : run argsort rng df = Views v) :
  (forall d c,
     (exists h, In h (heat_data v) /\ h_Day h = d /\ h_Campaign h = c) <->
     (exists x, In x (frame v) /\ Day x = d /\ Campaign x = c)) /\
  (forall h, In h (heat_data v) ->
     let g := filter (fun x => String.eqb (Day x) (h_Day h) &&
                               String.eqb (Campaign x) (h_Campaign h))
                     (frame v) in
     g <> [] /\ h_Revenue h = Qsum (map Revenue g)) /\
  StronglySorted heat_lt (heat_data v) /\
  category_orders_Day v =
    ["Monday"; "Tuesday"; "Wednesday"; "Thursday"; "Friday"; "Saturday";
     "Sunday"] /\
  Forall (fun h => In (h_Day h) (category_orders_Day v)) (heat_data v).
Proof.
  apply run_views in Hrun. destruct Hrun as [_ [raw [rows [_ [Heng ->]]]]].
  simpl. destruct (heat_data_spec rows) as [H1 [H2 H3]].
  split; [exact H1 | split; [exact H2 | split; [exact H3 | split]]].
  - reflexivity.
  - apply Forall_forall. intros h Hh.
    destruct (proj1 (H1 (h_Day h) (h_Campaign h))) as [x [Hx [Hd _]]].
    { now exists h. }
    apply engineer_derived in Heng. rewrite Forall_forall in Heng.
    destruct (Heng x Hx) as [_ E]. rewrite <- Hd, E.
    apply day_name_English.
Qed.

Lemma heatmap_table_witness :
  run insertion_argsort (fun _ => 0%nat) heat_upload
    = Views (dashboard insertion_argsort heat_rows) /\
  StronglySorted heat_lt (heat_data (dashboard insertion_argsort heat_rows)) /\
  category_orders_Day (dashboard insertion_argsort heat_rows) =
    ["Monday"; "Tuesday"; "Wednesday"; "Thursday"; "Friday"; "Saturday";
     "Sunday"].
Proof.
  split; [reflexivity |].
  pose proof (heatmap_table insertion_argsort (fun _ => 0%nat) heat_upload
                (dashboard insertion_argsort heat_rows) eq_refl) as H.
  split; [exact (proj1 (proj2 (proj2 H))) |
          exact (proj1 (proj2 (proj2 (proj2 H))))].
Defined.

(** ** Selecting and reordering rows *)

Section TakeSelect.

Local Open Scope nat_scope.

Lemma take_cons {A : Type} (xs : list A) i p :
  take xs (i :: p) =
  match nth_error xs i with Some x => [x] | None => [] end ++ take xs p.
Proof. reflexivity. Qed.

Lemma take_app {A : Type} (xs : list A) p q : take xs (p ++ q) = take xs p ++ take xs q.
Proof. unfold take. apply flat_map_app. Qed.

Lemma take_rev {A : Type} (xs : list A) p : take xs (rev p) = rev (take xs p).
Proof.
  induction p as [|i p IH]; [reflexivity |].
  simpl rev. rewrite take_app, IH, take_cons, rev_app_distr.
  simpl. rewrite app_nil_r. now destruct (nth_error xs i).
Qed.

Lemma take_in_range {A : Type} (d : A) (xs : list A) p :
  Forall (fun i => i < length xs) p ->
  take xs p = map (fun i => nth i xs d) p.
Proof.
  induction 1 as [|i p Hi _ IH]; [reflexivity |].
  rewrite take_cons, IH, (nth_error_nth' xs d Hi). reflexivity.
Qed.

Lemma Permutation_take {A : Type} (xs : list A) p q :
  Permutation p q -> Permutation (take xs p) (take xs q).
Proof.
  induction 1 as [| i p q _ IH | i j p | p q r _ IH1 _ IH2].
  - constructor.
  - repeat rewrite take_cons. now apply Permutation_app_head.
  - repeat rewrite take_cons. rewrite !app_assoc.
    apply Permutation_app_tail, Permutation_app_comm.
  - now transitivity (take xs q).
Qed.

Lemma take_shift {A : Type} (x : A) xs p : take (x :: xs) (map S p) = take xs p.
Proof.
  induction p as [|i p IH]; [reflexivity |].
  simpl map. repeat rewrite take_cons. rewrite IH. reflexivity.
Qed.

Lemma take_seq_all {A : Type} (xs : list A) : take xs (seq 0 (length xs)) = xs.
Proof.
  induction xs as [|x xs IH]; [reflexivity |].
  simpl length. simpl seq. rewrite take_cons, <- seq_shift, take_shift, IH.
  reflexivity.
Qed.

(** Reordering by a list of every position is a rearrangement. *)
Lemma take_Permutation {A : Type} (xs : list A) p :
  Permutation p (seq 0 (length xs)) -> Permutation (take xs p) xs.
Proof.
  intros H. rewrite <- (take_seq_all xs) at 2. now apply Permutation_take.
Qed.

Lemma select_cons {A : Type} b m (x : A) xs :
  select (b :: m) (x :: xs) = (if b then [x] else []) ++ select m xs.
Proof. unfold select. simpl. now destruct b. Qed.

Lemma select_length {A : Type} m (xs : list A) :
  length m = length xs ->
  length (select m xs) = length (filter (fun b : bool => b) m).
Proof.
  revert xs. induction m as [|b m IH]; intros [|x xs] H; try discriminate;
    [reflexivity |].
  injection H as H. rewrite select_cons, length_app, (IH xs H).
  now destruct b.
Qed.

Lemma select_split {A : Type} m (xs : list A) :
  length m = length xs ->
  Permutation (select (map negb m) xs ++ select m xs) xs.
Proof.
  revert xs. induction m as [|b m IH]; intros [|x xs] H; try discriminate;
    [constructor |].
  injection H as H. simpl map. repeat rewrite select_cons.
  destruct b; simpl.
  - symmetry. apply Permutation_cons_app. symmetry. now apply IH.
  - constructor. now apply IH.
Qed.

Lemma take_select {A : Type} m (xs : list A) :
  length m = length xs ->
  take xs (select m (seq 0 (length xs))) = select m xs.
Proof.
  revert m. induction xs as [|x xs IH]; intros [|b m] H; try discriminate;
    [reflexivity |].
  injection H as H. simpl length. simpl seq.
  repeat rewrite select_cons. rewrite take_app, <- seq_shift.
  assert (E : select m (map S (seq 0 (length xs))) =
              map S (select m (seq 0 (length xs)))).
  { unfold select. generalize (seq 0 (length xs)). clear.
    induction m as [|b m IH]; intros [|i l]; try reflexivity.
    simpl. destruct b; simpl; now rewrite IH. }
  rewrite E, take_shift, (IH m H). now destruct b.
Qed.

Lemma select_In {A : Type} m (xs : list A) x : In x (select m xs) -> In x xs.
Proof.
  revert xs. induction m as [|b m IH]; intros [|y xs]; try contradiction.
  rewrite select_cons. intros H. apply in_app_or in H. destruct H as [H | H].
  - destruct b; [| contradiction]. destruct H as [-> | []]. now left.
  - right. now apply IH.
Qed.

Lemma select_filter {A : Type} (f : A -> bool) (xs : list A) :
  select (map f xs) xs = filter f xs.
Proof.
  induction xs as [|x xs IH]; [reflexivity |].
  simpl map. rewrite select_cons, IH. simpl. now destruct (f x).
Qed.

Lemma take_map {A B : Type} (f : A -> B) (xs : list A) p :
  map f (take xs p) = take (map f xs) p.
Proof.
  induction p as [|i p IH]; [reflexivity |].
  repeat rewrite take_cons. rewrite map_app, IH, nth_error_map.
  now destruct (nth_error xs i).
Qed.

(** Reordering twice is reordering by the reordered positions. *)
Lemma take_take {A : Type} (xs : list A) idx p :
  Forall (fun i => i < length xs) idx ->
  take xs (take idx p) = take (take xs idx) p.
Proof.
  intros Hr. induction p as [|i p IH]; [reflexivity |].
  repeat rewrite take_cons. rewrite take_app, IH. f_equal.
  destruct (nth_error idx i) as [j|] eqn:E.
  - assert (Hj : j < length xs).
    { rewrite Forall_forall in Hr. apply Hr. eapply nth_error_In, E. }
    destruct (nth_error xs j) as [x|] eqn:Ex.
    2:{ apply nth_error_None in Ex. lia. }
    rewrite (take_in_range x xs idx Hr).
    rewrite nth_error_map, E. simpl. rewrite Ex. simpl.
    now rewrite (nth_error_nth xs j x Ex).
  - apply nth_error_None in E.
    assert (El : length (take xs idx) = length idx).
    { destruct xs as [|x xs].
      - destruct idx as [|j idx]; [reflexivity |].
        apply Forall_inv in Hr. simpl in Hr. lia.
      - rewrite (take_in_range x (x :: xs) idx Hr). apply length_map. }
    assert (E' : nth_error (take xs idx) i = None)
      by (apply nth_error_None; lia).
    now rewrite E'.
Qed.

End TakeSelect.

Lemma select_isna (items : list fnum) :
  Forall (fun x => isna x = true) (select (map isna items) items) /\
  Forall (fun x => notna x = true) (select (map negb (map isna items)) items).
Proof.
  induction items as [|x items [IH1 IH2]]; [split; constructor |].
  simpl map. repeat rewrite select_cons. unfold notna.
  destruct (isna x) eqn:E; simpl; split; try assumption;
    constructor; try assumption. now rewrite E.
Qed.

(** ** The order of values *)

Lemma fle_trans x y z : fle x y = true -> fle y z = true -> fle x z = true.
Proof.
  destruct x as [a| | |], y as [b| | |], z as [c| | |]; simpl;
    try discriminate; try reflexivity.
  rewrite !Qle_bool_iff. apply Qle_trans.
Qed.

Lemma fle_total x y :
  notna x = true -> notna y = true -> fle x y = false -> fle y x = true.
Proof.
  destruct x as [a| | |], y as [b| | |]; simpl;
    try discriminate; try reflexivity.
  intros _ _ H. apply Qle_bool_iff.
  destruct (Qlt_le_dec b a) as [L | L].
  - now apply Qlt_le_weak.
  - apply Qle_bool_iff in L. congruence.
Qed.

Lemma StronglySorted_snoc {A : Type} (R : A -> A -> Prop) l a :
  StronglySorted R l -> Forall (fun x => R x a) l ->
  StronglySorted R (l ++ [a]).
Proof.
  induction 1 as [|b l Hs IH Hall]; intros Ha; simpl.
  - repeat constructor.
  - constructor.
    + apply IH. now apply Forall_inv_tail in Ha.
    + apply Forall_app. split; [exact Hall |].
      constructor; [| constructor]. now apply Forall_inv in Ha.
Qed.

(** Read backwards, an ascending list is descending. *)
Lemma StronglySorted_rev {A : Type} (R : A -> A -> Prop) l :
  StronglySorted R l -> StronglySorted (fun x y => R y x) (rev l).
Proof.
  induction 1 as [|a l Hs IH Hall]; simpl; [constructor |].
  apply StronglySorted_snoc; [exact IH | now apply Forall_rev].
Qed.

Lemma StronglySorted_unmap {A B : Type} (f : A -> B) (R : B -> B -> Prop) l :
  StronglySorted R (map f l) -> StronglySorted (fun x y => R (f x) (f y)) l.
Proof.
  induction l as [|a l IH]; simpl; intros H; [constructor |].
  inversion H as [|? ? Hs Hall]; subst. constructor; [now apply IH |].
  apply (proj1 (Forall_map f (R (f a)) l)). exact Hall.
Qed.

(** ** sort_values under the contract of argsort *)

Section SortFacts.

Local Open Scope nat_scope.

Variable argsort : list fnum -> list nat.
Hypothesis argsort_ok : argsort_spec argsort.

(** The positions returned by [nargsort] list every row once; read in
    that order, the items are a descending run of numbers followed by
    the NaN items. *)
Lemma nargsort_desc_spec (items : list fnum) :
  Permutation (nargsort_desc argsort items) (seq 0 (length items)) /\
  exists indexer ascending,
    nargsort_desc argsort items =
      indexer ++ select (map isna items) (seq 0 (length items)) /\
    take items indexer = rev ascending /\
    Forall (fun x => notna x = true) ascending /\
    StronglySorted (fun x y => fle x y = true) ascending.
Proof.
  unfold nargsort_desc.
  set (idx := seq 0 (length items)).
  set (mask := map isna items).
  set (keep := map negb mask).
  set (non_nans := rev (select keep items)).
  set (non_nan_idx := rev (select keep idx)).
  set (P := argsort non_nans).
  assert (Lmask : length mask = length items) by apply length_map.
  assert (Lkeep : length keep = length items)
    by (unfold keep; now rewrite length_map).
  assert (Lidx : length idx = length items) by apply length_seq.
  destruct (select_isna items) as [Hnan Hnum].
  fold mask in Hnan, Hnum. fold keep in Hnum.
  assert (Hnn : forallb notna non_nans = true).
  { apply forallb_forall. intros x Hx. unfold non_nans in Hx.
    apply in_rev in Hx. rewrite Forall_forall in Hnum. now apply Hnum. }
  destruct (argsort_ok non_nans Hnn) as [Hperm Hsorted]. fold P in Hperm, Hsorted.
  assert (Llen : length non_nan_idx = length non_nans).
  { unfold non_nan_idx, non_nans. rewrite !length_rev.
    rewrite !select_length; congruence. }
  assert (Hrange : Forall (fun i => i < length items) non_nan_idx).
  { apply Forall_forall. intros i Hi. unfold non_nan_idx in Hi.
    apply in_rev, select_In in Hi. unfold idx in Hi. apply in_seq in Hi. lia. }
  assert (Hvals : take items non_nan_idx = non_nans).
  { unfold non_nan_idx, non_nans. rewrite take_rev. f_equal.
    unfold idx. now apply take_select. }
  split.
  - transitivity (select keep idx ++ select mask idx).
    + apply Permutation_app_tail.
      rewrite <- Permutation_rev.
      transitivity non_nan_idx.
      * apply take_Permutation. now rewrite Llen.
      * unfold non_nan_idx. symmetry. apply Permutation_rev.
    + unfold keep. apply select_split. congruence.
  - exists (rev (take non_nan_idx P)), (take non_nans P).
    split; [reflexivity |]. split; [| split].
    + rewrite take_rev, take_take, Hvals by exact Hrange. reflexivity.
    + apply Forall_forall. intros x Hx.
      assert (Hin : In x non_nans).
      { eapply Permutation_in; [| exact Hx]. now apply take_Permutation. }
      rewrite forallb_forall in Hnn. now apply Hnn.
    + apply Sorted_StronglySorted; [| exact Hsorted].
      intros x y z. apply fle_trans.
Qed.

(** [sort_values(by=col, ascending=False)] rearranges the rows so that
    the rows with a number in [col] come first, in descending order of
    it, and the rows with NaN come last, in the order they had. *)
Lemma sort_values_desc_spec {A : Type} (col : A -> fnum) (t : list A) :
  Permutation t (sort_values_desc argsort col t) /\
  exists front,
    sort_values_desc argsort col t =
      front ++ filter (fun r => isna (col r)) t /\
    Forall (fun r => notna (col r) = true) front /\
    StronglySorted (fun a b => fle (col b) (col a) = true) front.
Proof.
  unfold sort_values_desc.
  destruct (nargsort_desc_spec (map col t))
    as [Hperm [indexer [asc [E [Hfront [Hnum Hsort]]]]]].
  rewrite length_map in Hperm, E.
  split.
  - symmetry. now apply take_Permutation.
  - exists (take t indexer).
    rewrite E, take_app. split; [| split].
    + f_equal. rewrite take_select by (now rewrite !length_map).
      rewrite map_map. apply (select_filter (fun r => isna (col r))).
    + rewrite <- take_map in Hfront.
      apply (proj1 (Forall_map col (fun x => notna x = true) _)).
      rewrite Hfront. now apply Forall_rev.
    + rewrite <- take_map in Hfront.
      apply (StronglySorted_unmap col (fun x y => fle y x = true)).
      rewrite Hfront. now apply StronglySorted_rev.
Qed.

End SortFacts.

(** ** An argsort that meets the contract *)

Section InsertionArgsort.

Local Open Scope nat_scope.

Variable xs : list fnum.

Abbreviation value := (fun i : nat => nth i xs NaN).
Abbreviation le_at := (fun i j : nat => fle (value i) (value j) = true).

Lemma insert_index_Permutation i p :
  Permutation (insert_index xs i p) (i :: p).
Proof.
  induction p as [|j p IH]; simpl; [reflexivity |].
  destruct (fle (nth i xs NaN) (nth j xs NaN)); [reflexivity |].
  rewrite IH. apply perm_swap.
Qed.

Lemma insertion_fold_Permutation l acc :
  Permutation (fold_left (fun p i => insert_index xs i p) l acc) (l ++ acc).
Proof.
  revert acc. induction l as [|i l IH]; intros acc; simpl; [reflexivity |].
  rewrite IH, insert_index_Permutation. symmetry. apply Permutation_middle.
Qed.

Lemma insert_index_Sorted i p :
  notna (value i) = true ->
  Forall (fun j => notna (value j) = true) p ->
  Sorted le_at p -> Sorted le_at (insert_index xs i p).
Proof.
  intros Hi Hp Hs. induction Hs as [|j p Hs IH Hd]; simpl.
  - repeat constructor.
  - destruct (fle (nth i xs NaN) (nth j xs NaN)) eqn:E.
    + constructor; [now constructor | constructor; exact E].
    + pose proof (Forall_inv Hp) as Hj. apply Forall_inv_tail in Hp.
      constructor; [now apply IH |].
      destruct p as [|k p]; simpl.
      * constructor. now apply fle_total.
      * destruct (fle (nth i xs NaN) (nth k xs NaN)).
        -- constructor. now apply fle_total.
        -- constructor. now apply HdRel_inv in Hd.
Qed.

Lemma insertion_fold_Sorted l acc :
  Forall (fun j => notna (value j) = true) l ->
  Forall (fun j => notna (value j) = true) acc ->
  Sorted le_at acc ->
  Sorted le_at (fold_left (fun p i => insert_index xs i p) l acc).
Proof.
  revert acc. induction l as [|i l IH]; intros acc Hl Hacc Hs; simpl;
    [exact Hs |].
  pose proof (Forall_inv Hl) as Hi. apply Forall_inv_tail in Hl.
  apply IH; [exact Hl | | now apply insert_index_Sorted].
  apply Forall_forall. intros j Hj.
  apply (Permutation_in _ (insert_index_Permutation i acc)) in Hj.
  destruct Hj as [<- | Hj]; [exact Hi |].
  rewrite Forall_forall in Hacc. now apply Hacc.
Qed.

Lemma Sorted_map_value p :
  Sorted le_at p -> Sorted (fun x y => fle x y = true) (map value p).
Proof.
  induction 1 as [|j p Hs IH Hd]; simpl; constructor; [exact IH |].
  destruct Hd; simpl; constructor. assumption.
Qed.

Lemma insertion_argsort_ok :
  forallb notna xs = true ->
  Permutation (insertion_argsort xs) (seq 0 (length xs)) /\
  Sorted (fun x y => fle x y = true) (take xs (insertion_argsort xs)).
Proof.
  intros Hnn.
  assert (Hperm : Permutation (insertion_argsort xs) (seq 0 (length xs))).
  { unfold insertion_argsort. rewrite insertion_fold_Permutation.
    now rewrite app_nil_r. }
  split; [exact Hperm |].
  assert (Hrange : Forall (fun i => i < length xs) (insertion_argsort xs)).
  { apply Forall_forall. intros i Hi.
    apply (Permutation_in _ Hperm) in Hi. apply in_seq in Hi. lia. }
  rewrite (take_in_range NaN xs _ Hrange).
  apply Sorted_map_value. unfold insertion_argsort.
  apply insertion_fold_Sorted; [| constructor | constructor].
  apply Forall_forall. intros j Hj. apply in_seq in Hj.
  rewrite forallb_forall in Hnn. apply Hnn, nth_In. lia.
Qed.

End InsertionArgsort.

Lemma insertion_argsort_spec : argsort_spec insertion_argsort.
Proof. intros xs. apply insertion_argsort_ok. Qed.

(** ** sort_values under the contract of a stable argsort *)

Section StableFacts.

Local Open Scope nat_scope.

Lemma StronglySorted_seq a n : StronglySorted lt (seq a n).
Proof.
  revert a. induction n as [|n IH]; intros a; simpl; constructor.
  - apply IH.
  - apply Forall_forall. intros i Hi. apply in_seq in Hi. lia.
Qed.

Lemma select_StronglySorted {A : Type} (R : A -> A -> Prop) m xs :
  StronglySorted R xs -> StronglySorted R (select m xs).
Proof.
  intros H. revert m. induction H as [|x xs Hs IH Hall]; intros [|b m];
    try constructor.
  rewrite select_cons. destruct b; simpl; [| apply IH].
  constructor; [apply IH |].
  apply Forall_forall. intros y Hy. apply select_In in Hy.
  rewrite Forall_forall in Hall. now apply Hall.
Qed.

Lemma StronglySorted_nth {A : Type} (R : A -> A -> Prop) (d : A) l :
  StronglySorted R l ->
  forall i j, i < j -> j < length l -> R (nth i l d) (nth j l d).
Proof.
  induction 1 as [|x l Hs IH Hall]; intros i j Hij Hj; simpl in Hj; [lia |].
  destruct j as [|j]; [lia |]. destruct i as [|i]; simpl.
  - rewrite Forall_forall in Hall. apply Hall, nth_In. lia.
  - apply IH; lia.
Qed.

Lemma StronglySorted_map_impl {A B : Type} (R : A -> A -> Prop)
  (R' : B -> B -> Prop) (f : A -> B) (P : A -> Prop) l :
  (forall x y, P x -> P y -> R x y -> R' (f x) (f y)) ->
  Forall P l -> StronglySorted R l -> StronglySorted R' (map f l).
Proof.
  intros Himp HP Hs. induction Hs as [|x l Hs IH Hall]; simpl; constructor.
  - apply IH. now apply Forall_inv_tail in HP.
  - apply Forall_map. pose proof (Forall_inv HP) as Hx.
    apply Forall_inv_tail in HP. rewrite Forall_forall in *.
    intros y Hy. apply Himp; auto.
Qed.

Variable argsort : list fnum -> list nat.
Hypothesis argsort_stable : stable_argsort_spec argsort.

(** With a stable argsort, [nargsort] lists the positions of the numbers
    in descending order of the items, equal items by ascending position. *)
Lemma nargsort_desc_stable (items : list fnum) :
  exists indexer,
    nargsort_desc argsort items =
      indexer ++ select (map isna items) (seq 0 (length items)) /\
    Forall (fun i => i < length items) indexer /\
    StronglySorted
      (fun a b => fle (nth b items NaN) (nth a items NaN) = true /\
                  (fle (nth a items NaN) (nth b items NaN) = true -> a < b))
      indexer.
Proof.
  unfold nargsort_desc.
  set (idx := seq 0 (length items)).
  set (mask := map isna items).
  set (keep := map negb mask).
  set (non_nans := rev (select keep items)).
  set (non_nan_idx := rev (select keep idx)).
  set (P := argsort non_nans).
  assert (Lmask : length mask = length items) by apply length_map.
  assert (Lkeep : length keep = length items)
    by (unfold keep; now rewrite length_map).
  assert (Lidx : length idx = length items) by apply length_seq.
  destruct (select_isna items) as [_ Hnum].
  fold mask in Hnum. fold keep in Hnum.
  assert (Hnn : forallb notna non_nans = true).
  { apply forallb_forall. intros x Hx. unfold non_nans in Hx.
    apply in_rev in Hx. rewrite Forall_forall in Hnum. now apply Hnum. }
  destruct (argsort_stable non_nans Hnn) as [Hperm Hsorted].
  fold P in Hperm, Hsorted.
  assert (Llen : length non_nan_idx = length non_nans).
  { unfold non_nan_idx, non_nans. rewrite !length_rev.
    rewrite !select_length; congruence. }
  assert (Hrange : Forall (fun i => i < length items) non_nan_idx).
  { apply Forall_forall. intros i Hi. unfold non_nan_idx in Hi.
    apply in_rev, select_In in Hi. unfold idx in Hi. apply in_seq in Hi. lia. }
  assert (Hvals : non_nans = map (fun i => nth i items NaN) non_nan_idx).
  { rewrite <- (take_in_range NaN items non_nan_idx Hrange).
    unfold non_nan_idx, non_nans. rewrite take_rev. f_equal.
    unfold idx. symmetry. now apply take_select. }
  assert (Hdec : StronglySorted (fun x y => y < x) non_nan_idx).
  { unfold non_nan_idx. apply StronglySorted_rev, select_StronglySorted.
    unfold idx. apply StronglySorted_seq. }
  assert (HP : Forall (fun k => k < length non_nan_idx) P).
  { apply Forall_forall. intros k Hk.
    apply (Permutation_in _ Hperm) in Hk. apply in_seq in Hk. lia. }
  assert (Hval_at : forall k, k < length non_nan_idx ->
             nth k non_nans NaN = nth (nth k non_nan_idx 0) items NaN).
  { intros k Hk. rewrite Hvals.
    rewrite (nth_indep _ NaN (nth 0 items NaN))
      by (now rewrite length_map).
    apply (map_nth (fun i => nth i items NaN)). }
  exists (rev (take non_nan_idx P)). split; [reflexivity |]. split.
  - apply Forall_rev. apply Forall_forall. intros i Hi.
    unfold take in Hi. apply in_flat_map in Hi. destruct Hi as [k [_ Hi]].
    destruct (nth_error non_nan_idx k) as [j|] eqn:E; [| contradiction].
    destruct Hi as [<- | []]. rewrite Forall_forall in Hrange.
    apply Hrange. eapply nth_error_In, E.
  - apply (StronglySorted_rev
             (fun a b => fle (nth a items NaN) (nth b items NaN) = true /\
                         (fle (nth b items NaN) (nth a items NaN) = true ->
                          b < a))).
    rewrite (take_in_range 0 non_nan_idx P HP).
    apply (StronglySorted_map_impl (stable_lt non_nans) _
             (fun k => nth k non_nan_idx 0)
             (fun k => k < length non_nan_idx)); [| exact HP | exact Hsorted].
    intros k l Hk Hl [Hle Htie].
    rewrite (Hval_at k Hk), (Hval_at l Hl) in Hle, Htie.
    split; [exact Hle |]. intros Hge.
    apply (StronglySorted_nth (fun x y => y < x) 0 non_nan_idx Hdec);
      [now apply Htie | exact Hl].
Qed.

(** With a stable argsort, the rows with a number in [col] come out in
    descending order of it, rows with equal numbers in the order the
    table had them. *)
Lemma sort_values_desc_stable {A : Type} (col : A -> fnum)
  (before : A -> A -> Prop) (t : list A) :
  StronglySorted before t ->
  exists front,
    sort_values_desc argsort col t =
      front ++ filter (fun r => isna (col r)) t /\
    StronglySorted
      (fun a b => fle (col b) (col a) = true /\
                  (fle (col a) (col b) = true -> before a b))
      front.
Proof.
  intros Ht. unfold sort_values_desc.
  destruct (nargsort_desc_stable (map col t)) as [indexer [E [Hr Hs]]].
  rewrite length_map in E, Hr.
  exists (take t indexer). rewrite E, take_app. split.
  - f_equal. rewrite take_select by (now rewrite !length_map).
    rewrite map_map. apply (select_filter (fun r => isna (col r))).
  - destruct t as [|d t'] eqn:Et.
    { destruct indexer as [|i l]; [constructor |].
      apply Forall_inv in Hr. simpl in Hr. lia. }
    rewrite <- Et in *. clear Et t'.
    rewrite (take_in_range d t indexer Hr).
    apply (StronglySorted_map_impl
             (fun a b : nat =>
                fle (nth b (map col t) NaN) (nth a (map col t) NaN) = true /\
                (fle (nth a (map col t) NaN) (nth b (map col t) NaN) = true ->
                 a < b))
             (fun a b : A =>
                fle (col b) (col a) = true /\
                (fle (col a) (col b) = true -> before a b))
             (fun i => nth i t d)
             (fun i => i < length t) indexer); [| exact Hr | exact Hs].
    assert (Hcol : forall i, i < length t ->
               nth i (map col t) NaN = col (nth i t d)).
    { intros i Hi. rewrite (nth_indep _ NaN (col d))
        by (now rewrite length_map).
      apply map_nth. }
    intros a b Ha Hb [Hle Htie]. rewrite (Hcol a Ha), (Hcol b Hb) in *.
    split; [exact Hle |]. intros Hge.
    apply (StronglySorted_nth before d t Ht); [now apply Htie | exact Hb].
Qed.

End StableFacts.

(** ** The stable argsort meets the stable contract *)

Section StableArgsort.

Local Open Scope nat_scope.

Variable xs : list fnum.
Hypothesis xs_numbers : forallb notna xs = true.

Lemma value_notna i : i < length xs -> notna (nth i xs NaN) = true.
Proof.
  intros Hi. rewrite forallb_forall in xs_numbers.
  apply xs_numbers, nth_In, Hi.
Qed.

Lemma insert_index_stable i p :
  i < length xs ->
  Forall (fun j => i < j /\ j < length xs) p ->
  StronglySorted (stable_lt xs) p ->
  StronglySorted (stable_lt xs) (insert_index xs i p).
Proof.
  intros Hi Hp Hs. induction Hs as [|j p Hs IH Hall]; simpl.
  - repeat constructor.
  - pose proof (Forall_inv Hp) as [Hij Hj]. apply Forall_inv_tail in Hp.
    destruct (fle (nth i xs NaN) (nth j xs NaN)) eqn:E.
    + constructor; [now constructor |].
      constructor; [split; [exact E | intros _; exact Hij] |].
      rewrite Forall_forall in *. intros k Hk.
      destruct (Hall k Hk) as [Hjk _]. destruct (Hp k Hk) as [Hik _].
      split; [now apply (fle_trans _ _ _ E) | intros _; exact Hik].
    + constructor; [now apply IH |].
      apply Forall_forall. intros k Hk.
      apply (Permutation_in _ (insert_index_Permutation xs i p)) in Hk.
      destruct Hk as [<- | Hk].
      * split.
        -- apply fle_total; [now apply value_notna .. | exact E].
        -- intros Hge. congruence.
      * rewrite Forall_forall in Hall. now apply Hall.
Qed.

Lemma stable_fold a n :
  a + n <= length xs ->
  Permutation (fold_right (insert_index xs) [] (seq a n)) (seq a n) /\
  StronglySorted (stable_lt xs) (fold_right (insert_index xs) [] (seq a n)).
Proof.
  revert a. induction n as [|n IH]; intros a Ha; simpl.
  - split; constructor.
  - destruct (IH (S a)) as [Hperm Hs]; [lia |]. split.
    + rewrite insert_index_Permutation. now constructor.
    + apply insert_index_stable; [lia | | exact Hs].
      apply Forall_forall. intros j Hj.
      apply (Permutation_in _ Hperm) in Hj. apply in_seq in Hj. lia.
Qed.

End StableArgsort.

Lemma stable_argsort_stable : stable_argsort_spec stable_argsort.
Proof.
  intros xs Hxs. unfold stable_argsort. now apply stable_fold.
Qed.

(** With [kind='stable'] the leaderboard would keep the grouped order of
    the campaigns of equal mean ROAS. *)
Lemma leaderboard_stable_with_stable_argsort
  (argsort : list fnum -> list nat) (rng : nat -> nat) (df : DataFrame)
  (v : Dashboard) :
  stable_argsort_spec argsort ->
  run argsort rng df = Views v ->
  exists front,
    ranking v =
      front ++ filter (fun r => isna (r_ROAS r)) (ranking_grouped (frame v)) /\
    StronglySorted stable_desc front.
Proof.
  intros Hst Hrun.
  apply run_views in Hrun. destruct Hrun as [_ [raw [rows [_ [_ ->]]]]].
  simpl. unfold ranking_of.
  apply (sort_values_desc_stable argsort Hst r_ROAS
           (fun a b => String.compare (r_Campaign a) (r_Campaign b) = Lt)).
  unfold ranking_grouped. apply StronglySorted_map. simpl.
  apply (groupby_sorted String.compare Campaign
           String.compare_antisym string_compare_trans).
Qed.

(** ** The leaderboard (lines 145-146) *)

(** ** Infinite values in a mean *)

Lemma fold_fadd_from_PInf ys :
  ~ In NInf ys -> Forall (fun y => notna y = true) ys ->
  fold_left fadd ys PInf = PInf.
Proof.
  induction ys as [|y ys IH]; simpl; intros Hn Hna; [reflexivity |].
  pose proof (Forall_inv Hna) as Hy. apply Forall_inv_tail in Hna.
  destruct y; simpl; try discriminate Hy;
    try (apply IH; [intros H; apply Hn; now right | exact Hna]).
  exfalso. apply Hn. now left.
Qed.

Lemma fold_fadd_reaches_PInf ys a :
  In PInf ys -> ~ In NInf ys -> Forall (fun y => notna y = true) ys ->
  fold_left fadd ys (Fin a) = PInf.
Proof.
  revert a. induction ys as [|y ys IH]; simpl; intros a Hin Hn Hna;
    [contradiction |].
  pose proof (Forall_inv Hna) as Hy. apply Forall_inv_tail in Hna.
  assert (Hn' : ~ In NInf ys) by (intros H; apply Hn; now right).
  destruct y; simpl; try discriminate Hy.
  - apply IH; try assumption. destruct Hin as [E | Hin];
      [discriminate E | exact Hin].
  - now apply fold_fadd_from_PInf.
  - exfalso. apply Hn. now left.
Qed.

(** One plus infinity among the values, and no minus infinity, makes the
    mean plus infinity. *)
Lemma mean_PInf xs : In PInf xs -> ~ In NInf xs -> mean xs = PInf.
Proof.
  intros Hin Hn. unfold mean.
  assert (Hin' : In PInf (filter notna xs))
    by (apply filter_In; split; [exact Hin | reflexivity]).
  assert (Hn' : ~ In NInf (filter notna xs))
    by (intros H; apply filter_In in H; now apply Hn).
  assert (Hna : Forall (fun y => notna y = true) (filter notna xs)).
  { apply Forall_forall. intros y Hy. now apply filter_In in Hy. }
  destruct (filter notna xs) as [|y ys] eqn:E; [contradiction |].
  rewrite (fold_fadd_reaches_PInf (y :: ys) 0 Hin' Hn' Hna). reflexivity.
Qed.

(** ** The means of a dashboard are numbers *)

Lemma size_ok_notna x : size_ok x = true -> notna x = true.
Proof. destruct x; simpl; intros H; try reflexivity; discriminate H. Qed.

(** Sizes that plotly takes are numbers throughout, or hold a plus
    infinity and no minus infinity. *)
Lemma size_ok_values xs :
  Forall (fun x => size_ok x = true) xs ->
  ~ In NInf xs /\ (In PInf xs \/ exists qs, xs = map Fin qs).
Proof.
  induction 1 as [|x xs Hx _ [IHn IH]].
  - split; [intros [] | right; now exists []].
  - split.
    + intros [E | Hin]; [subst x; discriminate Hx | now apply IHn].
    + destruct x as [q | | |]; try discriminate Hx.
      * destruct IH as [Hin | [qs ->]]; [left; now right |].
        right. now exists (q :: qs).
      * left. now left.
Qed.

Lemma mean_of_sizes_notna xs :
  xs <> [] -> Forall (fun x => size_ok x = true) xs ->
  notna (mean xs) = true.
Proof.
  intros Hne Hall. destruct (size_ok_values xs Hall) as [Hn [Hin | [qs ->]]].
  - now rewrite (mean_PInf xs Hin Hn).
  - rewrite mean_Fin; [reflexivity |].
    destruct qs; [exfalso; now apply Hne | discriminate].
Qed.

(** In a run that shows a dashboard no campaign has NaN as mean ROAS. *)
Lemma ranking_grouped_notna (rows : list Row) :
  Forall (fun x => size_ok (ROAS x) = true) rows ->
  Forall (fun r => notna (r_ROAS r) = true) (ranking_grouped rows).
Proof.
  intros Hall. apply Forall_forall. intros r Hr.
  destruct (ranking_grouped_spec rows) as [_ [_ Hrows]].
  destruct (Hrows r Hr) as [Hne [_ [_ ->]]].
  apply mean_of_sizes_notna.
  - intros E. apply map_eq_nil in E. contradiction.
  - apply Forall_map. apply Forall_forall. intros x Hx.
    apply filter_In in Hx. rewrite Forall_forall in Hall.
    now apply Hall.
Qed.

Lemma filter_none {A : Type} (f : A -> bool) (l : list A) :
  Forall (fun x => f x = false) l -> filter f l = [].
Proof.
  induction 1 as [|x l Hx _ IH]; simpl; [reflexivity |].
  now rewrite Hx.
Qed.

(** The head of the left list is looked up in the right list and both
    occurrences are set aside. *)
Ltac split_around x r k :=
  match r with
  | x :: ?l2 => let T := type of x in k (@nil T) l2
  | ?y :: ?r' => split_around x r' ltac:(fun l1 l2 => k (y :: l1) l2)
  end.

Ltac place_head :=
  match goal with
  | |- Permutation (?x :: ?l) ?r =>
      split_around x r
        ltac:(fun l1 l2 => apply (Permutation_cons_app l1 l2 x); cbn [app])
  end.

(** The eighteen campaigns of [ties18_upload] have the same mean ROAS;
    numpy's quicksort partitions an array of eighteen items once, and the
    leaderboard lists the campaigns in another order than the grouped
    table. *)
Lemma leaderboard_ties_reordered :
  run quicksort_argsort (fun _ => 0%nat) ties18_upload
    = Views (dashboard quicksort_argsort ties18_rows) /\
  let v := dashboard quicksort_argsort ties18_rows in
  map r_Campaign (ranking_grouped (frame v)) = campaigns18 /\
  Forall (fun r => feq (r_ROAS r) (Fin 2)) (ranking_grouped (frame v)) /\
  Permutation (ranking_grouped (frame v)) (ranking v) /\
  StronglySorted (fun a b => fle (r_ROAS b) (r_ROAS a) = true) (ranking v) /\
  keeps_tie_order (ranking_grouped (frame v)) (ranking v) = false /\
  ~ StronglySorted stable_desc (ranking v).
Proof.
  split; [vm_compute; reflexivity |].
  split; [vm_compute; reflexivity |].
  split; [vm_compute; repeat constructor |].
  split; [| split; [| split]].
  - vm_compute. repeat place_head. apply perm_nil.
  - vm_compute. repeat constructor.
  - vm_compute. reflexivity.
  - vm_compute. intros H.
    do 2 (apply StronglySorted_inv in H; destruct H as [H _]).
    apply StronglySorted_inv in H. destruct H as [_ H].
    apply Forall_inv in H. destruct H as [_ H].
    specialize (H eq_refl). discriminate H.
Qed.

(** With the stable argsort the same two campaigns keep their order. *)
Example leaderboard_ties_kept_when_stable :
  exists v,
    run stable_argsort (fun _ => 0%nat) tie_upload = Views v /\
    map r_Campaign (ranking v) = ["A"; "B"] /\
    keeps_tie_order (ranking_grouped (frame v)) (ranking v) = true.
Proof.
  eexists. split; [reflexivity |]. split; reflexivity.
Qed.

(** A table of two campaigns is sorted by insertion: the tie of
    [tie_upload] keeps its grouped order. *)
Example leaderboard_short_table_keeps_ties :
  exists v,
    run quicksort_argsort (fun _ => 0%nat) tie_upload = Views v /\
    map r_Campaign (ranking_grouped (frame v)) = ["A"; "B"] /\
    Forall (fun r => feq (r_ROAS r) (Fin 2)) (ranking_grouped (frame v)) /\
    map r_Campaign (ranking v) = ["A"; "B"].
Proof.
  eexists. split; [reflexivity |]. split; [reflexivity |].
  split; [repeat constructor | reflexivity].
Qed.

(** C3 (amended). For every argsort that meets numpy's contract and every
    run that shows a dashboard, the leaderboard is a rearrangement of the
    grouped table of line 145, every mean ROAS in it is a number or plus
    infinity, and the rows stand in descending order of the mean ROAS.
    Nothing is promised about the order of campaigns of equal mean
    ROAS. *)
Theorem leaderboard_descending
  (argsort : list fnum -> list nat) (Hargsort : argsort_spec argsort)
  (rng : nat -> nat) (df : DataFrame) (v : Dashboard)
  (Hrun : run argsort rng df = Views v) :
  Permutation (ranking_grouped (frame v)) (ranking v) /\
  Forall (fun r => notna (r_ROAS r) = true) (ranking v) /\
  StronglySorted (fun a b => fle (r_ROAS b) (r_ROAS a) = true) (ranking v).
Proof.
  pose proof (run_views_sizes _ _ _ _ Hrun) as Hsize.
  apply run_views in Hrun. destruct Hrun as [_ [raw [rows [_ [_ ->]]]]].
  simpl in *. unfold ranking_of.
  pose proof (ranking_grouped_notna rows Hsize) as Hna.
  destruct (sort_values_desc_spec argsort Hargsort r_ROAS
              (ranking_grouped rows)) as [Hperm [front [E [_ Hsorted]]]].
  rewrite filter_none, app_nil_r in E.
  - split; [exact Hperm | split].
    + rewrite Forall_forall in *. intros r Hr. apply Hna.
      now apply (Permutation_in _ (Permutation_sym Hperm)).
    + now rewrite E.
  - eapply Forall_impl; [| exact Hna].
    intros r H. unfold notna in H. now destruct (isna (r_ROAS r)).
Qed.

Lemma leaderboard_descending_witness :
  argsort_spec insertion_argsort /\
  run insertion_argsort (fun _ => 0%nat) leaderboard_upload
    = Views (dashboard insertion_argsort leaderboard_rows) /\
  Permutation (ranking_grouped leaderboard_rows)
              (ranking_of insertion_argsort leaderboard_rows) /\
  map r_Campaign (ranking_of insertion_argsort leaderboard_rows) = ["A"; "B"].
Proof.
  split; [exact insertion_argsort_spec | split; [reflexivity |]].
  split; [| reflexivity].
  exact (proj1 (leaderboard_descending insertion_argsort insertion_argsort_spec
                  (fun _ => 0%nat) leaderboard_upload
                  (dashboard insertion_argsort leaderboard_rows) eq_refl)).
Defined.

(** ** Grouping and the columns it does not read *)

Section GroupByMap.

Context {K A B : Type}.
Variable cmp : K -> K -> comparison.
Variable key : A -> K.
Variable key' : B -> K.
Variable f : A -> B.
Hypothesis key_f : forall r, key' (f r) = key r.

Abbreviation map_groups :=
  (map (fun g : K * list A => (fst g, map f (snd g)))).

Lemma add_to_group_map r gs :
  add_to_group cmp key' (f r) (map_groups gs) =
  map_groups (add_to_group cmp key r gs).
Proof.
  induction gs as [|[k g] gs IH]; simpl.
  - now rewrite key_f.
  - rewrite key_f. destruct (cmp (key r) k); simpl.
    + now rewrite map_app.
    + reflexivity.
    + now rewrite IH.
Qed.

(** Grouping the images of the rows gives the images of the groups. *)
Lemma groupby_map rows :
  groupby cmp key' (map f rows) = map_groups (groupby cmp key rows).
Proof.
  unfold groupby.
  change (@nil (K * list B)) with (map_groups []).
  generalize (@nil (K * list A)).
  induction rows as [|r rows IH]; intros gs; simpl; [reflexivity |].
  rewrite add_to_group_map. apply IH.
Qed.

End GroupByMap.

(** ** What does not depend on the Audience column *)

Lemma heat_data_without_audience rows :
  heat_data_of (map without_audience rows) = heat_data_of rows.
Proof.
  unfold heat_data_of.
  rewrite (groupby_map pair_compare (fun r => (Day r, Campaign r))
             (fun r => (Day r, Campaign r)) without_audience)
    by reflexivity.
  rewrite map_map. apply map_ext. intros [k g]. simpl.
  now rewrite map_map.
Qed.

Lemma ranking_grouped_without_audience rows :
  ranking_grouped (map without_audience rows) = ranking_grouped rows.
Proof.
  unfold ranking_grouped.
  rewrite (groupby_map String.compare Campaign Campaign without_audience)
    by reflexivity.
  rewrite map_map. apply map_ext. intros [k g]. simpl.
  now rewrite !map_map.
Qed.

(** Two frames that agree up to Audience have the same KPIs, the same
    Day and ROAS columns, the same heatmap table and the same
    leaderboard. *)
Lemma dashboard_without_audience argsort rows1 rows2 :
  map without_audience rows1 = map without_audience rows2 ->
  total_spend_of rows1 = total_spend_of rows2 /\
  total_rev_of rows1 = total_rev_of rows2 /\
  total_roas_of rows1 = total_roas_of rows2 /\
  map ROAS rows1 = map ROAS rows2 /\
  map Day rows1 = map Day rows2 /\
  heat_data_of rows1 = heat_data_of rows2 /\
  ranking_of argsort rows1 = ranking_of argsort rows2.
Proof.
  intros E.
  assert (Hcol : forall (C : Type) (col : Row -> C),
             (forall x, col (without_audience x) = col x) ->
             map col rows1 = map col rows2).
  { intros C col Hc.
    rewrite <- (map_ext _ _ Hc rows1), <- (map_ext _ _ Hc rows2).
    rewrite <- !(map_map without_audience col). now rewrite E. }
  assert (Es : total_spend_of rows1 = total_spend_of rows2).
  { unfold total_spend_of. now rewrite (Hcol Q Spend). }
  assert (Er : total_rev_of rows1 = total_rev_of rows2).
  { unfold total_rev_of. now rewrite (Hcol Q Revenue). }
  repeat split.
  - exact Es.
  - exact Er.
  - unfold total_roas_of. now rewrite Es, Er.
  - now apply Hcol.
  - now apply Hcol.
  - rewrite <- (heat_data_without_audience rows1),
      <- (heat_data_without_audience rows2). now rewrite E.
  - unfold ranking_of.
    rewrite <- (ranking_grouped_without_audience rows1),
      <- (ranking_grouped_without_audience rows2). now rewrite E.
Qed.

Lemma engineer_without_audience raw :
  engineer (map raw_without_audience raw) =
  option_map (map without_audience) (engineer raw).
Proof.
  induction raw as [|r raw IH]; [reflexivity |].
  simpl. rewrite IH. unfold engineer_row. simpl.
  destruct (to_datetime_dayfirst (raw_Date r)); [| reflexivity].
  now destruct (engineer raw).
Qed.

Lemma zip_rows_without_audience cs : forall ds ss rs aus1 aus2,
  length aus1 = length aus2 ->
  map raw_without_audience (zip_rows cs ds ss rs aus1) =
  map raw_without_audience (zip_rows cs ds ss rs aus2).
Proof.
  induction cs as [|c cs IH]; intros ds ss rs aus1 aus2 H; [reflexivity |].
  destruct ds as [|d ds], ss as [|s ss], rs as [|r rs]; try reflexivity.
  destruct aus1 as [|a1 aus1], aus2 as [|a2 aus2]; try discriminate;
    [reflexivity |].
  injection H as H. simpl. f_equal. now apply IH.
Qed.

(** ** Two runs on an upload without Audience *)

Lemma filter_label_absent c (l : list (string * Series)) :
  ~ In c (map fst l) -> filter (fun p => String.eqb c (fst p)) l = [].
Proof.
  induction l as [|[c' s] l IH]; simpl; intros H; [reflexivity |].
  destruct (String.eqb c c') eqn:E.
  - apply String.eqb_eq in E. subst c'. exfalso. apply H. now left.
  - apply IH. intros Hin. apply H. now right.
Qed.

Lemma column_add_other c c' s df :
  c <> c' -> column c (add_column c' s df) = column c df.
Proof.
  intros H. unfold column, add_column. simpl.
  rewrite filter_app. simpl. apply String.eqb_neq in H. rewrite H.
  now rewrite app_nil_r.
Qed.

Lemma column_add_same c s df :
  ~ In c (columns df) -> column c (add_column c s df) = Some s.
Proof.
  intros H. unfold column, add_column. simpl.
  rewrite filter_app, (filter_label_absent c (cols df) H). simpl.
  now rewrite String.eqb_refl.
Qed.

Lemma texts_map_Text l : texts (map Text l) = Some l.
Proof.
  induction l as [|a l IH]; simpl; [reflexivity | now rewrite IH].
Qed.

Lemma rename_keeps_Audience_absent df :
  ~ In "Audience" (columns df) ->
  ~ In "Audience" (columns (rename rename_map df)).
Proof.
  intros H Hin. apply H. unfold columns, rename in Hin. simpl in Hin.
  rewrite map_map in Hin. simpl in Hin. apply in_map_iff in Hin.
  destruct Hin as [[c s] [E Hin]]. simpl in E.
  assert (Ec : c = "Audience").
  { destruct (rename_label_spec c) as [H1 [H2 [H3 H4]]].
    destruct (string_dec c "Day") as [D | D];
      [rewrite (H1 D) in E; discriminate |].
    destruct (string_dec c "Cost") as [C | C];
      [rewrite (H2 C) in E; discriminate |].
    destruct (string_dec c "Total conv. value") as [T | T];
      [rewrite (H3 T) in E; discriminate |].
    now rewrite (H4 D C T) in E. }
  subst c. apply in_map_iff. now exists ("Audience", s).
Qed.

(** The typed rows of two frames that differ in the labels of the
    appended Audience column agree up to Audience. *)
Lemma records_of_two_labels df l1 l2 :
  ~ In "Audience" (columns df) ->
  length l1 = nrows df -> length l2 = nrows df ->
  match records_of (add_column "Audience" (map Text l1) df),
        records_of (add_column "Audience" (map Text l2) df) with
  | Some raw1, Some raw2 =>
      map raw_without_audience raw1 = map raw_without_audience raw2
  | None, None => True
  | _, _ => False
  end.
Proof.
  intros Habs L1 L2. unfold records_of.
  rewrite !(column_add_other "Campaign" "Audience") by discriminate.
  rewrite !(column_add_other "Date" "Audience") by discriminate.
  rewrite !(column_add_other "Spend" "Audience") by discriminate.
  rewrite !(column_add_other "Revenue" "Audience") by discriminate.
  rewrite !(column_add_same "Audience") by exact Habs.
  destruct (column "Campaign" df) as [c|]; [| exact I].
  destruct (column "Date" df) as [d|]; [| exact I].
  destruct (column "Spend" df) as [s|]; [| exact I].
  destruct (column "Revenue" df) as [r|]; [| exact I].
  repeat rewrite texts_map_Text.
  destruct (texts c) as [cs|]; [| exact I].
  destruct (texts d) as [ds|]; [| exact I].
  destruct (numbers s) as [ss|]; [| exact I].
  destruct (numbers r) as [rs|]; [| exact I].
  simpl. rewrite L1, L2, Nat.eqb_refl, !andb_true_r.
  destruct (_ && _); [| exact I].
  apply zip_rows_without_audience. congruence.
Qed.

Lemma missing_cols_columns df1 df2 :
  columns df1 = columns df2 -> missing_cols df1 = missing_cols df2.
Proof.
  intros E. unfold missing_cols, has_column. now rewrite E.
Qed.

(** C9. On an upload without an Audience column, two runs that draw
    different labels end alike: the same missing-columns error, or two
    dashboards with the same three KPIs, the same ROAS and Day of every
    row, the same heatmap table and the same leaderboard, or the handler
    of line 158 after the same three KPIs.  Only the Audience column of
    the frame and the audience table are left out of the comparison. *)
Theorem synthesis_noninterference
  (argsort : list fnum -> list nat) (rng1 rng2 : nat -> nat)
  (df : DataFrame) (Habsent : ~ In "Audience" (columns df)) :
  match run argsort rng1 df, run argsort rng2 df with
  | Views v1, Views v2 =>
      total_spend v1 = total_spend v2 /\
      total_rev v1 = total_rev v2 /\
      total_roas v1 = total_roas v2 /\
      map ROAS (frame v1) = map ROAS (frame v2) /\
      map Day (frame v1) = map Day (frame v2) /\
      heat_data v1 = heat_data v2 /\
      ranking v1 = ranking v2
  | MissingColumnsError m1, MissingColumnsError m2 => m1 = m2
  | UnexpectedError s1 r1 a1, UnexpectedError s2 r2 a2 =>
      s1 = s2 /\ r1 = r2 /\ a1 = a2
  | NotModelled, NotModelled => True
  | _, _ => False
  end.
Proof.
  apply rename_keeps_Audience_absent in Habsent.
  pose proof Habsent as Hfalse. apply has_column_false in Hfalse.
  unfold run, autofix. rewrite Hfalse. simpl negb. cbv iota.
  set (df0 := rename rename_map df) in *.
  set (l1 := random_choice rng1 audiences (nrows df0)).
  set (l2 := random_choice rng2 audiences (nrows df0)).
  rewrite (missing_cols_columns
             (add_column "Audience" (map Text l2) df0)
             (add_column "Audience" (map Text l1) df0))
    by (now repeat rewrite columns_add_column).
  destruct (missing_cols (add_column "Audience" (map Text l1) df0));
    [| reflexivity].
  pose proof (records_of_two_labels df0 l1 l2 Habsent
                (random_choice_length _ _ _) (random_choice_length _ _ _))
    as Hrec.
  destruct (records_of (add_column "Audience" (map Text l1) df0)) as [raw1|];
    destruct (records_of (add_column "Audience" (map Text l2) df0)) as [raw2|];
    try contradiction; [| exact I].
  pose proof (engineer_without_audience raw1) as E1.
  pose proof (engineer_without_audience raw2) as E2.
  rewrite Hrec in E1. rewrite E1 in E2.
  destruct (engineer raw1) as [rows1|], (engineer raw2) as [rows2|];
    try discriminate; [| exact I].
  injection E2 as E2.
  pose proof (dashboard_without_audience argsort rows1 rows2 E2) as Hd.
  assert (Hsize : forallb (fun x => size_ok (ROAS x)) rows1 =
                  forallb (fun x => size_ok (ROAS x)) rows2).
  { destruct Hd as [_ [_ [_ [HR _]]]].
    assert (Hmap : forall rows,
               forallb (fun x => size_ok (ROAS x)) rows =
               forallb size_ok (map ROAS rows)).
    { induction rows as [|x rows IH]; simpl; [reflexivity | now rewrite IH]. }
    now rewrite !Hmap, HR. }
  rewrite Hsize.
  destruct (forallb _ rows2); [exact Hd |].
  destruct Hd as [H1 [H2 [H3 _]]]. now repeat split.
Qed.

(** On [ads_upload] the two runs agree as C9 says, and their audience
    tables differ. *)
Lemma synthesis_noninterference_witness :
  ~ In "Audience" (columns ads_upload) /\
  match run insertion_argsort (fun _ => 0%nat) ads_upload,
        run insertion_argsort (fun i => i) ads_upload with
  | Views v1, Views v2 =>
      total_spend v1 = total_spend v2 /\
      total_rev v1 = total_rev v2 /\
      total_roas v1 = total_roas v2 /\
      map ROAS (frame v1) = map ROAS (frame v2) /\
      map Day (frame v1) = map Day (frame v2) /\
      heat_data v1 = heat_data v2 /\
      ranking v1 = ranking v2
  | MissingColumnsError m1, MissingColumnsError m2 => m1 = m2
  | UnexpectedError s1 r1 a1, UnexpectedError s2 r2 a2 =>
      s1 = s2 /\ r1 = r2 /\ a1 = a2
  | NotModelled, NotModelled => True
  | _, _ => False
  end.
Proof.
  assert (H : ~ In "Audience" (columns ads_upload)).
  { simpl. intros [E | [E | [E | [E | []]]]]; discriminate E. }
  split; [exact H |].
  exact (synthesis_noninterference insertion_argsort (fun _ => 0%nat)
           (fun i => i) ads_upload H).
Defined.

(** The audience table is the one thing the labels change. *)
Lemma audience_table_depends_on_labels :
  exists v1 v2,
    run insertion_argsort (fun _ => 0%nat) ads_upload = Views v1 /\
    run insertion_argsort (fun i => i) ads_upload = Views v2 /\
    map a_Audience (aud_df v1) = ["Gen Z"] /\
    map a_Audience (aud_df v2) = ["Gen X"; "Gen Z"; "Millennials"].
Proof.
  eexists. eexists. split; [reflexivity |]. split; [reflexivity |].
  split; reflexivity.
Qed.

(** * Further properties of the script *)

(** ** The column check seen from the upload (lines 56-75) *)

Lemma columns_rename m df :
  columns (rename m df) = map (rename_label m) (columns df).
Proof. unfold columns, rename. simpl. now rewrite !map_map. Qed.

(** The labels that end up as [c] after renaming: [c] itself unless it is
    an alias, and the aliases of [c]. *)
Lemma rename_label_target c0 c :
  rename_label rename_map c0 = c <->
  (c0 = c /\ c <> "Day" /\ c <> "Cost" /\ c <> "Total conv. value") \/
  (c0 = "Day" /\ c = "Date") \/
  (c0 = "Cost" /\ c = "Spend") \/
  (c0 = "Total conv. value" /\ c = "Revenue").
Proof.
  destruct (rename_label_spec c0) as [H1 [H2 [H3 H4]]].
  destruct (string_dec c0 "Day") as [D | D];
    [rewrite (H1 D); subst c0; split;
     [intros <-; right; left; now split
     |intros [[<- [N _]] | [[_ ->] | [[E _] | [E _]]]];
      congruence || discriminate E] |].
  destruct (string_dec c0 "Cost") as [C | C];
    [rewrite (H2 C); subst c0; split;
     [intros <-; right; right; left; now split
     |intros [[<- [_ [N _]]] | [[E _] | [[_ ->] | [E _]]]];
      congruence || discriminate E] |].
  destruct (string_dec c0 "Total conv. value") as [T | T];
    [rewrite (H3 T); subst c0; split;
     [intros <-; right; right; right; now split
     |intros [[<- [_ [_ N]]] | [[E _] | [[E _] | [_ ->]]]];
      congruence || discriminate E] |].
  rewrite (H4 D C T). split.
  - intros <-. left. repeat split; assumption.
  - intros [[E _] | [[E _] | [[E _] | [E _]]]]; congruence.
Qed.

Lemma In_columns_rename df c :
  In c (columns (rename rename_map df)) <->
  exists c0, In c0 (columns df) /\ rename_label rename_map c0 = c.
Proof.
  rewrite columns_rename, in_map_iff. split; intros [c0 [H1 H2]];
    exists c0; tauto.
Qed.

Lemma In_columns_normalize rng df c :
  In c (columns (normalize rng df)) <->
  c = "Audience" \/ In c (columns (rename rename_map df)).
Proof.
  unfold normalize, autofix.
  destruct (has_column "Audience" (rename rename_map df)) eqn:E; cbn [negb].
  - apply has_column_In in E. split; [tauto |]. intros [-> | H]; assumption.
  - rewrite columns_add_column, in_app_iff. simpl. split.
    + intros [H | [<- | []]]; tauto.
    + intros [-> | H]; tauto.
Qed.

(** Which required columns are present at the check, in terms of the
    labels of the upload. *)
Lemma present_at_check rng df :
  (In "Campaign" (columns (normalize rng df)) <-> In "Campaign" (columns df)) /\
  (In "Date" (columns (normalize rng df)) <->
   In "Date" (columns df) \/ In "Day" (columns df)) /\
  (In "Spend" (columns (normalize rng df)) <->
   In "Spend" (columns df) \/ In "Cost" (columns df)) /\
  (In "Revenue" (columns (normalize rng df)) <->
   In "Revenue" (columns df) \/ In "Total conv. value" (columns df)).
Proof.
  repeat split; rewrite In_columns_normalize, In_columns_rename.
  all: try (intros [E | [c0 [Hin Hc]]]; [discriminate E |];
            apply rename_label_target in Hc;
            destruct Hc as [[-> _] | [[-> E] | [[-> E] | [-> E]]]];
            try discriminate E; tauto).
  - intros H. right. exists "Campaign". split; [exact H | reflexivity].
  - intros [H | H]; right; [exists "Date" | exists "Day"];
      (split; [exact H | reflexivity]).
  - intros [H | H]; right; [exists "Spend" | exists "Cost"];
      (split; [exact H | reflexivity]).
  - intros [H | H]; right; [exists "Revenue" | exists "Total conv. value"];
      (split; [exact H | reflexivity]).
Qed.

(** X1. The missing-columns error read on the labels of the upload: it is
    shown exactly when the upload has no Campaign column, or neither Date
    nor Day, or neither Spend nor Cost, or neither Revenue nor
    "Total conv. value"; the list names Date exactly when both Date and
    Day are absent (and so on), in the order Campaign, Date, Spend,
    Revenue; an Audience column is never asked of the upload. *)
Theorem column_check_on_upload
  (argsort : list fnum -> list nat) (rng : nat -> nat) (df : DataFrame) :
  let has := fun c => In c (columns df) in
  let miss := fun (b : bool) (c : string) => if b then [] else [c] in
  ((exists m, run argsort rng df = MissingColumnsError m) <->
   ~ has "Campaign" \/
   (~ has "Date" /\ ~ has "Day") \/
   (~ has "Spend" /\ ~ has "Cost") \/
   (~ has "Revenue" /\ ~ has "Total conv. value")) /\
  (forall m, run argsort rng df = MissingColumnsError m ->
     m = miss (has_column "Campaign" df) "Campaign" ++
         miss (has_column "Date" df || has_column "Day" df) "Date" ++
         miss (has_column "Spend" df || has_column "Cost" df) "Spend" ++
         miss (has_column "Revenue" df || has_column "Total conv. value" df)
              "Revenue").
Proof.
  intros has miss.
  destruct (present_at_check rng df) as [Pc [Pd [Ps Pr]]].
  pose proof (autofix_has_Audience rng (rename rename_map df)) as Pa.
  fold (normalize rng df) in Pa.
  assert (Hm : missing_cols (normalize rng df) =
               miss (has_column "Campaign" df) "Campaign" ++
               miss (has_column "Date" df || has_column "Day" df) "Date" ++
               miss (has_column "Spend" df || has_column "Cost" df) "Spend" ++
               miss (has_column "Revenue" df
                     || has_column "Total conv. value" df) "Revenue").
  { assert (Bc : has_column "Campaign" (normalize rng df)
                 = has_column "Campaign" df).
    { apply eq_true_iff_eq. now rewrite !has_column_In. }
    assert (Bd : has_column "Date" (normalize rng df)
                 = has_column "Date" df || has_column "Day" df).
    { apply eq_true_iff_eq. now rewrite orb_true_iff, !has_column_In. }
    assert (Bs : has_column "Spend" (normalize rng df)
                 = has_column "Spend" df || has_column "Cost" df).
    { apply eq_true_iff_eq. now rewrite orb_true_iff, !has_column_In. }
    assert (Br : has_column "Revenue" (normalize rng df)
                 = has_column "Revenue" df
                   || has_column "Total conv. value" df).
    { apply eq_true_iff_eq. now rewrite orb_true_iff, !has_column_In. }
    apply has_column_In in Pa.
    unfold missing_cols, req_cols. simpl. rewrite Bc, Bd, Bs, Br, Pa.
    destruct (has_column "Campaign" df),
      (has_column "Date" df || has_column "Day" df),
      (has_column "Spend" df || has_column "Cost" df),
      (has_column "Revenue" df || has_column "Total conv. value" df);
      reflexivity. }
  split.
  - split.
    + intros [m Hrun]. apply run_missing in Hrun. destruct Hrun as [-> Hne].
      rewrite Hm in Hne. unfold has.
      destruct (has_column "Campaign" df) eqn:Ec;
        [| left; now apply has_column_false].
      destruct (has_column "Date" df) eqn:Ed, (has_column "Day" df) eqn:Ey;
        try (destruct (has_column "Spend" df) eqn:Es,
               (has_column "Cost" df) eqn:Eo;
             try (destruct (has_column "Revenue" df) eqn:Er,
                    (has_column "Total conv. value" df) eqn:Et;
                  try (exfalso; apply Hne; reflexivity);
                  right; right; right; split; now apply has_column_false);
             right; right; left; split; now apply has_column_false);
        right; left; split; now apply has_column_false.
    + intros H. exists (missing_cols (normalize rng df)).
      apply run_missing. split; [reflexivity |]. rewrite Hm. unfold has in H.
      destruct H as [H | [[H1 H2] | [[H1 H2] | [H1 H2]]]].
      * apply has_column_false in H. rewrite H. discriminate.
      * apply has_column_false in H1, H2. rewrite H1, H2.
        destruct (has_column "Campaign" df); discriminate.
      * apply has_column_false in H1, H2. rewrite H1, H2.
        destruct (has_column "Campaign" df),
          (has_column "Date" df || has_column "Day" df); discriminate.
      * apply has_column_false in H1, H2. rewrite H1, H2.
        destruct (has_column "Campaign" df),
          (has_column "Date" df || has_column "Day" df),
          (has_column "Spend" df || has_column "Cost" df); discriminate.
  - intros m Hrun. apply run_missing in Hrun. destruct Hrun as [-> _].
    exact Hm.
Qed.

(** ** Normalising twice (lines 56-67) *)

Lemma rename_label_idempotent c :
  rename_label rename_map (rename_label rename_map c) =
  rename_label rename_map c.
Proof.
  destruct (rename_label_spec c) as [H1 [H2 [H3 H4]]].
  destruct (string_dec c "Day") as [D | D]; [now rewrite (H1 D) |].
  destruct (string_dec c "Cost") as [C | C]; [now rewrite (H2 C) |].
  destruct (string_dec c "Total conv. value") as [T | T];
    [now rewrite (H3 T) |].
  now rewrite !(H4 D C T).
Qed.

Lemma rename_idempotent df :
  rename rename_map (rename rename_map df) = rename rename_map df.
Proof.
  unfold rename. simpl. f_equal. rewrite map_map. apply map_ext.
  intros [c s]. simpl. now rewrite rename_label_idempotent.
Qed.

Lemma rename_add_Audience s df :
  rename rename_map (add_column "Audience" s df) =
  add_column "Audience" s (rename rename_map df).
Proof.
  unfold rename, add_column. simpl. now rewrite map_app.
Qed.

(** X2. Normalising is idempotent: a frame that went through the renaming
    and the auto-fix is left as it is by a second pass, whatever the second
    pass would draw; no alias target is itself an alias and the Audience
    column is generated at most once. *)
Theorem normalize_idempotent (rng1 rng2 : nat -> nat) (df : DataFrame) :
  normalize rng2 (normalize rng1 df) = normalize rng1 df.
Proof.
  assert (Hren : rename rename_map (normalize rng1 df) = normalize rng1 df).
  { unfold normalize, autofix.
    destruct (has_column "Audience" (rename rename_map df)); cbn [negb].
    - apply rename_idempotent.
    - now rewrite rename_add_Audience, rename_idempotent. }
  unfold normalize at 1. rewrite Hren. unfold autofix at 1.
  pose proof (autofix_has_Audience rng1 (rename rename_map df)) as H.
  fold (normalize rng1 df) in H. apply has_column_In in H. now rewrite H.
Qed.

(** ** Labels after renaming (lines 56-61) *)

Lemma NoDup_map_injective_on {A B : Type} (f : A -> B) l :
  NoDup (map f l) ->
  forall a b, In a l -> In b l -> f a = f b -> a = b.
Proof.
  induction l as [|x l IH]; simpl; intros Hnd a b Ha Hb E; [contradiction |].
  apply NoDup_cons_iff in Hnd. destruct Hnd as [Hx Hnd].
  destruct Ha as [-> | Ha], Hb as [-> | Hb].
  - reflexivity.
  - exfalso. apply Hx. rewrite E. now apply in_map.
  - exfalso. apply Hx. rewrite <- E. now apply in_map.
  - now apply IH.
Qed.

(** X3. Renaming keeps the labels of an upload distinct exactly when the
    upload does not carry an alias together with its target: with both
    Day and Date (or Cost and Spend, or "Total conv. value" and Revenue)
    the renamed frame has two columns of the same label. *)
Theorem rename_distinct_labels (df : DataFrame)
  (Hdistinct : NoDup (columns df)) :
  NoDup (columns (rename rename_map df)) <->
  ~ (In "Day" (columns df) /\ In "Date" (columns df)) /\
  ~ (In "Cost" (columns df) /\ In "Spend" (columns df)) /\
  ~ (In "Total conv. value" (columns df) /\ In "Revenue" (columns df)).
Proof.
  rewrite columns_rename. split.
  - intros Hnd.
    repeat split; intros [Ha Hb];
      pose proof (NoDup_map_injective_on _ _ Hnd _ _ Ha Hb eq_refl) as E;
      discriminate E.
  - intros [Hd [Hc Ht]].
    apply NoDup_map_NoDup_ForallPairs; [| exact Hdistinct].
    intros a b Ha Hb E.
    remember (rename_label rename_map b) as c eqn:Eb. symmetry in Eb.
    apply rename_label_target in E, Eb.
    destruct E as [[Ea _] | [[Ea Ec] | [[Ea Ec] | [Ea Ec]]]];
      destruct Eb as [[Eb _] | [[Eb Ec'] | [[Eb Ec'] | [Eb Ec']]]];
      subst; try reflexivity; try discriminate; exfalso; tauto.
Qed.

(** ** The audience table (lines 115-116) *)

Lemma aud_df_spec (rows : list Row) :
  (forall a, In a (map a_Audience (aud_df_of rows)) <->
             In a (map Audience rows)) /\
  StronglySorted (fun a b => String.compare a b = Lt)
                 (map a_Audience (aud_df_of rows)) /\
  (forall r, In r (aud_df_of rows) ->
     let g := filter (fun x => String.eqb (Audience x) (a_Audience r)) rows in
     g <> [] /\
     a_Spend r = Qsum (map Spend g) /\
     a_Revenue r = Qsum (map Revenue g) /\
     a_ROAS r = fdiv (a_Revenue r) (a_Spend r)).
Proof.
  pose proof (groupby_spec String.compare Audience string_compare_eq
                String.compare_antisym string_compare_trans rows) as Hspec.
  assert (Hfil : forall k,
             filter (fun x => same_key String.compare (Audience x) k) rows =
             filter (fun x => String.eqb (Audience x) k) rows).
  { intros k. apply filter_ext. intros x. apply same_key_string. }
  split; [| split].
  - intros a. unfold aud_df_of. rewrite map_map. simpl. split.
    + intros H. apply in_map_iff in H. destruct H as [[k g] [E H]].
      simpl in E. subst k. apply Hspec in H. destruct H as [-> Hne].
      rewrite Hfil in Hne.
      destruct (filter (fun x => String.eqb (Audience x) a) rows)
        as [|x l] eqn:F; [congruence |].
      assert (Hx : In x (filter (fun x => String.eqb (Audience x) a) rows))
        by (rewrite F; now left).
      apply filter_In in Hx. destruct Hx as [Hx E]. apply String.eqb_eq in E.
      subst a. now apply in_map.
    + intros H. apply in_map_iff in H. destruct H as [x [E Hx]]. subst a.
      apply in_map_iff.
      exists (Audience x,
              filter (fun y => same_key String.compare (Audience y)
                                        (Audience x)) rows).
      split; [reflexivity |]. apply Hspec. split; [reflexivity |].
      rewrite Hfil. intros F.
      assert (Hin : In x (filter (fun y => String.eqb (Audience y)
                                                      (Audience x)) rows)).
      { apply filter_In. split; [exact Hx | apply String.eqb_refl]. }
      rewrite F in Hin. contradiction.
  - unfold aud_df_of. rewrite map_map. simpl.
    apply (StronglySorted_map fst (fun a b => String.compare a b = Lt)).
    apply (groupby_sorted String.compare Audience
             String.compare_antisym string_compare_trans).
  - intros r Hr. unfold aud_df_of in Hr. apply in_map_iff in Hr.
    destruct Hr as [[k g] [E H]]. subst r. simpl.
    apply Hspec in H. destruct H as [-> Hne]. rewrite Hfil in *.
    repeat split. exact Hne.
Qed.

(** X4. In every run that shows a dashboard, the audience table has one
    row per Audience label of the frame, in ascending order of the label;
    its Spend and Revenue are the sums over the rows of that label and its
    ROAS is the ratio of these two sums, not a mean of row ROAS, with no
    guard on a zero sum. *)
Theorem audience_table
  (argsort : list fnum -> list nat) (rng : nat -> nat) (df : DataFrame)
  (v : Dashboard) (Hrun : run argsort rng df = Views v) :
  (forall a, In a (map a_Audience (aud_df v)) <->
             In a (map Audience (frame v))) /\
  StronglySorted (fun a b => String.compare a b = Lt)
                 (map a_Audience (aud_df v)) /\
  (forall r, In r (aud_df v) ->
     let g := filter (fun x => String.eqb (Audience x) (a_Audience r))
                     (frame v) in
     g <> [] /\
     a_Spend r = Qsum (map Spend g) /\
     a_Revenue r = Qsum (map Revenue g) /\
     (~ a_Spend r == 0 -> a_ROAS r = Fin (a_Revenue r / a_Spend r)) /\
     (a_Spend r == 0 -> 0 < a_Revenue r -> a_ROAS r = PInf) /\
     (a_Spend r == 0 -> a_Revenue r == 0 -> a_ROAS r = NaN)).
Proof.
  apply run_views in Hrun. destruct Hrun as [_ [raw [rows [_ [_ ->]]]]].
  simpl. destruct (aud_df_spec rows) as [H1 [H2 H3]].
  split; [exact H1 | split; [exact H2 |]].
  intros r Hr. destruct (H3 r Hr) as [Hne [Hs [Hv Hroas]]].
  split; [exact Hne | split; [exact Hs | split; [exact Hv |]]].
  rewrite Hroas. unfold fdiv. split; [| split].
  - intros Hnz. destruct (Qeq_bool (a_Spend r) 0) eqn:E; [| reflexivity].
    apply Qeq_bool_eq in E. contradiction.
  - intros Hz Hpos. rewrite (Qeq_eq_bool _ _ Hz).
    apply Qgt_alt in Hpos. now rewrite Hpos.
  - intros Hz Hr0. rewrite (Qeq_eq_bool _ _ Hz).
    apply Qeq_alt in Hr0. now rewrite Hr0.
Qed.

Lemma audience_table_witness :
  run insertion_argsort (fun _ => 0%nat) leaderboard_upload
    = Views (dashboard insertion_argsort leaderboard_rows) /\
  StronglySorted (fun a b => String.compare a b = Lt)
    (map a_Audience (aud_df (dashboard insertion_argsort leaderboard_rows))).
Proof.
  split; [reflexivity |].
  exact (proj1 (proj2 (audience_table insertion_argsort (fun _ => 0%nat)
                         leaderboard_upload
                         (dashboard insertion_argsort leaderboard_rows)
                         eq_refl))).
Defined.

(** ** Row ROAS (line 83) *)

Lemma fdiv_cases a b :
  (~ b == 0 -> fdiv a b = Fin (a / b)) /\
  (b == 0 -> 0 < a -> fdiv a b = PInf) /\
  (b == 0 -> a < 0 -> fdiv a b = NInf) /\
  (b == 0 -> a == 0 -> fdiv a b = NaN).
Proof.
  unfold fdiv. split.
  - intros Hnz. destruct (Qeq_bool b 0) eqn:E; [| reflexivity].
    apply Qeq_bool_eq in E. contradiction.
  - repeat split; intros Hz H; rewrite (Qeq_eq_bool _ _ Hz);
      destruct (Qcompare a 0) eqn:C; try reflexivity; exfalso;
      match type of C with
      | _ = Eq => apply Qeq_alt in C
      | _ = Lt => apply Qlt_alt in C
      | _ = Gt => apply Qgt_alt in C
      end; lra.
Qed.

Lemma size_ok_fdiv a b :
  size_ok (fdiv a b) = true <->
  (b == 0 /\ 0 < a) \/ (~ b == 0 /\ 0 <= a / b).
Proof.
  destruct (Qeq_dec b 0) as [Hz | Hnz].
  - destruct (Q_dec a 0) as [[Hneg | Hpos] | Hzero].
    + rewrite (proj1 (proj2 (proj2 (fdiv_cases a b))) Hz Hneg). simpl.
      split; [discriminate |]. intros [[_ H] | [H _]]; [lra | contradiction].
    + rewrite (proj1 (proj2 (fdiv_cases a b)) Hz Hpos). simpl.
      split; [intros _; left; now split | reflexivity].
    + rewrite (proj2 (proj2 (proj2 (fdiv_cases a b))) Hz Hzero). simpl.
      split; [discriminate |]. intros [[_ H] | [H _]]; [lra | contradiction].
  - rewrite (proj1 (fdiv_cases a b) Hnz). simpl. rewrite Qle_bool_iff.
    split; [intros H; right; now split |].
    intros [[H _] | [_ H]]; [contradiction | exact H].
Qed.



(** ** Infinite means (lines 83 and 145) *)

(** X7. An infinite row ROAS takes over the mean of its campaign: for an
    argsort that meets numpy's contract and a run that shows a dashboard,
    a campaign with a row of zero Spend and positive Revenue, and no row
    of zero Spend and negative Revenue, has plus infinity as its mean ROAS
    in the leaderboard, whatever its other rows. *)
Theorem zero_spend_row_makes_mean_infinite
  (argsort : list fnum -> list nat) (Hargsort : argsort_spec argsort)
  (rng : nat -> nat) (df : DataFrame) (v : Dashboard)
  (Hrun : run argsort rng df = Views v)
  (r : RankRow) (Hr : In r (ranking v))
  (Hzero : exists x, In x (frame v) /\ Campaign x = r_Campaign r /\
                     Spend x == 0 /\ 0 < Revenue x)
  (Hnoneg : forall x, In x (frame v) -> Campaign x = r_Campaign r ->
                      Spend x == 0 -> 0 <= Revenue x) :
  r_ROAS r = PInf.
Proof.
  apply run_views in Hrun. destruct Hrun as [_ [raw [rows [_ [Heng ->]]]]].
  simpl in *. unfold ranking_of in Hr.
  destruct (sort_values_desc_spec argsort Hargsort r_ROAS
              (ranking_grouped rows)) as [Hperm _].
  apply (Permutation_in _ (Permutation_sym Hperm)) in Hr.
  destruct (ranking_grouped_spec rows) as [_ [_ Hrows]].
  destruct (Hrows r Hr) as [_ [_ [_ ->]]].
  pose proof (engineer_derived raw rows Heng) as Hd.
  rewrite Forall_forall in Hd.
  apply mean_PInf.
  - destruct Hzero as [x [Hx [Hc [Hs Hv]]]].
    apply in_map_iff. exists x. split.
    + destruct (Hd x Hx) as [-> _]. now apply fdiv_cases.
    + apply filter_In. split; [exact Hx | now apply String.eqb_eq].
  - intros Hin. apply in_map_iff in Hin. destruct Hin as [x [E Hx]].
    apply filter_In in Hx. destruct Hx as [Hx Hc]. apply String.eqb_eq in Hc.
    destruct (Hd x Hx) as [Hroas _]. rewrite Hroas in E.
    assert (Hz : Spend x == 0).
    { destruct (Qeq_dec (Spend x) 0) as [Hz | Hz]; [exact Hz |].
      rewrite (proj1 (fdiv_cases (Revenue x) (Spend x)) Hz) in E.
      discriminate E. }
    pose proof (Hnoneg x Hx Hc Hz) as Hge.
    apply Qle_lt_or_eq in Hge. destruct Hge as [Hpos | Heq].
    + rewrite (proj1 (proj2 (fdiv_cases _ _)) Hz Hpos) in E. discriminate E.
    + symmetry in Heq.
      rewrite (proj2 (proj2 (proj2 (fdiv_cases _ _))) Hz Heq) in E.
      discriminate E.
Qed.

Lemma zero_spend_row_makes_mean_infinite_witness :
  argsort_spec insertion_argsort /\
  run insertion_argsort (fun _ => 0%nat) zero_spend_upload
    = Views (dashboard insertion_argsort zero_spend_rows) /\
  map r_Campaign (ranking (dashboard insertion_argsort zero_spend_rows))
    = ["A"; "B"] /\
  r_ROAS (mkRankRow "A" (mean [Fin 0; Fin 100]) (mean [Fin 50; Fin 200])
                    (mean [fdiv 50 0; fdiv 200 100])) = PInf.
Proof.
  split; [exact insertion_argsort_spec |].
  split; [reflexivity | split; [reflexivity |]].
  apply (zero_spend_row_makes_mean_infinite insertion_argsort
           insertion_argsort_spec (fun _ => 0%nat) zero_spend_upload
           (dashboard insertion_argsort zero_spend_rows) eq_refl).
  - left. reflexivity.
  - exists (mkRow "A" (mkDate 2025 1 6) 0 50 "All" "Monday" (fdiv 50 0)).
    split; [now left |]. repeat split.
  - intros x [<- | [<- | [<- | []]]] _ _; discriminate.
Defined.

(** ** The head and the size of the leaderboard (lines 145-146) *)

Lemma fle_refl x : notna x = true -> fle x x = true.
Proof.
  destruct x; simpl; try reflexivity; try discriminate.
  intros _. apply Qle_bool_iff, Qle_refl.
Qed.

(** X8. The first row of the leaderboard is a best campaign: for an
    argsort that meets numpy's contract and a run that shows a dashboard,
    no campaign with a mean ROAS has a larger one than the first row, and
    the first row has a mean ROAS as soon as some campaign has one. *)
Theorem leaderboard_head_is_best
  (argsort : list fnum -> list nat) (Hargsort : argsort_spec argsort)
  (rng : nat -> nat) (df : DataFrame) (v : Dashboard)
  (Hrun : run argsort rng df = Views v)
  (top : RankRow) (rest : list RankRow) (Htop : ranking v = top :: rest) :
  forall r, In r (ranking v) -> notna (r_ROAS r) = true ->
            notna (r_ROAS top) = true /\
            fle (r_ROAS r) (r_ROAS top) = true.
Proof.
  apply run_views in Hrun. destruct Hrun as [_ [raw [rows [_ [_ ->]]]]].
  simpl in *. unfold ranking_of in *.
  destruct (sort_values_desc_spec argsort Hargsort r_ROAS
              (ranking_grouped rows)) as [_ [front [E [Hnum Hsort]]]].
  rewrite E in *. intros r Hr Hnotna.
  assert (Hfront : In r front).
  { apply in_app_or in Hr. destruct Hr as [Hr | Hr]; [exact Hr |].
    apply filter_In in Hr. destruct Hr as [_ Hna].
    unfold notna in Hnotna. rewrite Hna in Hnotna. discriminate. }
  destruct front as [|t front']; [contradiction |].
  simpl in Htop. injection Htop as -> _.
  pose proof (Forall_inv Hnum) as Ht. split; [exact Ht |].
  destruct Hfront as [<- | Hin]; [now apply fle_refl |].
  apply StronglySorted_inv in Hsort. destruct Hsort as [_ Hall].
  rewrite Forall_forall in Hall. now apply Hall.
Qed.

Lemma leaderboard_head_is_best_witness :
  argsort_spec insertion_argsort /\
  run insertion_argsort (fun _ => 0%nat) leaderboard_upload
    = Views (dashboard insertion_argsort leaderboard_rows) /\
  ranking (dashboard insertion_argsort leaderboard_rows)
    = sort_values_desc insertion_argsort r_ROAS
        (ranking_grouped leaderboard_rows) /\
  forall r, In r (ranking (dashboard insertion_argsort leaderboard_rows)) ->
            notna (r_ROAS r) = true ->
            notna (mean [fdiv 300 100; fdiv 100 50]) = true /\
            fle (r_ROAS r) (mean [fdiv 300 100; fdiv 100 50]) = true.
Proof.
  split; [exact insertion_argsort_spec |].
  split; [reflexivity | split; [reflexivity |]].
  exact (leaderboard_head_is_best insertion_argsort insertion_argsort_spec
           (fun _ => 0%nat) leaderboard_upload
           (dashboard insertion_argsort leaderboard_rows) eq_refl
           (mkRankRow "A" (mean [Fin 100; Fin 50]) (mean [Fin 300; Fin 100])
                      (mean [fdiv 300 100; fdiv 100 50]))
           [mkRankRow "B" (mean [Fin 200]) (mean [Fin 200])
                      (mean [fdiv 200 200])]
           eq_refl).
Defined.

(** X9. The leaderboard has exactly one row per distinct campaign of the
    frame: for an argsort that meets numpy's contract and a run that shows
    a dashboard, its campaigns are pairwise different, they are the
    campaigns of the frame, their number is the number of distinct
    campaigns, at most the number of rows, and the leaderboard is empty
    only for a frame without rows. *)
Theorem leaderboard_one_row_per_campaign
  (argsort : list fnum -> list nat) (Hargsort : argsort_spec argsort)
  (rng : nat -> nat) (df : DataFrame) (v : Dashboard)
  (Hrun : run argsort rng df = Views v) :
  NoDup (map r_Campaign (ranking v)) /\
  (forall c, In c (map r_Campaign (ranking v)) <->
             In c (map Campaign (frame v))) /\
  length (ranking v) =
    length (nodup string_dec (map Campaign (frame v))) /\
  (length (ranking v) <= length (frame v))%nat /\
  (ranking v = [] <-> frame v = []).
Proof.
  apply run_views in Hrun. destruct Hrun as [_ [raw [rows [_ [_ ->]]]]].
  simpl. unfold ranking_of.
  destruct (sort_values_desc_spec argsort Hargsort r_ROAS
              (ranking_grouped rows)) as [Hperm _].
  destruct (ranking_grouped_spec rows) as [Hkeys [Hnd _]].
  set (t := sort_values_desc argsort r_ROAS (ranking_grouped rows)) in *.
  assert (Hpm : Permutation (map r_Campaign (ranking_grouped rows))
                            (map r_Campaign t))
    by now apply Permutation_map.
  assert (Hnd' : NoDup (map r_Campaign t))
    by (eapply Permutation_NoDup; eassumption).
  assert (Hkeys' : forall c, In c (map r_Campaign t) <->
                             In c (map Campaign rows)).
  { intros c. rewrite <- Hkeys. split; apply Permutation_in;
      [now apply Permutation_sym | exact Hpm]. }
  assert (Hlen : length t =
                 length (nodup string_dec (map Campaign rows))).
  { rewrite <- (length_map r_Campaign t). apply Permutation_length.
    apply NoDup_Permutation; [exact Hnd' | apply NoDup_nodup |].
    intros c. now rewrite nodup_In. }
  split; [exact Hnd' | split; [exact Hkeys' | split; [exact Hlen |]]].
  split.
  - rewrite Hlen, <- (length_map Campaign rows).
    apply NoDup_incl_length; [apply NoDup_nodup |].
    intros c Hc. now apply nodup_In in Hc.
  - split.
    + intros E. destruct rows as [|x rows]; [reflexivity |].
      assert (Hin : In (Campaign x) (map r_Campaign t))
        by (apply Hkeys'; now left).
      rewrite E in Hin. contradiction.
    + intros ->. destruct t as [|r t']; [reflexivity |].
      assert (Hin : In (r_Campaign r) (map Campaign (@nil Row)))
        by (apply Hkeys'; now left).
      contradiction.
Qed.

Lemma leaderboard_one_row_per_campaign_witness :
  argsort_spec insertion_argsort /\
  run insertion_argsort (fun _ => 0%nat) leaderboard_upload
    = Views (dashboard insertion_argsort leaderboard_rows) /\
  length (ranking (dashboard insertion_argsort leaderboard_rows)) =
    length (nodup string_dec
              (map Campaign
                   (frame (dashboard insertion_argsort leaderboard_rows)))).
Proof.
  split; [exact insertion_argsort_spec | split; [reflexivity |]].
  exact (proj1 (proj2 (proj2
           (leaderboard_one_row_per_campaign insertion_argsort
              insertion_argsort_spec (fun _ => 0%nat) leaderboard_upload
              (dashboard insertion_argsort leaderboard_rows) eq_refl)))).
Defined.

(** ** The frame keeps the rows of the upload (lines 79-83, 104-109) *)

Lemma numbers_Some s xs : numbers s = Some xs -> s = map Number xs.
Proof.
  revert xs. induction s as [|[t|q|] s IH]; simpl; intros xs H.
  - now injection H as <-.
  - discriminate.
  - destruct (numbers s) as [ys|]; [| discriminate].
    injection H as <-. simpl. f_equal. now apply IH.
  - discriminate.
Qed.

Lemma records_of_length df raw :
  records_of df = Some raw -> length raw = nrows df.
Proof.
  unfold records_of.
  destruct (column "Campaign" df) as [c|]; [| discriminate].
  destruct (column "Date" df) as [d|]; [| discriminate].
  destruct (column "Spend" df) as [s|]; [| discriminate].
  destruct (column "Revenue" df) as [r|]; [| discriminate].
  destruct (column "Audience" df) as [a|]; [| discriminate].
  destruct (texts c) as [cs|]; [| discriminate].
  destruct (texts d) as [ds|]; [| discriminate].
  destruct (numbers s) as [ss|]; [| discriminate].
  destruct (numbers r) as [rs|]; [| discriminate].
  destruct (texts a) as [aus|]; [| discriminate].
  destruct (forallb _ _) eqn:L; [| discriminate].
  intros H. injection H as <-.
  simpl in L. repeat rewrite andb_true_iff in L.
  destruct L as [L1 [L2 [L3 [L4 [L5 _]]]]].
  apply Nat.eqb_eq in L1, L2, L3, L4, L5.
  destruct (zip_rows_columns (nrows df) cs ds ss rs aus)
    as [E1 _]; try congruence.
  rewrite <- (length_map raw_Campaign), E1. congruence.
Qed.

Lemma engineer_length raw rows :
  engineer raw = Some rows -> length rows = length raw.
Proof.
  intros H. apply engineer_Forall2 in H.
  induction H; simpl; congruence.
Qed.

(** A label that is neither an alias nor a target names the same columns
    before and after renaming. *)
Lemma column_rename_plain c df :
  (forall c0, rename_label rename_map c0 = c <-> c0 = c) ->
  column c (rename rename_map df) = column c df.
Proof.
  intros Hc. unfold column, rename. simpl.
  assert (E : forall l : list (string * Series),
             map snd (filter (fun p => String.eqb c (fst p))
                        (map (fun p => (rename_label rename_map (fst p),
                                        snd p)) l)) =
             map snd (filter (fun p => String.eqb c (fst p)) l)).
  { induction l as [|[c0 s] l IH]; simpl; [reflexivity |].
    assert (B : String.eqb c (rename_label rename_map c0) = String.eqb c c0).
    { apply eq_true_iff_eq. rewrite !String.eqb_eq.
      split; intros H; symmetry; [apply Hc | apply Hc]; now symmetry. }
    rewrite B. destruct (String.eqb c c0); simpl; now rewrite IH. }
  specialize (E (cols df)).
  destruct (filter _ (map _ (cols df))) as [|p [|p' l]];
    destruct (filter _ (cols df)) as [|q [|q' l']]; simpl in E;
    try discriminate; try reflexivity.
  now injection E as ->.
Qed.

Lemma rename_label_Audience c0 :
  rename_label rename_map c0 = "Audience" <-> c0 = "Audience".
Proof.
  rewrite rename_label_target. split.
  - intros [[E _] | [[_ E] | [[_ E] | [_ E]]]];
      [exact E | discriminate E ..].
  - intros ->. left. repeat split; discriminate.
Qed.

Lemma rename_label_Campaign c0 :
  rename_label rename_map c0 = "Campaign" <-> c0 = "Campaign".
Proof.
  rewrite rename_label_target. split.
  - intros [[E _] | [[_ E] | [[_ E] | [_ E]]]];
      [exact E | discriminate E ..].
  - intros ->. left. repeat split; discriminate.
Qed.

Lemma normalize_when_Audience rng df :
  In "Audience" (columns df) -> normalize rng df = rename rename_map df.
Proof.
  intros H. unfold normalize, autofix.
  assert (E : has_column "Audience" (rename rename_map df) = true).
  { apply has_column_In, In_columns_rename. exists "Audience".
    split; [exact H | reflexivity]. }
  now rewrite E.
Qed.

(** X10. The frame behind the scatter plot is the upload row by row: in
    every run that shows a dashboard it has one row per row of the upload,
    in the same order; Campaign, Spend, Revenue and Audience of its rows
    are the cells of the columns of these labels at the check, Campaign is
    the cell of the upload's own Campaign column, and so is Audience when
    the upload has that column. *)
Theorem frame_keeps_upload_rows
  (argsort : list fnum -> list nat) (rng : nat -> nat) (df : DataFrame)
  (v : Dashboard) (Hrun : run argsort rng df = Views v) :
  length (frame v) = nrows df /\
  column "Campaign" (normalize rng df)
    = Some (map Text (map Campaign (frame v))) /\
  column "Spend" (normalize rng df)
    = Some (map Number (map Spend (frame v))) /\
  column "Revenue" (normalize rng df)
    = Some (map Number (map Revenue (frame v))) /\
  column "Audience" (normalize rng df)
    = Some (map Text (map Audience (frame v))) /\
  column "Campaign" df = Some (map Text (map Campaign (frame v))) /\
  (In "Audience" (columns df) ->
   column "Audience" df = Some (map Text (map Audience (frame v)))).
Proof.
  apply run_views in Hrun. destruct Hrun as [_ [raw [rows [Hrec [Heng ->]]]]].
  simpl.
  pose proof (records_of_length _ _ Hrec) as Hlen.
  pose proof (engineer_length _ _ Heng) as Hlen'.
  apply records_of_columns in Hrec.
  destruct Hrec as [c [d [s [r [a [Hc [Hct [_ [_ [Hs [Hsn [Hr [Hrn
                     [Ha Hat]]]]]]]]]]]]]].
  apply engineer_columns in Heng. destruct Heng as [Ec [Es [Er [Ea _]]]].
  apply texts_Some in Hct, Hat. apply numbers_Some in Hsn, Hrn.
  rewrite Ec, Es, Er, Ea. subst c s r a.
  assert (Hcamp : column "Campaign" (normalize rng df) = column "Campaign" df).
  { unfold normalize, autofix.
    destruct (has_column "Audience" (rename rename_map df)); cbn [negb].
    - apply column_rename_plain, rename_label_Campaign.
    - rewrite column_add_other by discriminate.
      apply column_rename_plain, rename_label_Campaign. }
  assert (Hrows : nrows (normalize rng df) = nrows df).
  { unfold normalize, autofix.
    now destruct (has_column "Audience" (rename rename_map df)). }
  repeat split; try assumption; try congruence.
  { rewrite <- Hcamp. exact Hc. }
  intros Hin. rewrite (normalize_when_Audience rng df Hin) in Ha.
  etransitivity; [| exact Ha]. symmetry.
  apply column_rename_plain, rename_label_Audience.
Qed.

Lemma frame_keeps_upload_rows_witness :
  run insertion_argsort (fun _ => 0%nat) leaderboard_upload
    = Views (dashboard insertion_argsort leaderboard_rows) /\
  length (frame (dashboard insertion_argsort leaderboard_rows))
    = nrows leaderboard_upload.
Proof.
  split; [reflexivity |].
  exact (proj1 (frame_keeps_upload_rows insertion_argsort (fun _ => 0%nat)
                  leaderboard_upload
                  (dashboard insertion_argsort leaderboard_rows) eq_refl)).
Defined.

(** ** The audience table of a synthesised column (lines 64-67, 115) *)

Lemma StronglySorted_lt_NoDup (l : list string) :
  StronglySorted (fun a b => String.compare a b = Lt) l -> NoDup l.
Proof.
  induction 1 as [|a l Hs IH Hall]; constructor; [| exact IH].
  intros Hin. rewrite Forall_forall in Hall.
  apply (string_compare_irrefl a), Hall, Hin.
Qed.

(** X11. When the upload has no Audience column, every Audience of the
    frame is one of the five labels, and the audience table has at most
    five rows, each for one of the five labels. *)
Theorem synthesised_audience_table
  (argsort : list fnum -> list nat) (rng : nat -> nat) (df : DataFrame)
  (v : Dashboard)
  (Habsent : ~ In "Audience" (columns df))
  (Hrun : run argsort rng df = Views v) :
  Forall (fun x => In (Audience x) audiences) (frame v) /\
  Forall (fun r => In (a_Audience r) audiences) (aud_df v) /\
  (length (aud_df v) <= 5)%nat.
Proof.
  apply rename_keeps_Audience_absent in Habsent.
  apply run_views in Hrun. destruct Hrun as [_ [raw [rows [Hrec [Heng ->]]]]].
  simpl.
  apply records_of_columns in Hrec.
  destruct Hrec as [c [d [s [r [a [_ [_ [_ [_ [_ [_ [_ [_ [Ha Hat]]]]]]]]]]]]]].
  apply engineer_columns in Heng. destruct Heng as [_ [_ [_ [Ea _]]]].
  unfold normalize, autofix in Ha.
  pose proof Habsent as Hfalse. apply has_column_false in Hfalse.
  rewrite Hfalse in Ha. cbn [negb] in Ha.
  rewrite column_add_same in Ha by exact Habsent.
  injection Ha as <-. rewrite texts_map_Text in Hat. injection Hat as Hat.
  rewrite <- Ea in Hat.
  assert (Hrows : Forall (fun x => In (Audience x) audiences) rows).
  { apply Forall_forall. intros x Hx.
    apply (random_choice_In rng audiences (nrows df)); [discriminate |].
    rewrite Hat. now apply in_map. }
  destruct (aud_df_spec rows) as [Hkeys [Hsorted _]].
  assert (Hincl : incl (map a_Audience (aud_df_of rows)) audiences).
  { intros l Hl. apply Hkeys in Hl. apply in_map_iff in Hl.
    destruct Hl as [x [<- Hx]]. rewrite Forall_forall in Hrows.
    now apply Hrows. }
  split; [exact Hrows | split].
  - apply Forall_forall. intros r0 Hr0. apply Hincl. now apply in_map.
  - rewrite <- (length_map a_Audience).
    apply (NoDup_incl_length (StronglySorted_lt_NoDup _ Hsorted) Hincl).
Qed.

Lemma synthesised_audience_table_witness :
  ~ In "Audience" (columns ads_upload) /\
  (exists v, run insertion_argsort (fun i => i) ads_upload = Views v /\
             map a_Audience (aud_df v) = ["Gen X"; "Gen Z"; "Millennials"] /\
             (length (aud_df v) <= 5)%nat).
Proof.
  assert (H : ~ In "Audience" (columns ads_upload)).
  { simpl. intros [E | [E | [E | [E | []]]]]; discriminate E. }
  split; [exact H |].
  eexists. split; [reflexivity |]. split; [reflexivity |].
  refine (proj2 (proj2 (synthesised_audience_table insertion_argsort
                          (fun i => i) ads_upload _ H eq_refl))).
Defined.

(** ** An upload that brings its Audience column (lines 64-67) *)

(** X12. When the upload has an Audience column, the random source is
    not consulted: two runs show the same thing, audience table
    included. *)
Theorem audience_present_run_reproducible
  (argsort : list fnum -> list nat) (rng1 rng2 : nat -> nat)
  (df : DataFrame) (Hpresent : In "Audience" (columns df)) :
  normalize rng1 df = rename rename_map df /\
  run argsort rng1 df = run argsort rng2 df.
Proof.
  split; [now apply normalize_when_Audience |].
  pose proof (normalize_when_Audience rng1 df Hpresent) as E1.
  pose proof (normalize_when_Audience rng2 df Hpresent) as E2.
  unfold normalize in E1, E2. unfold run. now rewrite E1, E2.
Qed.

Lemma audience_present_run_reproducible_witness :
  In "Audience" (columns leaderboard_upload) /\
  run insertion_argsort (fun _ => 0%nat) leaderboard_upload
    = run insertion_argsort (fun i => i) leaderboard_upload.
Proof.
  assert (H : In "Audience" (columns leaderboard_upload))
    by (simpl; tauto).
  split; [exact H |].
  exact (proj2 (audience_present_run_reproducible insertion_argsort
                  (fun _ => 0%nat) (fun i => i) leaderboard_upload H)).
Defined.

Lemma rename_distinct_labels_witness :
  NoDup (columns ads_upload) /\
  NoDup (columns (rename rename_map ads_upload)).
Proof.
  assert (H : NoDup (columns ads_upload)).
  { simpl. repeat constructor; simpl;
      intros K; repeat destruct K as [K | K]; try discriminate K; exact K. }
  split; [exact H |].
  apply (proj2 (rename_distinct_labels ads_upload H)).
  simpl. repeat split; intros [_ K];
    repeat destruct K as [K | K]; try discriminate K; exact K.
Defined.

(** ** Weekdays of the frame (lines 79-80) *)


Lemma dayofweek_range d : (0 <= dayofweek d < 7)%Z.
Proof. unfold dayofweek. apply Z.mod_pos_bound. reflexivity. Qed.

(** The seven names are distinct: the name tells the weekday. *)
Lemma day_name_injective d1 d2 :
  day_name d1 = day_name d2 <-> dayofweek d1 = dayofweek d2.
Proof.
  unfold day_name. split; [| now intros ->].
  pose proof (dayofweek_range d1) as H1.
  pose proof (dayofweek_range d2) as H2.
  intros E.
  assert (Hnd : NoDup DAYS_FULL).
  { repeat constructor; simpl;
      intros K; repeat destruct K as [K | K]; try discriminate K; exact K. }
  assert (En : Z.to_nat (dayofweek d1) = Z.to_nat (dayofweek d2)).
  { apply (proj1 (NoDup_nth DAYS_FULL EmptyString) Hnd);
      [simpl; lia | simpl; lia | exact E]. }
  lia.
Qed.

(** X13. The weekday column sorts the rows by their date modulo seven: in
    every run that shows a dashboard all dates of the frame are dates of
    the calendar, two rows carry the same Day exactly when their dates
    are a whole number of weeks apart, and a row dated the day after
    another carries the next weekday, never the same one. *)
Theorem weekday_follows_calendar
  (argsort : list fnum -> list nat) (rng : nat -> nat) (df : DataFrame)
  (v : Dashboard) (Hrun : run argsort rng df = Views v) :
  Forall (fun x => valid_date (Date x) = true) (frame v) /\
  (forall x y, In x (frame v) -> In y (frame v) ->
     (Day x = Day y <->
      ((days_from_civil (Date x) - days_from_civil (Date y)) mod 7 = 0)%Z)) /\
  (forall x y, In x (frame v) -> In y (frame v) ->
     Date y = next_day (Date x) ->
     dayofweek (Date y) = ((dayofweek (Date x) + 1) mod 7)%Z /\
     Day y <> Day x).
Proof.
  apply run_views in Hrun. destruct Hrun as [_ [raw [rows [_ [Heng ->]]]]].
  simpl.
  assert (Hrow : forall x, In x rows ->
            valid_date (Date x) = true /\ Day x = day_name (Date x)).
  { intros x Hx. destruct (In_engineer _ _ _ Heng Hx) as [r [_ Hr]].
    apply engineer_row_spec in Hr.
    destruct Hr as [Hd [_ [_ [_ [_ [Hday _]]]]]].
    apply to_datetime_dayfirst_fields in Hd.
    destruct Hd as [a [b [c [_ [_ [_ [_ Hv]]]]]]]. now split. }
  split; [| split].
  - apply Forall_forall. intros x Hx. now apply Hrow.
  - intros x y Hx Hy.
    destruct (Hrow x Hx) as [_ ->]. destruct (Hrow y Hy) as [_ ->].
    rewrite day_name_injective. unfold dayofweek.
    generalize (days_from_civil (Date x)) (days_from_civil (Date y)).
    intros a b. split; intros H; Z.div_mod_to_equations; lia.
  - intros x y Hx Hy E.
    destruct (Hrow x Hx) as [Hv Dx]. destruct (Hrow y Hy) as [_ Dy].
    assert (Hn : dayofweek (Date y) = ((dayofweek (Date x) + 1) mod 7)%Z).
    { rewrite E. now apply dayofweek_next. }
    split; [exact Hn |].
    rewrite Dx, Dy, day_name_injective, Hn.
    pose proof (dayofweek_range (Date x)) as R.
    intros K. Z.div_mod_to_equations. lia.
Qed.

Lemma weekday_follows_calendar_witness :
  run insertion_argsort (fun _ => 0%nat) leaderboard_upload
    = Views (dashboard insertion_argsort leaderboard_rows) /\
  Forall (fun x => valid_date (Date x) = true)
         (frame (dashboard insertion_argsort leaderboard_rows)).
Proof.
  split; [reflexivity |].
  exact (proj1 (weekday_follows_calendar insertion_argsort (fun _ => 0%nat)
                  leaderboard_upload
                  (dashboard insertion_argsort leaderboard_rows) eq_refl)).
Defined.

(** ** The size of the heatmap table (lines 129-132) *)

Lemma heat_lt_NoDup (l : list HeatRow) :
  StronglySorted heat_lt l ->
  NoDup (map (fun h => (h_Day h, h_Campaign h)) l).
Proof.
  induction 1 as [|h l Hs IH Hall]; simpl; constructor; [| exact IH].
  intros Hin. apply in_map_iff in Hin. destruct Hin as [h' [E Hin]].
  rewrite Forall_forall in Hall. specialize (Hall h' Hin).
  unfold heat_lt in Hall. rewrite E in Hall.
  assert (Eq' : pair_compare (h_Day h, h_Campaign h) (h_Day h, h_Campaign h)
                = Eq) by now apply pair_compare_eq.
  congruence.
Qed.

(** X14. The heatmap table has one row per pair of weekday and campaign
    that occurs in the frame: in every run that shows a dashboard no pair
    is listed twice, and the number of rows is at least the number of
    distinct campaigns, at most seven times that number, and at most the
    number of rows of the frame. *)
Theorem heatmap_size
  (argsort : list fnum -> list nat) (rng : nat -> nat) (df : DataFrame)
  (v : Dashboard) (Hrun : run argsort rng df = Views v) :
  let campaigns := nodup string_dec (map Campaign (frame v)) in
  NoDup (map (fun h => (h_Day h, h_Campaign h)) (heat_data v)) /\
  (length campaigns <= length (heat_data v))%nat /\
  (length (heat_data v) <= 7 * length campaigns)%nat /\
  (length (heat_data v) <= length (frame v))%nat.
Proof.
  apply run_views in Hrun. destruct Hrun as [_ [raw [rows [_ [Heng ->]]]]].
  simpl. apply engineer_derived in Heng.
  destruct (heat_data_spec rows) as [Hkeys [_ Hsorted]].
  pose proof (heat_lt_NoDup _ Hsorted) as Hnd.
  set (pairs := map (fun h => (h_Day h, h_Campaign h)) (heat_data_of rows))
    in *.
  assert (Hpairs : forall d c, In (d, c) pairs <->
            exists x, In x rows /\ Day x = d /\ Campaign x = c).
  { intros d c. rewrite <- Hkeys. unfold pairs. rewrite in_map_iff. split.
    - intros [h [E Hh]]. injection E as <- <-. now exists h.
    - intros [h [Hh [<- <-]]]. now exists h. }
  assert (Hlen : length (heat_data_of rows) = length pairs)
    by (unfold pairs; now rewrite length_map).
  rewrite Hlen. split; [exact Hnd | split; [| split]].
  - rewrite <- (length_map snd pairs).
    apply NoDup_incl_length; [apply NoDup_nodup |].
    intros c Hc. apply nodup_In, in_map_iff in Hc.
    destruct Hc as [x [<- Hx]].
    apply in_map_iff. exists (Day x, Campaign x). split; [reflexivity |].
    apply Hpairs. now exists x.
  - apply Nat.le_trans with
      (length (list_prod days_order
                 (nodup string_dec (map Campaign rows))));
      [| rewrite length_prod; simpl; lia].
    apply NoDup_incl_length; [exact Hnd |].
    intros [d c] Hdc. apply Hpairs in Hdc. destruct Hdc as [x [Hx [<- <-]]].
    apply in_prod.
    + rewrite Forall_forall in Heng. destruct (Heng x Hx) as [_ ->].
      apply day_name_English.
    + apply nodup_In. now apply in_map.
  - rewrite <- (length_map (fun x => (Day x, Campaign x)) rows).
    apply NoDup_incl_length; [exact Hnd |].
    intros [d c] Hdc. apply Hpairs in Hdc. destruct Hdc as [x [Hx [<- <-]]].
    apply in_map_iff. now exists x.
Qed.

Lemma heatmap_size_witness :
  run insertion_argsort (fun _ => 0%nat) heat_upload
    = Views (dashboard insertion_argsort heat_rows) /\
  (1 <= length (heat_data (dashboard insertion_argsort heat_rows)))%nat /\
  (length (heat_data (dashboard insertion_argsort heat_rows)) <= 7)%nat.
Proof.
  split; [reflexivity |].
  pose proof (heatmap_size insertion_argsort (fun _ => 0%nat) heat_upload
                (dashboard insertion_argsort heat_rows) eq_refl) as H.
  split; [exact (proj1 (proj2 H)) | exact (proj1 (proj2 (proj2 H)))].
Defined.
